(** * Code-graph builder: entity model, scope resolver and canonicalization

    A shallow embedding of the Python packages [codebase.code_graph]
    ([models.py], [graph.py], [utils.py]) and [codebase.code_parser]
    ([visitor.py], [code_visitor.py], [utils.py]), and of the component
    extraction of [codebase.code_indexer] ([indexer.py]).

    Python values are modelled as follows.
    - [str] is [string]; comparison of strings is by code point, which on
      the byte strings used here is [String.compare].
    - A [dict] is an association list in insertion order: assigning to an
      existing key keeps the key's position, a new key goes to the end.
    - An exception is the [Raise] branch of [result].  The exceptions are
      those that the code of the repository raises or catches; the limits
      of the interpreter are not modelled.  There is no [RecursionError]:
      the visit of a syntax tree is defined for a tree of any depth, where
      CPython gives up beyond its recursion limit.  The statements about
      every tree or every text therefore say which of the modelled
      exceptions are raised and what a returned result is like, not that
      the interpreter returns.
    - The [networkx.DiGraph] is the ordered node table with, per node, its
      attribute and its ordered successor table. *)

From Stdlib Require Import List String Ascii Bool Arith ZArith Lia.
From Stdlib Require OrderedTypeEx.
Import ListNotations.
Local Open Scope string_scope.
Local Open Scope list_scope.

Set Implicit Arguments.

(* ================================================================== *)
(** * Exceptions *)

Inductive exn : Type :=
| ValueError
| KeyError
| IndexError
| SyntaxError.

Inductive result (A : Type) : Type :=
| Ok (a : A)
| Raise (e : exn).

Arguments Ok {A} a.
Arguments Raise {A} e.

Definition bind {A B : Type} (r : result A) (k : A -> result B) : result B :=
  match r with
  | Ok a => k a
  | Raise e => Raise e
  end.

Notation "x <- r ;; k" := (bind r (fun x => k))
  (at level 61, r at next level, right associativity).
Notation "r ;;; k" := (bind r (fun _ => k))
  (at level 61, right associativity).

(** A [for] loop whose body may raise. *)
Fixpoint for_each {A S : Type} (body : A -> S -> result S) (l : list A) (s : S)
  : result S :=
  match l with
  | [] => Ok s
  | x :: rest => s' <- body x s ;; for_each body rest s'
  end.

(* ================================================================== *)
(** * Python dictionaries keyed by strings *)

Section Dict.
Variable V : Type.

Definition dict := list (string * V).

Fixpoint dict_get (k : string) (d : dict) : option V :=
  match d with
  | [] => None
  | (k', v) :: rest => if String.eqb k k' then Some v else dict_get k rest
  end.

Definition dict_mem (k : string) (d : dict) : bool :=
  match dict_get k d with Some _ => true | None => false end.

(** [d[k] = v] *)
Fixpoint dict_set (k : string) (v : V) (d : dict) : dict :=
  match d with
  | [] => [(k, v)]
  | (k', v') :: rest =>
      if String.eqb k k' then (k', v) :: rest else (k', v') :: dict_set k v rest
  end.

(** [del d[k]], for a key that is present. *)
Definition dict_del (k : string) (d : dict) : dict :=
  filter (fun kv => negb (String.eqb k (fst kv))) d.

Definition dict_keys (d : dict) : list string := map fst d.
Definition dict_values (d : dict) : list V := map snd d.
End Dict.

Arguments dict_get {V} k d.
Arguments dict_mem {V} k d.
Arguments dict_set {V} k v d.
Arguments dict_del {V} k d.
Arguments dict_keys {V} d.
Arguments dict_values {V} d.

(* ================================================================== *)
(** * Python string methods *)

Definition colon : ascii := ":"%char.
Definition dot : ascii := "."%char.
Definition slash : ascii := "/"%char.

(** Truth value of a string, and of an optional string ([None] is false). *)
Definition truthy (s : string) : bool := negb (String.eqb s "").

Definition truthy_opt (o : option string) : bool :=
  match o with Some s => truthy s | None => false end.

(** [s.split(c)] for a one-character separator. *)
Fixpoint str_split (c : ascii) (s : string) : list string :=
  match s with
  | EmptyString => [""]
  | String a s' =>
      if Ascii.eqb a c then "" :: str_split c s'
      else match str_split c s' with
           | h :: t => String a h :: t
           | [] => [String a ""]
           end
  end.

(** The text before and after the first [c], if [c] occurs. *)
Fixpoint str_partition (c : ascii) (s : string) : option (string * string) :=
  match s with
  | EmptyString => None
  | String a s' =>
      if Ascii.eqb a c then Some ("", s')
      else match str_partition c s' with
           | Some (h, t) => Some (String a h, t)
           | None => None
           end
  end.

(** The text before and after the last [c], if [c] occurs. *)
Fixpoint str_rpartition (c : ascii) (s : string) : option (string * string) :=
  match s with
  | EmptyString => None
  | String a s' =>
      match str_rpartition c s' with
      | Some (h, t) => Some (String a h, t)
      | None => if Ascii.eqb a c then Some ("", s') else None
      end
  end.

(** [s.split(c, 1)] *)
Definition str_split1 (c : ascii) (s : string) : list string :=
  match str_partition c s with
  | Some (h, t) => [h; t]
  | None => [s]
  end.

(** [s.rsplit(c, 1)] *)
Definition str_rsplit1 (c : ascii) (s : string) : list string :=
  match str_rpartition c s with
  | Some (h, t) => [h; t]
  | None => [s]
  end.

(** [sep.join(l)] *)
Fixpoint str_join (sep : string) (l : list string) : string :=
  match l with
  | [] => ""
  | [x] => x
  | x :: rest => x ++ sep ++ str_join sep rest
  end.

(** [s.startswith(p)] *)
Definition startswith (p s : string) : bool := String.prefix p s.

(** [s.endswith(p)] *)
Fixpoint endswith (p s : string) : bool :=
  String.eqb p s ||
  match s with
  | EmptyString => false
  | String _ s' => endswith p s'
  end.

(** [l[:-k]] for [k > 0]. *)
Definition drop_last {A : Type} (k : nat) (l : list A) : list A :=
  firstn (List.length l - k) l.

(** [_, full = node_id.split(":", 1); full.rsplit(".", 1)[0]], with the
    [except ValueError] branch of the callers: the empty string when the
    id has no colon. *)
Definition package_of_id (node_id : string) : string :=
  match str_split1 colon node_id with
  | [_; full] => hd "" (str_rsplit1 dot full)
  | _ => ""
  end.

(* ================================================================== *)
(** * Entity model ([code_graph/models.py]) *)

Inductive NodeType : Type := MODULE | PACKAGE | CLASS | FUNCTION | VARIABLE.

Inductive EdgeType : Type :=
| CONTAINS | IMPORTS | INHERITS | COMPOSES | CALLS | REFERENCES | DECORATES.

Definition NodeType_value (t : NodeType) : string :=
  match t with
  | MODULE => "module"
  | PACKAGE => "package"
  | CLASS => "class"
  | FUNCTION => "function"
  | VARIABLE => "variable"
  end.

Definition EdgeType_value (t : EdgeType) : string :=
  match t with
  | CONTAINS => "contains"
  | IMPORTS => "imports"
  | INHERITS => "inherits"
  | COMPOSES => "composes"
  | CALLS => "calls"
  | REFERENCES => "references"
  | DECORATES => "decorates"
  end.

Definition NodeType_eqb (a b : NodeType) : bool :=
  match a, b with
  | MODULE, MODULE | PACKAGE, PACKAGE | CLASS, CLASS
  | FUNCTION, FUNCTION | VARIABLE, VARIABLE => true
  | _, _ => false
  end.

Definition EdgeType_eqb (a b : EdgeType) : bool :=
  match a, b with
  | CONTAINS, CONTAINS | IMPORTS, IMPORTS | INHERITS, INHERITS
  | COMPOSES, COMPOSES | CALLS, CALLS | REFERENCES, REFERENCES
  | DECORATES, DECORATES => true
  | _, _ => false
  end.

(** The allow-list, keyed by edge type. *)
Definition VALID_EDGES : list (EdgeType * list (NodeType * NodeType)) :=
  [ (CONTAINS, [ (PACKAGE, MODULE); (MODULE, CLASS); (MODULE, FUNCTION);
                 (CLASS, CLASS); (CLASS, FUNCTION); (CLASS, VARIABLE);
                 (FUNCTION, FUNCTION); (FUNCTION, CLASS) ]);
    (IMPORTS, [ (MODULE, MODULE); (PACKAGE, PACKAGE) ]);
    (INHERITS, [ (CLASS, CLASS) ]);
    (COMPOSES, [ (CLASS, CLASS); (CLASS, FUNCTION); (CLASS, VARIABLE) ]);
    (CALLS, [ (FUNCTION, FUNCTION); (FUNCTION, CLASS) ]);
    (REFERENCES, [ (FUNCTION, VARIABLE); (CLASS, VARIABLE) ]);
    (DECORATES, [ (FUNCTION, FUNCTION); (FUNCTION, CLASS);
                  (CLASS, FUNCTION); (CLASS, CLASS) ]) ].

(** [VALID_EDGES.get(edge_type, [])] *)
Fixpoint valid_pairs_in (table : list (EdgeType * list (NodeType * NodeType)))
  (edge_type : EdgeType) : list (NodeType * NodeType) :=
  match table with
  | [] => []
  | (t, pairs) :: rest =>
      if EdgeType_eqb edge_type t then pairs else valid_pairs_in rest edge_type
  end.

Definition pair_in (source_type target_type : NodeType)
  (pairs : list (NodeType * NodeType)) : bool :=
  existsb (fun p => NodeType_eqb source_type (fst p)
                    && NodeType_eqb target_type (snd p)) pairs.

(** Only the metadata fields that some operation reads back are kept:
    [source_file] and the [is_callable] flag of [additional]. *)
Record Metadata : Type := mkMetadata {
  source_file : option string;
  is_callable : bool
}.

Record GraphEdge : Type := mkGraphEdge {
  edge_type : EdgeType;
  source_node_id : string;
  target_node_id : string;
  source_node_type : NodeType;
  target_node_type : NodeType
}.

Definition validate_edge (edge_type : EdgeType)
  (source_type target_type : NodeType) : result unit :=
  if negb (pair_in source_type target_type (valid_pairs_in VALID_EDGES edge_type))
  then Raise ValueError
  else Ok tt.

(** [GraphEdge(edge_type=..., source_node_id=..., ...)] *)
Definition new_GraphEdge (edge_type : EdgeType) (source_node_id target_node_id : string)
  (source_node_type target_node_type : NodeType) : result GraphEdge :=
  let self := mkGraphEdge edge_type source_node_id target_node_id
                source_node_type target_node_type in
  validate_edge edge_type source_node_type target_node_type ;;;
  Ok self.

Record GraphNode : Type := mkGraphNode {
  id : string;
  name : string;
  node_type : NodeType;
  metadata : Metadata;
  relationships : list GraphEdge
}.

Definition add_relationship (self : GraphNode) (edge : GraphEdge) : result GraphNode :=
  if negb (String.eqb (source_node_id edge) (id self)) then Raise ValueError
  else Ok (mkGraphNode (id self) (name self) (node_type self) (metadata self)
             (relationships self ++ [edge])).

(** [node.relationships.append(edge)], the unchecked append the visitor uses. *)
Definition append_relationship (self : GraphNode) (edge : GraphEdge) : GraphNode :=
  mkGraphNode (id self) (name self) (node_type self) (metadata self)
    (relationships self ++ [edge]).

Definition has_source_file (n : GraphNode) : bool :=
  truthy_opt (source_file (metadata n)).

(** The (edge type, source type, target type) triples of the allow-list. *)
Definition allowed_triples : list (EdgeType * NodeType * NodeType) :=
  flat_map (fun entry => map (fun p => (fst entry, fst p, snd p)) (snd entry))
    VALID_EDGES.

(* ================================================================== *)
(** * The directed graph ([networkx.DiGraph])

    The node table [_node] and the successor table [_succ] have the same
    keys in the same order, so one ordered table holds both.  The node
    attribute ["data"] is the dumped [GraphNode]; a node that [add_edge]
    created has none, and reads of it through [.get("data", {})] see no
    name.  The only edge attribute in use is the ["relationship"] label. *)

Record nx_entry : Type := mkEntry {
  n_data : option GraphNode;
  n_succ : dict string
}.

Definition DiGraph := dict nx_entry.

Definition nx_has_node (g : DiGraph) (n : string) : bool := dict_mem n g.

(** [G.add_node(n, data=data)] *)
Definition nx_add_node (g : DiGraph) (n : string) (data : option GraphNode) : DiGraph :=
  match dict_get n g with
  | Some e => dict_set n (mkEntry data (n_succ e)) g
  | None => g ++ [(n, mkEntry data [])]
  end.

(** The implicit node creation of [add_edge]. *)
Definition nx_touch (g : DiGraph) (n : string) : DiGraph :=
  if dict_mem n g then g else g ++ [(n, mkEntry None [])].

(** [G.add_edge(u, v, relationship=rel)] *)
Definition nx_add_edge (g : DiGraph) (u v rel : string) : DiGraph :=
  let g := nx_touch (nx_touch g u) v in
  match dict_get u g with
  | Some e => dict_set u (mkEntry (n_data e) (dict_set v rel (n_succ e))) g
  | None => g
  end.

Definition nx_has_edge (g : DiGraph) (u v : string) : bool :=
  match dict_get u g with
  | Some e => dict_mem v (n_succ e)
  | None => false
  end.

(** [G.remove_edge(u, v)], for an edge that is present. *)
Definition nx_remove_edge (g : DiGraph) (u v : string) : DiGraph :=
  match dict_get u g with
  | Some e => dict_set u (mkEntry (n_data e) (dict_del v (n_succ e))) g
  | None => g
  end.

(** [G.remove_node(n)]: the node and every edge touching it. *)
Definition nx_remove_node (g : DiGraph) (n : string) : DiGraph :=
  map (fun ue => (fst ue, mkEntry (n_data (snd ue)) (dict_del n (n_succ (snd ue)))))
    (dict_del n g).

(** [G.edges(data=True)]: by source node in node order, then by successor. *)
Definition nx_edges (g : DiGraph) : list (string * string * string) :=
  flat_map (fun ue => map (fun vd => (fst ue, fst vd, snd vd)) (n_succ (snd ue))) g.

(** [attr.get("data", {}).get("name")] *)
Definition attr_name (e : nx_entry) : option string :=
  match n_data e with
  | Some data => Some (name data)
  | None => None
  end.

(** The ["data"] attribute of node [n], when the node has one. *)
Definition node_data (g : DiGraph) (n : string) : option GraphNode :=
  match dict_get n g with
  | Some e => n_data e
  | None => None
  end.

(* ================================================================== *)
(** * Project graph ([code_graph/graph.py]) *)

Definition CodeGraph_add_node (g : DiGraph) (node : GraphNode) : DiGraph :=
  nx_add_node g (id node) (Some node).

Definition CodeGraph_add_edge (g : DiGraph) (source_id : string) (edge : GraphEdge)
  : DiGraph :=
  nx_add_edge g source_id (target_node_id edge) (EdgeType_value (edge_type edge)).

Definition build_from_nodes (g : DiGraph) (nodes : list GraphNode) : DiGraph :=
  let g := fold_left CodeGraph_add_node nodes g in
  fold_left (fun g node =>
               fold_left (fun g edge => CodeGraph_add_edge g (id node) edge)
                 (relationships node) g)
    nodes g.

(** [simple_to_ids.setdefault(name, []).append(node_id)] *)
Definition group_append (name node_id : string) (groups : dict (list string))
  : dict (list string) :=
  match dict_get name groups with
  | Some ids => dict_set name (ids ++ [node_id]) groups
  | None => groups ++ [(name, [node_id])]
  end.

(** The first loop of [merge_nodes_by_reference]. *)
Definition simple_to_ids (g : DiGraph) : dict (list string) :=
  fold_left (fun groups ue =>
               match attr_name (snd ue) with
               | Some name =>
                   if truthy name then group_append name (fst ue) groups else groups
               | None => groups
               end)
    g [].

(** The local function [score]: the key is [(-has_source_file, pkg)]. *)
Definition score (g : DiGraph) (nid : string) : result (Z * string) :=
  match dict_get nid g with
  | None => Raise KeyError
  | Some e =>
      match n_data e with
      | None => Raise KeyError
      | Some data =>
          let has_source_file := if has_source_file data then 1%Z else 0%Z in
          match str_split1 colon nid with
          | _ :: pkg :: _ => Ok ((- has_source_file)%Z, pkg)
          | _ => Raise IndexError
          end
      end
  end.

(** Tuple comparison [a < b]. *)
Definition key_lt (a b : Z * string) : bool :=
  (fst a <? fst b)%Z || ((fst a =? fst b)%Z && String.ltb (snd a) (snd b)).

(** [min(ids, key=score)] after the first element: the best so far is
    replaced only by a strictly smaller key. *)
Fixpoint min_from (key : string -> result (Z * string)) (best : string)
  (best_key : Z * string) (rest : list string) : result string :=
  match rest with
  | [] => Ok best
  | x :: rest' =>
      k <- key x ;;
      if key_lt k best_key then min_from key x k rest'
      else min_from key best best_key rest'
  end.

Definition min_by (key : string -> result (Z * string)) (ids : list string)
  : result string :=
  match ids with
  | [] => Raise ValueError
  | x :: rest => k <- key x ;; min_from key x k rest
  end.

(** The edges collected for one non-canonical id, in iteration order. *)
Definition edges_to_add (g : DiGraph) (canonical nid : string)
  : list (string * string * string) :=
  flat_map (fun uvd =>
              let '(u, v, d) := uvd in
              (if String.eqb v nid && nx_has_node g u
               then if negb (nx_has_edge g u canonical) then [(u, canonical, d)] else []
               else [])
              ++
              (if String.eqb u nid && nx_has_node g v
               then if negb (nx_has_edge g canonical v) then [(canonical, v, d)] else []
               else []))
    (nx_edges g).

Definition edges_to_remove (g : DiGraph) (nid : string) : list (string * string) :=
  flat_map (fun uvd =>
              let '(u, v, d) := uvd in
              (if String.eqb v nid && nx_has_node g u then [(u, v)] else [])
              ++
              (if String.eqb u nid && nx_has_node g v then [(u, v)] else []))
    (nx_edges g).

(** [for u, v, d in edges_to_add: self.graph.add_edge(u, v, **d)] *)
Definition add_edges (to_add : list (string * string * string)) (g : DiGraph)
  : DiGraph :=
  fold_left (fun g uvd => nx_add_edge g (fst (fst uvd)) (snd (fst uvd)) (snd uvd))
    to_add g.

(** [for u, v in edges_to_remove: if self.graph.has_edge(u, v): ...] *)
Definition remove_edges (to_remove : list (string * string)) (g : DiGraph)
  : DiGraph :=
  fold_left (fun g uv =>
               if nx_has_edge g (fst uv) (snd uv)
               then nx_remove_edge g (fst uv) (snd uv) else g)
    to_remove g.

(** The body of [for nid in ids]. *)
Definition merge_into (canonical : string) (g : DiGraph) (nid : string) : DiGraph :=
  if String.eqb nid canonical then g
  else if negb (nx_has_node g nid) then g
  else
    let to_add := edges_to_add g canonical nid in
    let to_remove := edges_to_remove g nid in
    let g := add_edges to_add g in
    let g := remove_edges to_remove g in
    if nx_has_node g nid then nx_remove_node g nid else g.

(** The body of [for name, ids in simple_to_ids.items()]. *)
Definition merge_group (group : string * list string) (g : DiGraph) : result DiGraph :=
  let ids := snd group in
  if (List.length ids <=? 1)%nat then Ok g
  else
    canonical <- min_by (score g) ids ;;
    Ok (fold_left (merge_into canonical) ids g).

(** [CodeGraph.merge_nodes_by_reference].  An exception leaves the graph
    partly merged in Python; here a raised run has no graph. *)
Definition merge_nodes_by_reference (g : DiGraph) : result DiGraph :=
  for_each merge_group (simple_to_ids g) g.

(** The canonical id chosen for [name], when its group has several ids. *)
Definition canonical_of (g : DiGraph) (name : string) : result string :=
  match dict_get name (simple_to_ids g) with
  | Some ids => min_by (score g) ids
  | None => Raise KeyError
  end.

(* ================================================================== *)
(** * Paths ([os.path], POSIX flavour) *)

Fixpoint all_char (c : ascii) (s : string) : bool :=
  match s with
  | EmptyString => true
  | String a s' => Ascii.eqb a c && all_char c s'
  end.

(** [s.rstrip(c)] *)
Fixpoint str_rstrip (c : ascii) (s : string) : string :=
  match s with
  | EmptyString => ""
  | String a s' => if all_char c s then "" else String a (str_rstrip c s')
  end.

Definition os_path_basename (p : string) : string :=
  match str_rpartition slash p with
  | Some (_, tail) => tail
  | None => p
  end.

Definition os_path_dirname (p : string) : string :=
  match str_rpartition slash p with
  | Some (h, _) =>
      let head := (h ++ "/")%string in
      if all_char slash head then head else str_rstrip slash head
  | None => ""
  end.

(** [os.path.splitext(p)[0]]: the last dot of the last path component
    starts the extension, unless only dots come before it. *)
Definition splitext_root (p : string) : string :=
  let '(dir, file) := match str_rpartition slash p with
                      | Some (h, t) => ((h ++ "/")%string, t)
                      | None => ("", p)
                      end in
  match str_rpartition dot file with
  | Some (stem, _) => if all_char dot stem then p else (dir ++ stem)%string
  | None => p
  end.

(** [os.path.join(a, *parts)] *)
Definition os_path_join (a : string) (parts : list string) : string :=
  fold_left (fun a b =>
               if startswith "/" b then b
               else if negb (truthy a) || endswith "/" a then (a ++ b)%string
               else (a ++ "/" ++ b)%string)
    parts a.

(* ================================================================== *)
(** * Syntax trees ([ast])

    One type for all node classes, as in Python; [Other] stands for every
    class without a visitor method, with its child nodes in field order.
    The child lists of [ClassDef], [FunctionDef] and [Call] are their
    fields in [_fields] order. *)

#[warnings="-register-all"]
Inductive ast : Type :=
| Module (body : list ast)
| Import (names : list string)
| ImportFrom (module : option string) (names : list string) (level : nat)
| ClassDef (name : string) (bases keywords body decorator_list : list ast)
| FunctionDef (name : string) (args body decorator_list returns : list ast)
| Call (func : ast) (args keywords : list ast)
| Name (id : string)
| Attribute (value : ast) (attr : string)
| Other (children : list ast).

(* ================================================================== *)
(** * The collaborators outside the repository

    The file system, the interpreter's search path and the parser are
    inputs of the build. *)

Record Platform : Type := mkPlatform {
  (** [os.path.relpath(path, start)], for a path that is not empty; the
      [ValueError] for an empty path is not modelled *)
  os_path_relpath : string -> string -> string;
  (** [os.path.normpath(path)] *)
  os_path_normpath : string -> string;
  sys_path : list string;
  os_path_isfile : string -> bool;
  os_path_isdir : string -> bool;
  (** [ast.parse(code)]; [None] is a [SyntaxError].  A parser that fails
      otherwise (before Python 3.12 a [ValueError] for a null byte) is not
      modelled *)
  ast_parse : string -> option ast;
  (** [str(Path(project_path))] *)
  Path_str : string -> string;
  (** [str(p) for p in root.rglob("*.py")] *)
  rglob_py : string -> list string;
  (** [filepath.read_text(encoding="utf-8")]; [None] is an [IOError] or a
      [UnicodeDecodeError] *)
  read_text : string -> option string
}.

(* ================================================================== *)
(** * Path helpers of the parser ([code_parser/utils.py]) *)

Section Utils.
Variable pf : Platform.

Definition compute_package_full_path (source_file project_root : string) : string :=
  let rel_path := os_path_relpath pf source_file project_root in
  let norm_path := os_path_normpath pf rel_path in
  let parts := str_split slash norm_path in
  let parts :=
    if String.eqb (last parts "") "__init__.py" then removelast parts
    else removelast parts ++ [splitext_root (last parts "")] in
  str_join "." parts.

Fixpoint find_in_paths (paths : list string) (module_name : string) : option string :=
  match paths with
  | [] => None
  | path :: rest =>
      let module_path := os_path_join path (str_split dot module_name) in
      let file_path := (module_path ++ ".py")%string in
      if os_path_isfile pf file_path then Some file_path
      else
        let init_file := os_path_join module_path ["__init__.py"] in
        if os_path_isdir pf module_path && os_path_isfile pf init_file
        then Some init_file
        else find_in_paths rest module_name
  end.

Definition find_package_source (module_name : string) : option string :=
  find_in_paths (sys_path pf) module_name.
End Utils.

(* ================================================================== *)
(** * The per-file visitor state ([CodeVisitor]) *)

Record CodeVisitor : Type := mkCodeVisitor {
  cv_source_file : string;
  project_root : string;
  graph_nodes : dict GraphNode;
  current_parent_ids : list string;
  reference_table : dict (dict string);
  imported_module_cache : dict string;
  module_id : string
}.

Definition set_graph_nodes (nodes : dict GraphNode) (self : CodeVisitor) : CodeVisitor :=
  mkCodeVisitor (cv_source_file self) (project_root self) nodes
    (current_parent_ids self) (reference_table self) (imported_module_cache self)
    (module_id self).

Definition set_current_parent_ids (parents : list string) (self : CodeVisitor)
  : CodeVisitor :=
  mkCodeVisitor (cv_source_file self) (project_root self) (graph_nodes self)
    parents (reference_table self) (imported_module_cache self) (module_id self).

Definition set_reference_table (table : dict (dict string)) (self : CodeVisitor)
  : CodeVisitor :=
  mkCodeVisitor (cv_source_file self) (project_root self) (graph_nodes self)
    (current_parent_ids self) table (imported_module_cache self) (module_id self).

Definition set_imported_module_cache (cache : dict string) (self : CodeVisitor)
  : CodeVisitor :=
  mkCodeVisitor (cv_source_file self) (project_root self) (graph_nodes self)
    (current_parent_ids self) (reference_table self) cache (module_id self).

(** [a or b] on an optional string. *)
Definition or_else (a : option string) (b : string) : string :=
  match a with
  | Some s => if truthy s then s else b
  | None => b
  end.

(** [1 if (node and node.metadata and node.metadata.source_file) else 0]
    for [node = self.graph_nodes.get(node_id)]. *)
Definition candidate_score (self : CodeVisitor) (node_id : string) : Z :=
  match dict_get node_id (graph_nodes self) with
  | Some node => if has_source_file node then 1%Z else 0%Z
  | None => 0%Z
  end.

(** One iteration of the loop of [lookup_node] over [candidates.items()]. *)
Definition lookup_step (self : CodeVisitor) (entry : string * string)
  (st : option string * Z) : result (option string * Z) :=
  let '(best_id, best_score) := st in
  let '(package, node_id) := entry in
  let score := candidate_score self node_id in
  if (score >? best_score)%Z then Ok (Some node_id, score)
  else if (score =? best_score)%Z then
    match best_id with
    | None => Ok (Some node_id, score)
    | Some b =>
        match str_split1 colon b with
        | _ :: full :: _ =>
            if String.ltb package (hd "" (str_rsplit1 dot full))
            then Ok (Some node_id, score) else Ok st
        | _ => Raise IndexError
        end
    end
  else Ok st.

(** [lookup_node], the same text in [visitor.py] and [code_visitor.py]. *)
Definition lookup_node (simple_name : string) (self : CodeVisitor)
  : result (option string) :=
  match dict_get simple_name (reference_table self) with
  | None => Ok None
  | Some [] => Ok None
  | Some candidates =>
      st <- for_each (lookup_step self) candidates (None, (-1)%Z) ;;
      Ok (fst st)
  end.

(** [self.graph_nodes[nid].relationships.append(GraphEdge(...))] *)
Definition append_edge (nid : string) (edge : result GraphEdge) (self : CodeVisitor)
  : result CodeVisitor :=
  match dict_get nid (graph_nodes self) with
  | None => Raise KeyError
  | Some node =>
      e <- edge ;;
      Ok (set_graph_nodes (dict_set nid (append_relationship node e) (graph_nodes self))
            self)
  end.

(** [edge = GraphEdge(...)] first, then
    [self.graph_nodes[nid].relationships.append(edge)]. *)
Definition append_built_edge (edge : result GraphEdge) (nid : string)
  (self : CodeVisitor) : result CodeVisitor :=
  e <- edge ;; append_edge nid (Ok e) self.

(** The first id in [reversed(self.current_parent_ids)] with the prefix. *)
Definition innermost (prefix : string) (self : CodeVisitor) : option string :=
  find (startswith prefix) (rev (current_parent_ids self)).

(** The module id of [__init__], shared by both visitors. *)
Definition simple_name_of (source_file : string) : string :=
  let filename := os_path_basename source_file in
  if String.eqb filename "__init__.py"
  then os_path_basename (os_path_dirname source_file)
  else splitext_root filename.

Definition module_id_of (pf : Platform) (source_file project_root : string) : string :=
  let simple_name := simple_name_of source_file in
  let package_full := compute_package_full_path pf source_file project_root in
  ("module:" ++ package_full ++ "." ++ simple_name)%string.

(* ================================================================== *)
(** * The visitor of [code_parser/visitor.py] *)

Module visitor.
Section WithPlatform.
Variable pf : Platform.

Definition update_reference_table (node : GraphNode) (self : CodeVisitor)
  : CodeVisitor :=
  let package := package_of_id (id node) in
  let table :=
    if negb (dict_mem (name node) (reference_table self))
    then reference_table self ++ [(name node, [])]
    else reference_table self in
  let candidates := match dict_get (name node) table with
                    | Some c => c
                    | None => []
                    end in
  let keep :=
    match dict_get package candidates with
    | Some existing_node_id =>
        truthy existing_node_id &&
        match dict_get existing_node_id (graph_nodes self) with
        | Some existing_node => has_source_file existing_node
        | None => false
        end
    | None => false
    end in
  if keep then set_reference_table table self
  else set_reference_table
         (dict_set (name node) (dict_set package (id node) candidates) table) self.

(** [CodeVisitor(source_file, code, project_root)] *)
Definition init (source_file code project_root : string) : result CodeVisitor :=
  if negb (truthy project_root) then Raise ValueError
  else
    let simple_name := simple_name_of source_file in
    let module_id := module_id_of pf source_file project_root in
    match ast_parse pf code with
    | None => Raise SyntaxError
    | Some _ =>
        let module_node :=
          mkGraphNode module_id simple_name MODULE
            (mkMetadata (Some source_file) false) [] in
        let self := mkCodeVisitor source_file project_root
                      [(module_id, module_node)] [] [] [] module_id in
        let self := update_reference_table module_node self in
        Ok (set_current_parent_ids [module_id] self)
    end.

Definition compute_node_id (node_type : NodeType) (name : string)
  (self : CodeVisitor) : string :=
  match rev (current_parent_ids self) with
  | [] => (NodeType_value node_type ++ ":" ++ module_id self ++ "." ++ name)%string
  | parent_id :: _ =>
      let package_path := package_of_id parent_id in
      (NodeType_value node_type ++ ":" ++ package_path ++ "." ++ name)%string
  end.

Definition add_node (node : GraphNode) (self : CodeVisitor) : result CodeVisitor :=
  let self := set_graph_nodes (dict_set (id node) node (graph_nodes self)) self in
  let self := update_reference_table node self in
  match rev (current_parent_ids self) with
  | [] => Ok self
  | parent_id :: _ =>
      match dict_get parent_id (graph_nodes self) with
      | None => Raise KeyError
      | Some parent =>
          append_edge parent_id
            (new_GraphEdge CONTAINS parent_id (id node) (node_type parent)
               (node_type node))
            self
      end
  end.

(** The body of the loop shared by [visit_Import] and [visit_ImportFrom]. *)
Definition import_module (imported_module : string) (self : CodeVisitor)
  : result CodeVisitor :=
  let imported_module_id :=
    match dict_get imported_module (imported_module_cache self) with
    | Some cached => cached
    | None => ("module:" ++ imported_module)%string
    end in
  let self := set_imported_module_cache
                (dict_set imported_module imported_module_id
                   (imported_module_cache self)) self in
  let module_source_file := find_package_source pf imported_module in
  let self :=
    if negb (dict_mem imported_module_id (graph_nodes self))
    then
      let node := mkGraphNode imported_module_id imported_module MODULE
                    (mkMetadata module_source_file false) [] in
      update_reference_table node
        (set_graph_nodes (dict_set imported_module_id node (graph_nodes self)) self)
    else self in
  append_edge (module_id self)
    (new_GraphEdge IMPORTS (module_id self) imported_module_id MODULE MODULE)
    self.

Definition visit_Import (names : list string) (self : CodeVisitor)
  : result CodeVisitor :=
  for_each import_module names self.

(** The base module of a [from ... import], from the level count. *)
Definition base_module_of (module : option string) (level : nat)
  (self : CodeVisitor) : string :=
  let module_suffix := match module with
                       | Some m => if truthy m then ("." ++ m)%string else ""
                       | None => ""
                       end in
  if (0 <? level)%nat then
    let package_parts :=
      match str_split1 colon (module_id self) with
      | [_; full] => str_split dot full
      | _ => []
      end in
    let base := str_join "." (drop_last level package_parts) in
    (base ++ module_suffix)%string
  else
    match module with
    | Some m => if truthy m then m else ""
    | None => ""
    end.

Definition visit_ImportFrom (module : option string) (names : list string)
  (level : nat) (self : CodeVisitor) : result CodeVisitor :=
  let base_module := base_module_of module level self in
  for_each (fun alias_name self =>
              let imported_module :=
                if truthy base_module then (base_module ++ "." ++ alias_name)%string
                else alias_name in
              import_module imported_module self)
    names self.

(** [decorator.value.id if isinstance(decorator.value, ast.Name) else None] *)
Definition name_id (value : ast) : option string :=
  match value with
  | Name i => Some i
  | _ => None
  end.

(** [f"{obj_name}"] *)
Definition format_opt (o : option string) : string :=
  match o with
  | Some s => s
  | None => "None"
  end.

Definition lookup_node_opt (o : option string) (self : CodeVisitor)
  : result (option string) :=
  match o with
  | Some s => lookup_node s self
  | None => Ok None
  end.

Definition handle_decorator (target_id : string) (decorator : ast)
  (self : CodeVisitor) : result CodeVisitor :=
  let emit (full_decorator_id : string) :=
    let target_node_type :=
      if startswith "function:" target_id then FUNCTION else CLASS in
    append_built_edge
      (new_GraphEdge DECORATES full_decorator_id target_id FUNCTION target_node_type)
      target_id self in
  match decorator with
  | Name decorator_name =>
      found <- lookup_node decorator_name self ;;
      emit (or_else found (compute_node_id FUNCTION decorator_name self))
  | Attribute value decorator_name =>
      let obj_name := name_id value in
      found <- lookup_node (format_opt obj_name ++ "." ++ decorator_name)%string self ;;
      emit (or_else found (compute_node_id FUNCTION decorator_name self))
  | _ => Ok self
  end.

Definition handle_decorators (decorator_list : list ast) (target_id : string)
  (self : CodeVisitor) : result CodeVisitor :=
  for_each (handle_decorator target_id) decorator_list self.

(** [self.current_parent_ids.pop()] *)
Definition pop_parent (self : CodeVisitor) : result CodeVisitor :=
  match current_parent_ids self with
  | [] => Raise IndexError
  | parents => Ok (set_current_parent_ids (removelast parents) self)
  end.

Definition push_parent (nid : string) (self : CodeVisitor) : CodeVisitor :=
  set_current_parent_ids (current_parent_ids self ++ [nid]) self.

Definition defines_call (body : list ast) : bool :=
  existsb (fun body_item =>
             match body_item with
             | FunctionDef fname _ _ _ _ => String.eqb fname "__call__"
             | _ => false
             end)
    body.

Definition visit_ClassDef (generic_visit : CodeVisitor -> result CodeVisitor)
  (name : string) (body decorator_list : list ast) (self : CodeVisitor)
  : result CodeVisitor :=
  let class_id := compute_node_id CLASS name self in
  existing_node_id <- lookup_node name self ;;
  if truthy_opt existing_node_id then Ok self
  else
    let class_node :=
      mkGraphNode class_id name CLASS
        (mkMetadata (Some (cv_source_file self)) (defines_call body)) [] in
    self <- add_node class_node self ;;
    let self := push_parent class_id self in
    self <- handle_decorators decorator_list class_id self ;;
    self <- generic_visit self ;;
    pop_parent self.

Definition visit_FunctionDef (generic_visit : CodeVisitor -> result CodeVisitor)
  (name : string) (decorator_list : list ast) (self : CodeVisitor)
  : result CodeVisitor :=
  let parent_id := last (current_parent_ids self) (module_id self) in
  let is_method := startswith "class:" parent_id in
  let function_id := compute_node_id FUNCTION name self in
  existing_node_id <- lookup_node name self ;;
  if truthy_opt existing_node_id then Ok self
  else
    let function_node :=
      mkGraphNode function_id name FUNCTION
        (mkMetadata (Some (cv_source_file self)) false) [] in
    self <- add_node function_node self ;;
    self <- (if is_method
             then append_built_edge
                    (new_GraphEdge CONTAINS parent_id function_id CLASS FUNCTION)
                    parent_id self
             else Ok self) ;;
    let self := push_parent function_id self in
    self <- handle_decorators decorator_list function_id self ;;
    self <- generic_visit self ;;
    pop_parent self.

(** The callee of a call, [None] when none is resolved. *)
Definition called_function_id_of (func : ast) (self : CodeVisitor)
  : result (option string) :=
  match func with
  | Name fid =>
      found <- lookup_node fid self ;;
      let possible_class_id := or_else found (compute_node_id CLASS fid self) in
      match dict_get possible_class_id (graph_nodes self) with
      | Some node =>
          if is_callable (metadata node) then Ok (Some possible_class_id)
          else
            found <- lookup_node fid self ;;
            Ok (Some (or_else found (compute_node_id FUNCTION fid self)))
      | None => Ok None
      end
  | Attribute value attr_name =>
      let obj_name := name_id value in
      if truthy_opt obj_name
         && (String.eqb (format_opt obj_name) "self"
             || String.eqb (format_opt obj_name) "cls")
      then
        match innermost "class:" self with
        | Some parent_class_id =>
            match str_split1 colon parent_class_id with
            | _ :: full :: _ => Ok (Some ("function:" ++ full ++ "." ++ attr_name)%string)
            | _ => Raise IndexError
            end
        | None => Ok None
        end
      else
        found <- lookup_node_opt obj_name self ;;
        let possible_class_id :=
          or_else found (compute_node_id CLASS (format_opt obj_name) self) in
        match dict_get possible_class_id (graph_nodes self) with
        | Some node =>
            if is_callable (metadata node) then Ok (Some possible_class_id)
            else Ok None
        | None => Ok None
        end
  | _ => Ok None
  end.

(** [visit_Call]; nothing is ever put into [handled_call_nodes], so its
    membership test is always false. *)
Definition visit_Call (generic_visit : CodeVisitor -> result CodeVisitor)
  (func : ast) (self : CodeVisitor) : result CodeVisitor :=
  let caller_id := match innermost "function:" self with
                   | Some p => p
                   | None => module_id self
                   end in
  called_function_id <- called_function_id_of func self ;;
  self <- (if truthy_opt called_function_id
           then
             let called := format_opt called_function_id in
             append_edge caller_id
               (new_GraphEdge CALLS caller_id called FUNCTION
                  (if startswith "class:" called then CLASS else FUNCTION))
               self
           else Ok self) ;;
  generic_visit self.

(** [NodeVisitor.visit]: dispatch on the node class, [generic_visit]
    for the classes without a method. *)
Fixpoint visit (node : ast) (self : CodeVisitor) {struct node} : result CodeVisitor :=
  match node with
  | Module body => for_each visit body self
  | Import names => visit_Import names self
  | ImportFrom module names level => visit_ImportFrom module names level self
  | ClassDef name bases keywords body decorator_list =>
      visit_ClassDef
        (fun self =>
           self <- for_each visit bases self ;;
           self <- for_each visit keywords self ;;
           self <- for_each visit body self ;;
           for_each visit decorator_list self)
        name body decorator_list self
  | FunctionDef name args body decorator_list returns =>
      visit_FunctionDef
        (fun self =>
           self <- for_each visit args self ;;
           self <- for_each visit body self ;;
           self <- for_each visit decorator_list self ;;
           for_each visit returns self)
        name decorator_list self
  | Call func args keywords =>
      visit_Call
        (fun self =>
           self <- visit func self ;;
           self <- for_each visit args self ;;
           for_each visit keywords self)
        func self
  | Name _ => Ok self
  | Attribute value _ => visit value self
  | Other children => for_each visit children self
  end.

Definition get_graph_nodes (self : CodeVisitor) : list GraphNode :=
  dict_values (graph_nodes self).
End WithPlatform.
End visitor.

(* ================================================================== *)
(** * The visitor of [code_parser/code_visitor.py]

    Its [lookup_node] and module id are the shared definitions above; here
    are the two methods that differ from [visitor.py] in what they store. *)

Module code_visitor.

Definition update_reference_table (node : GraphNode) (self : CodeVisitor)
  : CodeVisitor :=
  let package := package_of_id (id node) in
  let table :=
    if negb (dict_mem (name node) (reference_table self))
    then reference_table self ++ [(name node, [])]
    else reference_table self in
  let candidates := match dict_get (name node) table with
                    | Some c => c
                    | None => []
                    end in
  let replaced :=
    set_reference_table
      (dict_set (name node) (dict_set package (id node) candidates) table) self in
  match dict_get package candidates with
  | Some existing_node_id =>
      if truthy existing_node_id then
        let existing_lacks_source :=
          match dict_get existing_node_id (graph_nodes self) with
          | None => true
          | Some existing_node => negb (has_source_file existing_node)
          end in
        if existing_lacks_source && has_source_file node then replaced
        else set_reference_table table self
      else replaced
  | None => replaced
  end.

Definition import_module (imported_module : string) (self : CodeVisitor)
  : result CodeVisitor :=
  let imported_module_id :=
    match dict_get imported_module (imported_module_cache self) with
    | Some cached => cached
    | None => ("module:" ++ imported_module)%string
    end in
  let self := set_imported_module_cache
                (dict_set imported_module imported_module_id
                   (imported_module_cache self)) self in
  let self :=
    if negb (dict_mem imported_module_id (graph_nodes self))
    then
      let node := mkGraphNode imported_module_id imported_module MODULE
                    (mkMetadata None false) [] in
      update_reference_table node
        (set_graph_nodes (dict_set imported_module_id node (graph_nodes self)) self)
    else self in
  append_edge (module_id self)
    (new_GraphEdge IMPORTS (module_id self) imported_module_id MODULE MODULE)
    self.

Definition visit_Import (names : list string) (self : CodeVisitor)
  : result CodeVisitor :=
  for_each import_module names self.

End code_visitor.

(* ================================================================== *)
(** * Project builder ([code_graph/utils.py]) *)

Section Builder.
Variable pf : Platform.

Definition build_from_code (source_file code project_root : string)
  : result DiGraph :=
  match ast_parse pf code with
  | None => Raise SyntaxError
  | Some tree =>
      self <- visitor.init pf source_file code project_root ;;
      self <- visitor.visit pf tree self ;;
      Ok (build_from_nodes [] (visitor.get_graph_nodes self))
  end.

Definition read_python_file (filepath : string) : option string :=
  read_text pf filepath.

(** [attr.get("data", attr)] of a node without ["data"] is the empty
    attribute dictionary, which has no name either. *)
Definition merge_graphs (master module_graph : DiGraph) : DiGraph :=
  let master :=
    fold_left (fun master ue => nx_add_node master (fst ue) (n_data (snd ue)))
      module_graph master in
  fold_left (fun master uvd => let '(u, v, rel) := uvd in nx_add_edge master u v rel)
    (nx_edges module_graph) master.

(** The body of [for filepath in root.rglob("*.py")]. *)
Definition process_file (root filepath : string) (master : DiGraph) : result DiGraph :=
  match read_python_file filepath with
  | None => Ok master
  | Some code =>
      module_graph <- build_from_code filepath code root ;;
      Ok (merge_graphs master module_graph)
  end.

Definition build_project_graph (project_path : string) : result DiGraph :=
  let root := Path_str pf project_path in
  master <- for_each (process_file root) (rglob_py pf root) [] ;;
  merge_nodes_by_reference master.
End Builder.

(* ================================================================== *)
(** * Component extraction ([code_indexer/indexer.py]) *)

Section Indexer.
Variable pf : Platform.

Definition extract_code_components (source_file code project_root : string)
  : result (list GraphNode) :=
  match ast_parse pf code with
  | None => Ok []
  | Some tree =>
      self <- visitor.init pf source_file code project_root ;;
      self <- visitor.visit pf tree self ;;
      Ok (visitor.get_graph_nodes self)
  end.
End Indexer.

(* ================================================================== *)
(** * A small platform for examples

    A file system with the project [/proj] holding [pkg/mod.py],
    [dummy.py] and the unparsable [bad.py], and the interpreter's library
    directory [/usr/lib/python3] holding [os.py]. *)

(** [relpath] for an absolute, normalised path below an absolute,
    normalised start directory. *)
Fixpoint strip_prefix (start path : string) : string :=
  match start, path with
  | EmptyString, String _ rest => rest
  | String _ s', String _ p' => strip_prefix s' p'
  | _, EmptyString => "."
  end.

(** The text of a decorated function and its syntax tree. *)
Definition decorated_code : string :=
  ("@deco" ++ String "010" "def f(): pass")%string.

Definition decorated_tree : ast :=
  Module [FunctionDef "f" [] [Other []] [Name "deco"] []].

Definition demo_sources : dict (option ast) :=
  [ ("from .utils import helper", Some (Module [ImportFrom (Some "utils") ["helper"] 1]));
    ("import os", Some (Module [Import ["os"]]));
    (decorated_code, Some decorated_tree);
    ("def (", None) ].

Definition demo_files : dict string :=
  [ ("/proj/pkg/mod.py", "from .utils import helper");
    ("/proj/dummy.py", "import os");
    ("/proj/bad.py", "def (") ].

Definition demo_platform : Platform :=
  mkPlatform
    (fun path start => strip_prefix start path)
    (fun path => path)
    ["/usr/lib/python3"]
    (fun path => String.eqb path "/usr/lib/python3/os.py")
    (fun path => false)
    (fun code => match dict_get code demo_sources with
                 | Some tree => tree
                 | None => Some (Module [])
                 end)
    (fun path => path)
    (fun root => if String.eqb root "/proj" then dict_keys demo_files else [])
    (fun path => dict_get path demo_files).

(** A project without unparsable files: [/proj] holds [pkg/mod.py] and
    [dummy.py], and [locked.py], which cannot be read. *)
Definition clean_platform : Platform :=
  mkPlatform
    (os_path_relpath demo_platform)
    (os_path_normpath demo_platform)
    (sys_path demo_platform)
    (os_path_isfile demo_platform)
    (os_path_isdir demo_platform)
    (ast_parse demo_platform)
    (Path_str demo_platform)
    (fun root => if String.eqb root "/proj"
                 then ["/proj/pkg/mod.py"; "/proj/locked.py"; "/proj/dummy.py"]
                 else [])
    (read_text demo_platform).

(** The graph of [test_merge_nodes_by_reference]: a definition and a
    placeholder both named [Test], and a caller with an edge to the
    placeholder. *)
Definition create_test_node (node_id name : string) (source_file : option string)
  : GraphNode :=
  mkGraphNode node_id name FUNCTION (mkMetadata source_file false) [].

Definition test_merge_graph : DiGraph :=
  let node1 := create_test_node "function:dummy.Test" "Test" (Some "dummy.py") in
  let node2 := create_test_node "function:dummy_alt.Test" "Test" None in
  let node3 := create_test_node "function:dummy.func" "func" (Some "dummy.py") in
  let g := CodeGraph_add_node (CodeGraph_add_node [] node1) node2 in
  let g := CodeGraph_add_node g node3 in
  CodeGraph_add_edge g (id node3)
    (mkGraphEdge CALLS (id node3) (id node2) FUNCTION FUNCTION).

(** The graph of [test_merge_graph] with an edge from the placeholder
    [function:dummy_alt.Test] to the definition [function:dummy.Test]. *)
Definition inner_edge_graph : DiGraph :=
  nx_add_edge test_merge_graph "function:dummy_alt.Test" "function:dummy.Test" "calls".

(* ================================================================== *)
(** * Vocabulary of the statements *)

(** The entry [(package, node_id)] is stored under the package path that
    [lookup_node] derives from the id, as [update_reference_table] stores
    the entries of ids with a colon. *)
Definition stored_under_own_package (package node_id : string) : Prop :=
  exists kind full,
    str_split1 colon node_id = [kind; full] /\
    hd "" (str_rsplit1 dot full) = package.

(** Every entry of the reference table is stored under the package path
    of its id. *)
Definition table_well_keyed (self : CodeVisitor) : Prop :=
  forall (nm package node_id : string),
    match dict_get nm (reference_table self) with
    | Some candidates => dict_get package candidates
    | None => None
    end = Some node_id ->
    package_of_id node_id = package.

(** [self.reference_table[name][package]], when present. *)
Definition stored_id (self : CodeVisitor) (name package : string) : option string :=
  match dict_get name (reference_table self) with
  | Some candidates => dict_get package candidates
  | None => None
  end.

(** The node recorded under an id carries a source file. *)
Definition recorded_with_source (self : CodeVisitor) (node_id : string) : bool :=
  truthy node_id &&
  match dict_get node_id (graph_nodes self) with
  | Some node => has_source_file node
  | None => false
  end.

(** The [Imports] edge from the current module to [target]. *)
Definition imports_edge (self : CodeVisitor) (target : string) : GraphEdge :=
  mkGraphEdge IMPORTS (module_id self) target MODULE MODULE.

(** The targets of the edges of the module node after the visitor is
    constructed for [source_file] and has visited [tree]. *)
Definition module_edge_targets (pf : Platform) (source_file code project_root : string)
  (tree : ast) : result (list string) :=
  self <- visitor.init pf source_file code project_root ;;
  self <- visitor.visit pf tree self ;;
  match dict_get (module_id self) (graph_nodes self) with
  | Some module_node => Ok (map target_node_id (relationships module_node))
  | None => Raise KeyError
  end.

(** Every node's relationships hold only edges that start at the node. *)
Definition owns_edges (self : CodeVisitor) : Prop :=
  forall (k : string) (n : GraphNode) (e : GraphEdge),
    dict_get k (graph_nodes self) = Some n ->
    In e (relationships n) -> source_node_id e = k.

(** A step of the visitor that keeps the ownership of edges. *)
Definition keeps_ownership (step : CodeVisitor -> result CodeVisitor) : Prop :=
  forall self self', owns_edges self -> step self = Ok self' -> owns_edges self'.

(** The decorator is one for which [handle_decorators] makes an edge. *)
Definition is_named_decorator (decorator : ast) : bool :=
  match decorator with
  | Name _ => true
  | Attribute _ _ => true
  | _ => false
  end.

(** No class or function of the tree has a decorator that is a name or an
    attribute. *)
Fixpoint undecorated (node : ast) : bool :=
  match node with
  | Module body => forallb undecorated body
  | Import _ => true
  | ImportFrom _ _ _ => true
  | ClassDef _ bases keywords body decorator_list =>
      forallb (fun d => negb (is_named_decorator d)) decorator_list
      && forallb undecorated bases && forallb undecorated keywords
      && forallb undecorated body && forallb undecorated decorator_list
  | FunctionDef _ args body decorator_list returns =>
      forallb (fun d => negb (is_named_decorator d)) decorator_list
      && forallb undecorated args && forallb undecorated body
      && forallb undecorated decorator_list && forallb undecorated returns
  | Call func args keywords =>
      undecorated func && forallb undecorated args && forallb undecorated keywords
  | Name _ => true
  | Attribute value _ => undecorated value
  | Other children => forallb undecorated children
  end.

(** The entry has the truthy simple name [nm]. *)
Definition is_named (nm : string) (ue : string * nx_entry) : bool :=
  match attr_name (snd ue) with
  | Some x => truthy x && String.eqb x nm
  | None => false
  end.

(** The ids of the nodes named [nm], in node order. *)
Definition named (nm : string) (g : DiGraph) : list string :=
  dict_keys (filter (is_named nm) g).

(** No two nodes with data share a truthy simple name. *)
Definition names_unique (g : DiGraph) : Prop :=
  forall (a b : string) (da db : GraphNode),
    node_data g a = Some da -> node_data g b = Some db ->
    truthy (name da) = true -> name da = name db -> a = b.

(** Every named node has a composite id ["<kind>:<path>"]. *)
Definition ids_well_formed (g : DiGraph) : Prop :=
  forall (a : string) (d : GraphNode),
    node_data g a = Some d -> truthy (name d) = true ->
    str_partition colon a <> None.

(** The only two distinct nodes that share a simple name are [A] and [B]. *)
Definition only_shared_pair (g : DiGraph) (A B : string) : Prop :=
  forall (x y : string) (dx dy : GraphNode),
    node_data g x = Some dx -> node_data g y = Some dy ->
    truthy (name dx) = true -> name dx = name dy -> x <> y ->
    (x = A /\ y = B) \/ (x = B /\ y = A).

(** Every edge of the graph ends at a node of the graph. *)
Definition edges_closed (g : DiGraph) : Prop :=
  forall u v : string, nx_has_edge g u v = true -> nx_has_node g v = true.

(** The id has the form ["<kind>:<path>"]. *)
Definition has_colon (s : string) : Prop := str_partition colon s <> None.

(** The node types the visitor makes nodes of. *)
Definition visited_type (t : NodeType) : bool :=
  match t with
  | MODULE | CLASS | FUNCTION => true
  | PACKAGE | VARIABLE => false
  end.

(** The state of a visitor that its methods keep up: the nodes are stored
    under their own ids, all ids in the tables are composite, and the
    module and every open scope are stored nodes. *)
Definition visitor_ok (self : CodeVisitor) : Prop :=
  NoDup (dict_keys (graph_nodes self))
  /\ (forall (k : string) (n : GraphNode),
        dict_get k (graph_nodes self) = Some n ->
        id n = k /\ has_colon k /\ visited_type (node_type n) = true)
  /\ (forall p : string,
        In p (current_parent_ids self) -> dict_mem p (graph_nodes self) = true)
  /\ dict_mem (module_id self) (graph_nodes self) = true
  /\ (forall (nm : string) (candidates : dict string) (package node_id : string),
        dict_get nm (reference_table self) = Some candidates ->
        In (package, node_id) candidates -> has_colon node_id)
  /\ (forall m cached : string,
        dict_get m (imported_module_cache self) = Some cached -> has_colon cached).

(** The later state is in the same scope of the same module and has every
    node of the earlier state. *)
Definition extends (self self' : CodeVisitor) : Prop :=
  current_parent_ids self' = current_parent_ids self
  /\ module_id self' = module_id self
  /\ cv_source_file self' = cv_source_file self
  /\ project_root self' = project_root self
  /\ (forall k : string,
        dict_mem k (graph_nodes self) = true -> dict_mem k (graph_nodes self') = true).

(** A step of the visitor that raises none of the modelled exceptions
    from a good state, and ends in a good state that extends it. *)
Definition runs_ok (step : CodeVisitor -> result CodeVisitor) : Prop :=
  forall self : CodeVisitor,
    visitor_ok self ->
    exists self', step self = Ok self' /\ visitor_ok self' /\ extends self self'.

(** The graph has unique node ids, its edges end at its nodes, and its
    nodes with data are stored under their own composite ids. *)
Definition graph_ok (g : DiGraph) : Prop :=
  NoDup (dict_keys g)
  /\ edges_closed g
  /\ (forall (x : string) (d : GraphNode),
        node_data g x = Some d -> id d = x /\ has_colon x).

(** The file can be read. *)
Definition readable (pf : Platform) (filepath : string) : bool :=
  match read_python_file pf filepath with
  | Some _ => true
  | None => false
  end.

(** The best candidate found so far by the loop of [lookup_node], after
    the candidates [seen]. *)
Definition best_so_far (self : CodeVisitor) (seen : dict string)
  (st : option string * Z) : Prop :=
  (forall (q j : string), In (q, j) seen -> (candidate_score self j <= snd st)%Z)
  /\ match fst st with
     | None => seen = [] /\ (snd st < 0)%Z
     | Some i => snd st = candidate_score self i /\ exists p, In (p, i) seen
     end.

(** A syntax tree without definitions and imports: names, attributes,
    calls, and the nodes for which the visitor has no method. *)
Fixpoint defines_nothing (node : ast) : bool :=
  match node with
  | Name _ => true
  | Attribute value _ => defines_nothing value
  | Call func args keywords =>
      defines_nothing func && forallb defines_nothing args
      && forallb defines_nothing keywords
  | Other children => forallb defines_nothing children
  | _ => false
  end.

(** The later state has the open scopes of the earlier one and the same
    node under the id [c]. *)
Definition keeps_node (c : string) (self self' : CodeVisitor) : Prop :=
  current_parent_ids self' = current_parent_ids self
  /\ dict_get c (graph_nodes self') = dict_get c (graph_nodes self).

(** The module file and the package file that [find_package_source] tries
    in one directory of the search path. *)
Definition module_file (dir module_name : string) : string :=
  (os_path_join dir (str_split dot module_name) ++ ".py")%string.

Definition package_file (dir module_name : string) : string :=
  os_path_join (os_path_join dir (str_split dot module_name)) ["__init__.py"].

(** The source file that [find_package_source] finds in one directory. *)
Definition found_in (pf : Platform) (dir module_name : string) : option string :=
  if os_path_isfile pf (module_file dir module_name)
  then Some (module_file dir module_name)
  else if os_path_isdir pf (os_path_join dir (str_split dot module_name))
          && os_path_isfile pf (package_file dir module_name)
       then Some (package_file dir module_name)
       else None.

Unset Implicit Arguments.

(* ================================================================== *)
(** * Properties of the entity model *)

Ltac find_disjunct := repeat (first [left; reflexivity | right]).

Ltac refute_disjuncts H :=
  repeat (destruct H as [H | H]; [discriminate H |]); exact H.

(** C1. Constructing a [GraphEdge] succeeds, with the fields as given,
    exactly for the (edge type, source type, target type) triples of the
    [VALID_EDGES] allow-list, and raises for every other triple; an
    [INHERITS] edge is constructible only from [CLASS] to [CLASS]. *)
Theorem GraphEdge_constructible_iff_allowed :
  forall (et : EdgeType) (sid tid : string) (st tt : NodeType),
    ((In (et, st, tt) allowed_triples /\
      new_GraphEdge et sid tid st tt = Ok (mkGraphEdge et sid tid st tt))
     \/
     (~ In (et, st, tt) allowed_triples /\
      new_GraphEdge et sid tid st tt = Raise ValueError))
    /\
    ((exists e, new_GraphEdge INHERITS sid tid st tt = Ok e)
     <-> (st = CLASS /\ tt = CLASS)).
Proof.
  intros et sid tid st tt. split.
  - destruct et, st, tt;
      first [ left; split; [ cbv [allowed_triples VALID_EDGES flat_map map app fst snd In];
                             find_disjunct
                           | reflexivity ]
            | right; split; [ cbv [allowed_triples VALID_EDGES flat_map map app fst snd In];
                              intro H; refute_disjuncts H
                            | reflexivity ] ].
  - split.
    + intros [e He]. destruct st, tt; try discriminate He; split; reflexivity.
    + intros [-> ->]. eexists. reflexivity.
Qed.

(* ================================================================== *)
(** * Dictionary facts *)

Lemma dict_get_set_same :
  forall (V : Type) (k : string) (v : V) (d : dict V),
    dict_get k (dict_set k v d) = Some v.
Proof.
  intros V k v d. induction d as [| [k' v'] rest IH]; simpl.
  - rewrite String.eqb_refl. reflexivity.
  - destruct (String.eqb k k') eqn:E; simpl; rewrite E; auto.
Qed.

Lemma dict_get_set_other :
  forall (V : Type) (k k' : string) (v : V) (d : dict V),
    k <> k' -> dict_get k' (dict_set k v d) = dict_get k' d.
Proof.
  intros V k k' v d Hne. induction d as [| [k0 v0] rest IH]; simpl.
  - destruct (String.eqb k' k) eqn:E; auto.
    apply String.eqb_eq in E. congruence.
  - destruct (String.eqb k k0) eqn:E; simpl.
    + apply String.eqb_eq in E. subst k0.
      destruct (String.eqb k' k) eqn:E'; auto.
      apply String.eqb_eq in E'. congruence.
    + rewrite IH. reflexivity.
Qed.

Lemma dict_get_app :
  forall (V : Type) (k : string) (d d' : dict V),
    dict_get k (d ++ d') =
    match dict_get k d with Some v => Some v | None => dict_get k d' end.
Proof.
  intros V k d d'. induction d as [| [k0 v0] rest IH]; simpl; auto.
  destruct (String.eqb k k0); auto.
Qed.

Lemma dict_mem_false :
  forall (V : Type) (k : string) (d : dict V),
    dict_mem k d = false -> dict_get k d = None.
Proof.
  intros V k d. unfold dict_mem. destruct (dict_get k d); [discriminate | reflexivity].
Qed.

Lemma dict_mem_true :
  forall (V : Type) (k : string) (d : dict V),
    dict_mem k d = true -> exists v, dict_get k d = Some v.
Proof.
  intros V k d. unfold dict_mem. destruct (dict_get k d) as [v |]; [eauto | discriminate].
Qed.

(* ================================================================== *)
(** * Loops *)

Lemma for_each_noop :
  forall (A S : Type) (body : A -> S -> result S) (l : list A) (s : S),
    (forall x, In x l -> body x s = Ok s) -> for_each body l s = Ok s.
Proof.
  intros A S body l s. induction l as [| y l IH]; intro H; cbn [for_each].
  - reflexivity.
  - rewrite (H y (or_introl eq_refl)). cbn [bind]. apply IH.
    intros x Hx. apply H. right. exact Hx.
Qed.

Lemma for_each_raises :
  forall (A S : Type) (body : A -> S -> result S) (l : list A) (x : A),
    In x l ->
    (forall s, exists e, body x s = Raise e) ->
    forall s, exists e, for_each body l s = Raise e.
Proof.
  intros A S body l x. induction l as [| y l IH]; intros Hin Hx s; [contradiction |].
  cbn [for_each]. destruct Hin as [-> | Hin].
  - destruct (Hx s) as [e He]. rewrite He. exists e. reflexivity.
  - destruct (body y s) as [s' | e]; cbn [bind]; [apply IH; assumption |].
    exists e. reflexivity.
Qed.

(** A loop in which every element but one is skipped. *)
Lemma for_each_only :
  forall (A S : Type) (body : A -> S -> result S) (l : list A) (x : A) (s : S),
    NoDup l -> In x l ->
    (forall y, In y l -> y <> x -> forall s', body y s' = Ok s') ->
    for_each body l s = body x s.
Proof.
  intros A S body l x s Hnd. revert s.
  induction l as [| y l IH]; intros s Hin Hskip; [contradiction |].
  apply NoDup_cons_iff in Hnd. destruct Hnd as [Hy Hnd].
  cbn [for_each]. destruct Hin as [-> | Hin].
  - destruct (body x s) as [s' | e]; cbn [bind]; [| reflexivity].
    apply for_each_noop. intros z Hz. apply Hskip; [right; exact Hz |].
    intro E. subst z. contradiction.
  - rewrite (Hskip y (or_introl eq_refl)) by (intro E; subst y; contradiction).
    cbn [bind]. apply IH; [exact Hnd | exact Hin |].
    intros z Hz. apply Hskip. right. exact Hz.
Qed.

Lemma for_each_preserves :
  forall (A S : Type) (Inv : S -> Prop) (body : A -> S -> result S) (l : list A),
    Forall (fun x => forall s s', Inv s -> body x s = Ok s' -> Inv s') l ->
    forall s s', Inv s -> for_each body l s = Ok s' -> Inv s'.
Proof.
  intros A S Inv body l H. induction H as [| x l Hx _ IH]; intros s s' Hs; cbn [for_each].
  - intro E. inversion E. subst s'. exact Hs.
  - destruct (body x s) as [s1 |] eqn:E1; cbn [bind]; [| discriminate].
    apply IH. exact (Hx s s1 Hs E1).
Qed.

(* ================================================================== *)
(** * Order of strings *)

Lemma ltb_false_leb :
  forall a b : string, String.ltb a b = false -> String.leb b a = true.
Proof.
  intros a b. unfold String.ltb, String.leb.
  rewrite (String.compare_antisym b a).
  destruct (String.compare a b); simpl; congruence.
Qed.

Lemma ltb_true_leb :
  forall a b : string, String.ltb a b = true -> String.leb a b = true.
Proof.
  intros a b. unfold String.ltb, String.leb.
  destruct (String.compare a b); simpl; congruence.
Qed.

Lemma leb_refl : forall a : string, String.leb a a = true.
Proof.
  intros a. destruct (String.leb_total a a); assumption.
Qed.

(* ================================================================== *)
(** * Lookup in the reference table *)

(** C4. With exactly two candidates for a name, in either insertion
    order, [lookup_node] returns the one whose node carries a source file
    when the other does not; when both score the same it returns the
    candidate with the smaller package path. *)
Theorem lookup_node_two_candidates :
  forall (self : CodeVisitor) (simple_name pa ia pb ib : string) (na nb : GraphNode),
    dict_get simple_name (reference_table self) = Some [(pa, ia); (pb, ib)] ->
    dict_get ia (graph_nodes self) = Some na ->
    dict_get ib (graph_nodes self) = Some nb ->
    (has_source_file na = true -> has_source_file nb = false ->
     lookup_node simple_name self = Ok (Some ia))
    /\
    (has_source_file na = false -> has_source_file nb = true ->
     lookup_node simple_name self = Ok (Some ib))
    /\
    (has_source_file na = has_source_file nb ->
     stored_under_own_package pa ia ->
     exists p i,
       lookup_node simple_name self = Ok (Some i) /\
       ((p, i) = (pa, ia) \/ (p, i) = (pb, ib)) /\
       String.leb p pa = true /\ String.leb p pb = true).
Proof.
  intros self simple_name pa ia pb ib na nb Htab Ha Hb.
  unfold lookup_node. rewrite Htab.
  cbn [for_each]. unfold lookup_step, candidate_score. rewrite Ha, Hb.
  repeat split.
  - intros Sa Sb. rewrite Sa, Sb. reflexivity.
  - intros Sa Sb. rewrite Sa, Sb. reflexivity.
  - intros Heq (kind & full & Hsplit & Hpkg). rewrite <- Heq.
    destruct (has_source_file na); simpl; rewrite Hsplit, Hpkg;
      destruct (String.ltb pb pa) eqn:E; simpl.
    all: first [ solve [exists pb, ib; repeat split; auto using leb_refl, ltb_true_leb]
               | solve [exists pa, ia; repeat split; auto using leb_refl, ltb_false_leb] ].
Qed.

(** A table with the definition inserted after the placeholder. *)
Lemma lookup_node_two_candidates_witness :
  let placeholder := mkGraphNode "function:b.f" "f" FUNCTION (mkMetadata None false) [] in
  let definition :=
    mkGraphNode "function:a.f" "f" FUNCTION (mkMetadata (Some "a.py") false) [] in
  let self :=
    mkCodeVisitor "a.py" "/proj"
      [("function:b.f", placeholder); ("function:a.f", definition)] []
      [("f", [("b", "function:b.f"); ("a", "function:a.f")])] [] "module:a.a" in
  lookup_node "f" self = Ok (Some "function:a.f").
Proof.
  intros placeholder definition self.
  apply (proj1 (proj2
    (@lookup_node_two_candidates self "f" "b" "function:b.f" "a" "function:a.f"
       placeholder definition eq_refl eq_refl eq_refl))); reflexivity.
Defined.

(* ================================================================== *)
(** * Updates of the reference table *)

Lemma truthy_neq : forall s : string, s <> "" -> truthy s = true.
Proof.
  intros s Hs. unfold truthy. destruct (String.eqb s "") eqn:E; auto.
  apply String.eqb_eq in E. contradiction.
Qed.

Lemma stored_id_set :
  forall (self : CodeVisitor) (table : dict (dict string)) (candidates : dict string)
         (nm pkg node_id qn qp : string),
    dict_get nm table = Some candidates ->
    stored_id (set_reference_table
                 (dict_set nm (dict_set pkg node_id candidates) table) self) qn qp =
    if String.eqb qn nm && String.eqb qp pkg then Some node_id
    else match dict_get qn table with
         | Some c => dict_get qp c
         | None => None
         end.
Proof.
  intros self table candidates nm pkg node_id qn qp Hc.
  unfold stored_id. cbn [reference_table set_reference_table].
  destruct (String.eqb qn nm) eqn:En.
  - apply String.eqb_eq in En. subst qn. rewrite dict_get_set_same, Hc.
    destruct (String.eqb qp pkg) eqn:Ep; cbn [andb].
    + apply String.eqb_eq in Ep. subst qp. apply dict_get_set_same.
    + apply dict_get_set_other. intro. subst qp. rewrite String.eqb_refl in Ep.
      discriminate.
  - cbn [andb]. rewrite dict_get_set_other; auto.
    intro. subst qn. rewrite String.eqb_refl in En. discriminate.
Qed.

(** The table after the [if node.name not in self.reference_table] step. *)
Lemma table_with_name :
  forall (table : dict (dict string)) (nm qn : string),
    let table' := if negb (dict_mem nm table) then table ++ [(nm, [])] else table in
    (exists c, dict_get nm table' = Some c /\
               (dict_get nm table = Some c \/ (dict_get nm table = None /\ c = []))) /\
    (match dict_get qn table' with Some c => Some c | None => None end
     = match dict_get qn table with
       | Some c => Some c
       | None => if String.eqb qn nm then Some [] else None
       end).
Proof.
  intros table nm qn. cbv zeta. unfold dict_mem.
  destruct (dict_get nm table) as [c |] eqn:E; cbn [negb].
  - split; [exists c; auto |].
    destruct (dict_get qn table) eqn:Eq; auto.
    destruct (String.eqb qn nm) eqn:En; auto.
    apply String.eqb_eq in En. congruence.
  - split.
    + exists []. rewrite dict_get_app, E. cbn. rewrite String.eqb_refl. auto.
    + rewrite dict_get_app. destruct (dict_get qn table); auto. cbn.
      destruct (String.eqb qn nm); auto.
Qed.

(** What [visitor.py] stores: the new id, unless the recorded node
    carries a source file. *)
Lemma visitor_update_stored :
  forall (node : GraphNode) (self : CodeVisitor) (qn qp : string),
    stored_id (visitor.update_reference_table node self) qn qp =
    if String.eqb qn (name node) && String.eqb qp (package_of_id (id node))
    then match stored_id self qn qp with
         | Some existing => if recorded_with_source self existing then Some existing
                            else Some (id node)
         | None => Some (id node)
         end
    else stored_id self qn qp.
Proof.
  intros node self qn qp. unfold visitor.update_reference_table.
  pose proof (table_with_name (reference_table self) (name node) qn) as [Hc Hq].
  cbv zeta in Hc, Hq.
  set (table' := if negb (dict_mem (name node) (reference_table self))
                 then reference_table self ++ [(name node, [])]
                 else reference_table self) in *.
  destruct Hc as (c & Hc & Hold). rewrite Hc.
  assert (Hstored : forall p, dict_get p c
                              = stored_id self (name node) p).
  { intro p. unfold stored_id. destruct Hold as [-> | [-> ->]]; reflexivity. }
  assert (Hother : match dict_get qn table' with
                   | Some c0 => dict_get qp c0
                   | None => None
                   end = stored_id self qn qp).
  { unfold stored_id. destruct (dict_get qn table') as [c0 |] eqn:E0;
      destruct (dict_get qn (reference_table self)) as [c1 |] eqn:E1;
      try congruence;
      destruct (String.eqb qn (name node));
      first [discriminate Hq | inversion Hq; reflexivity]. }
  match goal with
  | |- context [if ?k then _ else _] =>
      match k with
      | match dict_get _ c with _ => _ end => destruct k eqn:Ek
      end
  end.
  - (* kept *)
    unfold stored_id at 1. cbn [reference_table set_reference_table].
    rewrite Hother.
    destruct (String.eqb qn (name node) && String.eqb qp (package_of_id (id node)))
      eqn:Eb; auto.
    apply andb_true_iff in Eb. destruct Eb as [E1 E2].
    apply String.eqb_eq in E1, E2. subst qn qp.
    rewrite Hstored in Ek. destruct (stored_id self (name node) _) as [e |]; try discriminate.
    unfold recorded_with_source. rewrite Ek. reflexivity.
  - rewrite stored_id_set with (1 := Hc). rewrite Hother.
    destruct (String.eqb qn (name node) && String.eqb qp (package_of_id (id node)))
      eqn:Eb; auto.
    apply andb_true_iff in Eb. destruct Eb as [E1 E2].
    apply String.eqb_eq in E1, E2. subst qn qp.
    rewrite Hstored in Ek. destruct (stored_id self (name node) _) as [e |]; auto.
    unfold recorded_with_source. rewrite Ek. reflexivity.
Qed.

(** What [code_visitor.py] stores: the new id only over a recorded node
    without a source file, and only when the new node carries one. *)
Lemma code_visitor_update_stored :
  forall (node : GraphNode) (self : CodeVisitor) (qn qp : string),
    stored_id (code_visitor.update_reference_table node self) qn qp =
    if String.eqb qn (name node) && String.eqb qp (package_of_id (id node))
    then match stored_id self qn qp with
         | Some existing =>
             if truthy existing
             then if negb (recorded_with_source self existing) && has_source_file node
                  then Some (id node) else Some existing
             else Some (id node)
         | None => Some (id node)
         end
    else stored_id self qn qp.
Proof.
  intros node self qn qp. unfold code_visitor.update_reference_table.
  pose proof (table_with_name (reference_table self) (name node) qn) as [Hc Hq].
  cbv zeta in Hc, Hq.
  set (table' := if negb (dict_mem (name node) (reference_table self))
                 then reference_table self ++ [(name node, [])]
                 else reference_table self) in *.
  destruct Hc as (c & Hc & Hold). rewrite Hc.
  assert (Hstored : forall p, dict_get p c = stored_id self (name node) p).
  { intro p. unfold stored_id. destruct Hold as [-> | [-> ->]]; reflexivity. }
  assert (Hother : match dict_get qn table' with
                   | Some c0 => dict_get qp c0
                   | None => None
                   end = stored_id self qn qp).
  { unfold stored_id. destruct (dict_get qn table') as [c0 |] eqn:E0;
      destruct (dict_get qn (reference_table self)) as [c1 |] eqn:E1;
      try congruence;
      destruct (String.eqb qn (name node));
      first [discriminate Hq | inversion Hq; reflexivity]. }
  assert (Hkept : stored_id (set_reference_table table' self) qn qp
                  = stored_id self qn qp).
  { unfold stored_id at 1. cbn [reference_table set_reference_table]. exact Hother. }
  pose proof (@stored_id_set self table' c (name node) (package_of_id (id node))
                (id node) qn qp Hc) as Hset.
  rewrite Hother in Hset.
  rewrite Hstored.
  destruct (String.eqb qn (name node) && String.eqb qp (package_of_id (id node)))
    eqn:Eb.
  - apply andb_true_iff in Eb. destruct Eb as [E1 E2].
    apply String.eqb_eq in E1, E2. subst qn qp.
    destruct (stored_id self (name node) (package_of_id (id node))) as [e |] eqn:Es;
      [| exact Hset].
    unfold recorded_with_source.
    destruct (truthy e); cbn [andb]; [| exact Hset].
    destruct (dict_get e (graph_nodes self)) as [n |]; cbn [negb andb].
    + destruct (negb (has_source_file n) && has_source_file node);
        [exact Hset | exact Hkept].
    + destruct (has_source_file node); [exact Hset | exact Hkept].
  - destruct (stored_id self (name node) (package_of_id (id node))) as [e |];
      [| exact Hset].
    destruct (truthy e); [| exact Hset].
    match goal with
    | |- context [if ?b then _ else _] => destruct b
    end; [exact Hset | exact Hkept].
Qed.

Lemma visitor_update_nodes :
  forall (node : GraphNode) (self : CodeVisitor),
    graph_nodes (visitor.update_reference_table node self) = graph_nodes self.
Proof.
  intros node self. unfold visitor.update_reference_table.
  match goal with |- context [if ?b then _ else _] =>
    match b with match _ with _ => _ end => destruct b end end; reflexivity.
Qed.

Lemma code_visitor_update_nodes :
  forall (node : GraphNode) (self : CodeVisitor),
    graph_nodes (code_visitor.update_reference_table node self) = graph_nodes self.
Proof.
  intros node self. unfold code_visitor.update_reference_table.
  repeat match goal with
         | |- context [match ?x with _ => _ end] => destruct x
         end; reflexivity.
Qed.

(** [update_reference_table] stores every id under its own package path,
    which is the key [lookup_node] compares with. *)
Lemma visitor_update_well_keyed :
  forall (node : GraphNode) (self : CodeVisitor),
    table_well_keyed self ->
    table_well_keyed (visitor.update_reference_table node self).
Proof.
  intros node self Hwk nm package node_id.
  change (stored_id (visitor.update_reference_table node self) nm package
          = Some node_id -> package_of_id node_id = package).
  rewrite visitor_update_stored.
  destruct (String.eqb_spec nm (name node)) as [-> | _]; cbn [andb];
    [| apply (Hwk nm package node_id)].
  destruct (String.eqb_spec package (package_of_id (id node))) as [-> | _];
    [| apply (Hwk (name node) package node_id)].
  destruct (stored_id self (name node) (package_of_id (id node))) as [existing |] eqn:E.
  - destruct (recorded_with_source self existing); intro H; inversion H; subst.
    + apply (Hwk (name node) _ node_id). exact E.
    + reflexivity.
  - intro H. inversion H. reflexivity.
Qed.

Lemma well_keyed_stored_under :
  forall (package node_id : string),
    str_partition colon node_id <> None ->
    package_of_id node_id = package ->
    stored_under_own_package package node_id.
Proof.
  intros package node_id Hc Hp. unfold stored_under_own_package.
  unfold package_of_id, str_split1 in *.
  destruct (str_partition colon node_id) as [[kind full] |]; [| contradiction].
  exists kind, full. split; [reflexivity | exact Hp].
Qed.

Section NeverDowngraded.
Variable update : GraphNode -> CodeVisitor -> CodeVisitor.
Hypothesis update_nodes :
  forall node self, graph_nodes (update node self) = graph_nodes self.
Hypothesis update_keeps :
  forall node self qn qp existing,
    stored_id self qn qp = Some existing ->
    recorded_with_source self existing = true ->
    stored_id (update node self) qn qp = Some existing.

Lemma updates_keep_definition :
  forall (later : list GraphNode) (self : CodeVisitor) (qn qp existing : string),
    stored_id self qn qp = Some existing ->
    recorded_with_source self existing = true ->
    stored_id (fold_left (fun self node => update node self) later self) qn qp
    = Some existing.
Proof.
  induction later as [| node later IH]; intros self qn qp existing Hs Hr; cbn [fold_left].
  - exact Hs.
  - apply IH.
    + apply update_keeps; assumption.
    + unfold recorded_with_source in *. rewrite update_nodes. exact Hr.
Qed.
End NeverDowngraded.

Lemma visitor_update_keeps :
  forall node self qn qp existing,
    stored_id self qn qp = Some existing ->
    recorded_with_source self existing = true ->
    stored_id (visitor.update_reference_table node self) qn qp = Some existing.
Proof.
  intros node self qn qp existing Hs Hr. rewrite visitor_update_stored, Hs, Hr.
  destruct (_ && _); reflexivity.
Qed.

Lemma code_visitor_update_keeps :
  forall node self qn qp existing,
    stored_id self qn qp = Some existing ->
    recorded_with_source self existing = true ->
    stored_id (code_visitor.update_reference_table node self) qn qp = Some existing.
Proof.
  intros node self qn qp existing Hs Hr. rewrite code_visitor_update_stored, Hs, Hr.
  cbn [negb andb]. destruct (_ && _); destruct (truthy existing) eqn:Et; try reflexivity.
  unfold recorded_with_source in Hr. rewrite Et in Hr. discriminate.
Qed.

(** C5, as the code has it.  For an existing entry of a (name, package)
    pair: [visitor.py] replaces the stored id exactly when the recorded
    node carries no source file, whatever the new node carries;
    [code_visitor.py] replaces it exactly when the recorded node carries
    no source file and the new node carries one.  In both, an id whose
    node carries a source file survives every later update. *)
Theorem update_reference_table_replacement :
  forall (node : GraphNode) (self : CodeVisitor) (existing : string),
    stored_id self (name node) (package_of_id (id node)) = Some existing ->
    existing <> "" ->
    stored_id (visitor.update_reference_table node self)
      (name node) (package_of_id (id node))
    = Some (if recorded_with_source self existing then existing else id node)
    /\
    stored_id (code_visitor.update_reference_table node self)
      (name node) (package_of_id (id node))
    = Some (if negb (recorded_with_source self existing) && has_source_file node
            then id node else existing)
    /\
    (recorded_with_source self existing = true ->
     forall later : list GraphNode,
       stored_id (fold_left (fun self n => visitor.update_reference_table n self)
                    later self)
         (name node) (package_of_id (id node)) = Some existing
       /\
       stored_id (fold_left (fun self n => code_visitor.update_reference_table n self)
                    later self)
         (name node) (package_of_id (id node)) = Some existing).
Proof.
  intros node self existing Hs Hne. repeat split.
  - rewrite visitor_update_stored, Hs, !String.eqb_refl. cbn [andb].
    destruct (recorded_with_source self existing); reflexivity.
  - rewrite code_visitor_update_stored, Hs, !String.eqb_refl. cbn [andb].
    rewrite (truthy_neq _ Hne).
    destruct (negb (recorded_with_source self existing) && has_source_file node);
      reflexivity.
  - apply updates_keep_definition;
      auto using visitor_update_nodes, visitor_update_keeps.
  - apply updates_keep_definition;
      auto using code_visitor_update_nodes, code_visitor_update_keeps.
Qed.

(** A placeholder recorded for [("f", "dummy")], then a second placeholder
    and, separately, a definition after a definition. *)
Lemma update_reference_table_replacement_witness :
  let first := mkGraphNode "function:dummy.a" "f" FUNCTION (mkMetadata None false) [] in
  let second := mkGraphNode "function:dummy.b" "f" FUNCTION (mkMetadata None false) [] in
  let self :=
    mkCodeVisitor "dummy.py" "/proj" [("function:dummy.a", first)] []
      [("f", [("dummy", "function:dummy.a")])] [] "module:dummy.dummy" in
  stored_id (visitor.update_reference_table second self) "f" "dummy"
  = Some "function:dummy.b"
  /\ stored_id (code_visitor.update_reference_table second self) "f" "dummy"
     = Some "function:dummy.a".
Proof.
  intros first second self.
  assert (Hne : "function:dummy.a" <> "") by discriminate.
  destruct (@update_reference_table_replacement second self "function:dummy.a"
              eq_refl Hne) as (Hv & Hc & _).
  split; [exact Hv | exact Hc].
Defined.

(** C5 as stated fails in [visitor.py]: a placeholder without a source
    file replaces a recorded placeholder. *)
Lemma update_reference_table_replaces_placeholder :
  let first := mkGraphNode "function:dummy.a" "f" FUNCTION (mkMetadata None false) [] in
  let second := mkGraphNode "function:dummy.b" "f" FUNCTION (mkMetadata None false) [] in
  let self :=
    mkCodeVisitor "dummy.py" "/proj" [("function:dummy.a", first)] []
      [("f", [("dummy", "function:dummy.a")])] [] "module:dummy.dummy" in
  stored_id self (name second) (package_of_id (id second)) = Some "function:dummy.a"
  /\ has_source_file second = false
  /\ stored_id (visitor.update_reference_table second self)
       (name second) (package_of_id (id second)) = Some "function:dummy.b".
Proof.
  cbv zeta. repeat split.
Qed.

(* ================================================================== *)
(** * String facts *)

Lemma append_assoc :
  forall a b c : string, ((a ++ b) ++ c)%string = (a ++ b ++ c)%string.
Proof.
  induction a as [| x a IH]; intros b c; simpl; [| rewrite IH]; reflexivity.
Qed.

Lemma append_empty_r : forall a : string, (a ++ "")%string = a.
Proof.
  induction a as [| x a IH]; simpl; [| rewrite IH]; reflexivity.
Qed.

Lemma str_split_nonempty : forall (c : ascii) (s : string), str_split c s <> [].
Proof.
  intros c s. destruct s as [| a s]; simpl; [discriminate |].
  destruct (Ascii.eqb a c); [discriminate |].
  destruct (str_split c s); discriminate.
Qed.

Lemma str_split_single :
  forall (c : ascii) (s : string), str_partition c s = None -> str_split c s = [s].
Proof.
  intros c. induction s as [| a s IH]; simpl; intro H; [reflexivity |].
  destruct (Ascii.eqb a c); [discriminate |].
  destruct (str_partition c s) as [[h t] |]; [discriminate |].
  rewrite IH; reflexivity.
Qed.

(** Splitting a dotted path whose last segment has no separator. *)
Lemma str_split_snoc :
  forall (c : ascii) (p n : string),
    str_partition c n = None ->
    str_split c (p ++ String c n) = str_split c p ++ [n].
Proof.
  intros c p n Hn. induction p as [| a p IH]; simpl.
  - rewrite Ascii.eqb_refl, (str_split_single _ _ Hn). reflexivity.
  - destruct (Ascii.eqb a c).
    + rewrite IH. reflexivity.
    + rewrite IH. destruct (str_split c p) as [| h t] eqn:E.
      * exfalso. exact (str_split_nonempty _ _ E).
      * reflexivity.
Qed.

Lemma str_join_cons_char :
  forall (sep : string) (a : ascii) (h : string) (t : list string),
    str_join sep (String a h :: t) = String a (str_join sep (h :: t)).
Proof.
  intros sep a h t. destruct t; reflexivity.
Qed.

(** Joining the segments of a split gives the string back. *)
Lemma str_join_split :
  forall (c : ascii) (s : string), str_join (String c "") (str_split c s) = s.
Proof.
  intros c. induction s as [| a s IH]; simpl; [reflexivity |].
  destruct (Ascii.eqb a c) eqn:E.
  - apply Ascii.eqb_eq in E. subst a.
    destruct (str_split c s) as [| h t] eqn:Es.
    + exfalso. exact (str_split_nonempty _ _ Es).
    + cbn [str_join] in *. rewrite IH. reflexivity.
  - destruct (str_split c s) as [| h t] eqn:Es.
    + exfalso. exact (str_split_nonempty _ _ Es).
    + rewrite str_join_cons_char, IH. reflexivity.
Qed.

Lemma str_join_snoc :
  forall (sep : string) (l : list string) (x : string),
    l <> [] -> str_join sep (l ++ [x]) = (str_join sep l ++ sep ++ x)%string.
Proof.
  intros sep l x. induction l as [| y l IH]; intro Hl; [contradiction |].
  destruct l as [| z l].
  - reflexivity.
  - change (str_join sep ((y :: z :: l) ++ [x]))
      with (y ++ sep ++ str_join sep ((z :: l) ++ [x]))%string.
    rewrite IH by discriminate.
    change (str_join sep (y :: z :: l)) with (y ++ sep ++ str_join sep (z :: l))%string.
    rewrite !append_assoc. reflexivity.
Qed.

Lemma drop_last_snoc :
  forall (A : Type) (l : list A) (x : A), drop_last 1 (l ++ [x]) = l.
Proof.
  intros A l x. unfold drop_last. rewrite length_app. cbn [List.length].
  replace (List.length l + 1 - 1) with (List.length l + 0) by lia.
  rewrite firstn_app_2. cbn [firstn]. apply app_nil_r.
Qed.

Lemma str_rpartition_snoc :
  forall (c : ascii) (p n : string),
    str_partition c n = None ->
    str_rpartition c (p ++ String c n) = Some (p, n).
Proof.
  intros c p n Hn.
  assert (Hr : str_rpartition c n = None).
  { clear p. induction n as [| a n IH]; simpl in *; [reflexivity |].
    destruct (Ascii.eqb a c); [discriminate |].
    destruct (str_partition c n) as [[h t] |]; [discriminate |].
    rewrite IH; reflexivity. }
  induction p as [| a p IH]; simpl.
  - rewrite Hr, Ascii.eqb_refl. reflexivity.
  - rewrite IH. reflexivity.
Qed.

Lemma endswith_append :
  forall p s : string, endswith s (p ++ s) = true.
Proof.
  induction p as [| a p IH]; intro s; simpl.
  - destruct s as [| b s]; cbn [endswith]; rewrite String.eqb_refl; reflexivity.
  - rewrite IH. apply orb_true_r.
Qed.

Lemma endswith_refl : forall s : string, endswith s s = true.
Proof.
  intro s. exact (endswith_append "" s).
Qed.

(* ================================================================== *)
(** * The module id *)

Lemma visitor_update_module_id :
  forall (node : GraphNode) (self : CodeVisitor),
    module_id (visitor.update_reference_table node self) = module_id self.
Proof.
  intros node self. unfold visitor.update_reference_table.
  match goal with |- context [if ?b then _ else _] =>
    match b with match _ with _ => _ end => destruct b end end; reflexivity.
Qed.

Lemma init_module_id :
  forall (pf : Platform) (source_file code project_root : string) (self : CodeVisitor),
    visitor.init pf source_file code project_root = Ok self ->
    module_id self = module_id_of pf source_file project_root.
Proof.
  intros pf source_file code project_root self. unfold visitor.init.
  destruct (negb (truthy project_root)); [discriminate |].
  destruct (ast_parse pf code); [| discriminate].
  intro H. inversion H. subst self. cbn [module_id set_current_parent_ids].
  apply visitor_update_module_id.
Qed.

(** C10. For a source file other than [__init__.py], the module id given
    by the constructor is [module:<P>.<name>] where the path-derived prefix
    [P] already ends in the file's stem [name]; so the name occurs twice.
    For a stem without a dot the package path read back from the id is
    [P], ending in the module's own name.  For a stem [a.b] with a dot
    (the file [a.b.py]) the package path read back is [<P>.a]: the id is
    cut at its last dot, which lies inside the stem. *)
Theorem module_id_repeats_simple_name :
  forall (pf : Platform) (source_file code project_root : string) (self : CodeVisitor),
    os_path_basename source_file <> "__init__.py" ->
    last (str_split slash
            (os_path_normpath pf (os_path_relpath pf source_file project_root))) ""
    = os_path_basename source_file ->
    visitor.init pf source_file code project_root = Ok self ->
    let name := splitext_root (os_path_basename source_file) in
    let P := compute_package_full_path pf source_file project_root in
    module_id self = ("module:" ++ P ++ "." ++ name)%string
    /\ endswith name P = true
    /\ (P = name \/ exists Q, P = (Q ++ "." ++ name)%string)
    /\ (str_partition dot name = None ->
        package_of_id (module_id self) = P
        /\ endswith name (package_of_id (module_id self)) = true)
    /\ (forall a b : string,
          name = (a ++ "." ++ b)%string -> str_partition dot b = None ->
          package_of_id (module_id self) = (P ++ "." ++ a)%string).
Proof.
  intros pf source_file code project_root self Hbase Hlast Hinit name P.
  assert (Hid : module_id self = ("module:" ++ P ++ "." ++ name)%string).
  { rewrite (init_module_id _ _ _ _ _ Hinit). unfold module_id_of, simple_name_of.
    destruct (String.eqb_spec (os_path_basename source_file) "__init__.py");
      [contradiction | reflexivity]. }
  assert (HP : P = name \/ exists Q, P = (Q ++ "." ++ name)%string).
  { subst P. unfold compute_package_full_path. rewrite Hlast.
    destruct (String.eqb_spec (os_path_basename source_file) "__init__.py");
      [contradiction |].
    fold name.
    destruct (removelast
                (str_split slash
                   (os_path_normpath pf (os_path_relpath pf source_file project_root))))
      as [| d ds] eqn:E.
    - left. reflexivity.
    - right. exists (str_join "." (d :: ds)). apply str_join_snoc. discriminate. }
  assert (Hend : endswith name P = true).
  { destruct HP as [-> | [Q ->]].
    - apply endswith_refl.
    - rewrite <- append_assoc. apply endswith_append. }
  assert (Hpkg : forall Q b : string,
             str_partition dot b = None ->
             package_of_id ("module:" ++ Q ++ "." ++ b) = Q).
  { intros Q b Hb. unfold package_of_id. cbn.
    pose proof (str_rpartition_snoc dot Q b Hb) as Hr.
    unfold str_rsplit1, dot in *. rewrite Hr. reflexivity. }
  split; [exact Hid |]. split; [exact Hend |]. split; [exact HP |]. split.
  - intro Hn. rewrite Hid, (Hpkg P name Hn). split; [reflexivity | exact Hend].
  - intros a b Hab Hb. rewrite Hid, Hab.
    replace ("module:" ++ P ++ "." ++ a ++ "." ++ b)%string
      with ("module:" ++ (P ++ "." ++ a) ++ "." ++ b)%string.
    + apply Hpkg. exact Hb.
    + rewrite <- !append_assoc. reflexivity.
Qed.

(** The file [/proj/pkg/mod.py] gets the id [module:pkg.mod.mod]. *)
Lemma module_id_repeats_simple_name_witness :
  exists self,
    visitor.init demo_platform "/proj/pkg/mod.py" "from .utils import helper" "/proj"
    = Ok self
    /\ module_id self = "module:pkg.mod.mod"
    /\ package_of_id (module_id self) = "pkg.mod".
Proof.
  eexists. split; [reflexivity |].
  assert (Hbase : os_path_basename "/proj/pkg/mod.py" <> "__init__.py")
    by (vm_compute; discriminate).
  destruct (@module_id_repeats_simple_name demo_platform "/proj/pkg/mod.py"
              "from .utils import helper" "/proj" _ Hbase eq_refl eq_refl)
    as (Hid & _ & _ & Hpkg & _).
  split; [exact Hid | exact (proj1 (Hpkg eq_refl))].
Defined.

(** C10 as stated fails for a stem with a dot: the file [/proj/pkg/a.b.py]
    has the stem [a.b], the prefix [pkg.a.b] and the id
    [module:pkg.a.b.a.b]; the package path read back from the id is
    [pkg.a.b.a], which does not end in the module's name [a.b]. *)
Lemma module_id_dotted_stem :
  exists self,
    visitor.init demo_platform "/proj/pkg/a.b.py" "import os" "/proj" = Ok self
    /\ os_path_basename "/proj/pkg/a.b.py" <> "__init__.py"
    /\ last (str_split slash
               (os_path_normpath demo_platform
                  (os_path_relpath demo_platform "/proj/pkg/a.b.py" "/proj"))) ""
       = os_path_basename "/proj/pkg/a.b.py"
    /\ splitext_root (os_path_basename "/proj/pkg/a.b.py") = "a.b"
    /\ compute_package_full_path demo_platform "/proj/pkg/a.b.py" "/proj" = "pkg.a.b"
    /\ module_id self = "module:pkg.a.b.a.b"
    /\ package_of_id (module_id self) = "pkg.a.b.a"
    /\ endswith "a.b" (package_of_id (module_id self)) = false.
Proof.
  eexists. split; [reflexivity |]. split; [vm_compute; discriminate |].
  repeat split; reflexivity.
Qed.

(* ================================================================== *)
(** * Imports *)

(** The first import of a module name creates its node, with the source
    file that [find_package_source] finds, and appends the edge. *)
Lemma import_module_fresh :
  forall (pf : Platform) (self : CodeVisitor) (m : string) (module_node : GraphNode),
    dict_get (module_id self) (graph_nodes self) = Some module_node ->
    dict_get m (imported_module_cache self) = None ->
    dict_mem ("module:" ++ m) (graph_nodes self) = false ->
    exists self',
      visitor.import_module pf m self = Ok self'
      /\ module_id self' = module_id self
      /\ dict_get ("module:" ++ m) (graph_nodes self')
         = Some (mkGraphNode ("module:" ++ m) m MODULE
                   (mkMetadata (find_package_source pf m) false) [])
      /\ dict_get (module_id self) (graph_nodes self')
         = Some (append_relationship module_node
                   (imports_edge self ("module:" ++ m))).
Proof.
  intros pf self m module_node Hmod Hcache Hfresh.
  assert (Hne : ("module:" ++ m)%string <> module_id self).
  { intro E. rewrite <- E in Hmod. apply dict_mem_false in Hfresh. congruence. }
  unfold visitor.import_module. rewrite Hcache.
  cbn [graph_nodes set_imported_module_cache]. rewrite Hfresh. cbn [negb].
  unfold append_edge.
  rewrite visitor_update_module_id, visitor_update_nodes.
  cbn [module_id graph_nodes set_graph_nodes set_imported_module_cache].
  rewrite dict_get_set_other by exact Hne. rewrite Hmod.
  cbn [new_GraphEdge validate_edge bind]. cbn.
  eexists. split; [reflexivity |].
  cbn [module_id graph_nodes set_graph_nodes set_imported_module_cache].
  rewrite visitor_update_module_id.
  cbn [module_id set_graph_nodes set_imported_module_cache].
  split; [reflexivity |]. split.
  - rewrite dict_get_set_other by (intro E; apply Hne; symmetry; exact E).
    apply dict_get_set_same.
  - apply dict_get_set_same.
Qed.

Lemma code_visitor_update_module_id :
  forall (node : GraphNode) (self : CodeVisitor),
    module_id (code_visitor.update_reference_table node self) = module_id self.
Proof.
  intros node self. unfold code_visitor.update_reference_table.
  repeat match goal with
         | |- context [match ?x with _ => _ end] => destruct x
         end; reflexivity.
Qed.

Lemma code_visitor_import_module_fresh :
  forall (self : CodeVisitor) (m : string) (module_node : GraphNode),
    dict_get (module_id self) (graph_nodes self) = Some module_node ->
    dict_get m (imported_module_cache self) = None ->
    dict_mem ("module:" ++ m) (graph_nodes self) = false ->
    exists self',
      code_visitor.import_module m self = Ok self'
      /\ dict_get ("module:" ++ m) (graph_nodes self')
         = Some (mkGraphNode ("module:" ++ m) m MODULE (mkMetadata None false) [])
      /\ dict_get (module_id self) (graph_nodes self')
         = Some (append_relationship module_node
                   (imports_edge self ("module:" ++ m))).
Proof.
  intros self m module_node Hmod Hcache Hfresh.
  assert (Hne : ("module:" ++ m)%string <> module_id self).
  { intro E. rewrite <- E in Hmod. apply dict_mem_false in Hfresh. congruence. }
  unfold code_visitor.import_module. rewrite Hcache.
  cbn [graph_nodes set_imported_module_cache]. rewrite Hfresh. cbn [negb].
  unfold append_edge.
  rewrite code_visitor_update_module_id, code_visitor_update_nodes.
  cbn [module_id graph_nodes set_graph_nodes set_imported_module_cache].
  rewrite dict_get_set_other by exact Hne. rewrite Hmod.
  cbn [new_GraphEdge validate_edge bind]. cbn.
  eexists. split; [reflexivity |].
  cbn [module_id graph_nodes set_graph_nodes set_imported_module_cache].
  split.
  - rewrite dict_get_set_other by (intro E; apply Hne; symmetry; exact E).
    apply dict_get_set_same.
  - apply dict_get_set_same.
Qed.

(** C9, as the code has it.  The first [import os] of a module appends an
    [Imports] edge from the module's node to a new node [module:os] named
    [os]; in [visitor.py] its metadata holds the source file that
    [find_package_source] finds for [os] on the search path (none only if
    there is none to find), in [code_visitor.py] it holds none. *)
Theorem visit_import_os :
  forall (pf : Platform) (self : CodeVisitor) (module_node : GraphNode),
    dict_get (module_id self) (graph_nodes self) = Some module_node ->
    dict_get "os" (imported_module_cache self) = None ->
    dict_mem "module:os" (graph_nodes self) = false ->
    (exists self',
       visitor.visit_Import pf ["os"] self = Ok self'
       /\ dict_get "module:os" (graph_nodes self')
          = Some (mkGraphNode "module:os" "os" MODULE
                    (mkMetadata (find_package_source pf "os") false) [])
       /\ dict_get (module_id self) (graph_nodes self')
          = Some (append_relationship module_node (imports_edge self "module:os")))
    /\
    (exists self',
       code_visitor.visit_Import ["os"] self = Ok self'
       /\ dict_get "module:os" (graph_nodes self')
          = Some (mkGraphNode "module:os" "os" MODULE (mkMetadata None false) [])
       /\ dict_get (module_id self) (graph_nodes self')
          = Some (append_relationship module_node (imports_edge self "module:os"))).
Proof.
  intros pf self module_node Hmod Hcache Hfresh. split.
  - destruct (import_module_fresh pf self "os" module_node Hmod Hcache Hfresh)
      as (self' & Hrun & _ & Hnode & Hedge).
    exists self'. unfold visitor.visit_Import. cbn [for_each]. rewrite Hrun.
    repeat split; assumption.
  - destruct (code_visitor_import_module_fresh self "os" module_node Hmod Hcache Hfresh)
      as (self' & Hrun & Hnode & Hedge).
    exists self'. unfold code_visitor.visit_Import. cbn [for_each]. rewrite Hrun.
    repeat split; assumption.
Qed.

(** [import os] in [/proj/dummy.py], with [os.py] on the search path. *)
Lemma visit_import_os_witness :
  exists self self',
    visitor.init demo_platform "/proj/dummy.py" "import os" "/proj" = Ok self
    /\ visitor.visit_Import demo_platform ["os"] self = Ok self'
    /\ dict_get "module:os" (graph_nodes self')
       = Some (mkGraphNode "module:os" "os" MODULE
                 (mkMetadata (find_package_source demo_platform "os") false) []).
Proof.
  eexists. 
  destruct (@visit_import_os demo_platform
              (mkCodeVisitor "/proj/dummy.py" "/proj"
                 [("module:dummy.dummy",
                   mkGraphNode "module:dummy.dummy" "dummy" MODULE
                     (mkMetadata (Some "/proj/dummy.py") false) [])]
                 ["module:dummy.dummy"]
                 [("dummy", [("dummy", "module:dummy.dummy")])] []
                 "module:dummy.dummy")
              _ eq_refl eq_refl eq_refl) as [(self' & Hrun & Hnode & _) _].
  exists self'. split; [reflexivity |]. split; [exact Hrun | exact Hnode].
Defined.

(** C9 as stated fails in [visitor.py]: with [os.py] on the search path
    the node [module:os] carries that file as its source file. *)
Lemma visit_import_os_has_source_file :
  exists self self' target,
    visitor.init demo_platform "/proj/dummy.py" "import os" "/proj" = Ok self
    /\ visitor.visit demo_platform (Module [Import ["os"]]) self = Ok self'
    /\ dict_get "module:os" (graph_nodes self') = Some target
    /\ name target = "os"
    /\ source_file (metadata target) = Some "/usr/lib/python3/os.py".
Proof.
  do 3 eexists. repeat split; reflexivity.
Qed.

Lemma truthy_append_nonempty :
  forall (p : string) (a : ascii) (s : string), truthy (p ++ String a s) = true.
Proof.
  intros p a s. destruct p; reflexivity.
Qed.

(** With a module id [module:<P>.<n>], one level up from the id's dotted
    path is [P], the module's own package path. *)
Lemma base_module_one_level :
  forall (self : CodeVisitor) (P n m : string),
    module_id self = ("module:" ++ P ++ "." ++ n)%string ->
    str_partition dot n = None ->
    truthy m = true ->
    visitor.base_module_of (Some m) 1 self = (P ++ "." ++ m)%string.
Proof.
  intros self P n m Hid Hn Hm. unfold visitor.base_module_of.
  rewrite Hid, Hm. cbn -[drop_last str_split str_join].
  pose proof (str_split_snoc dot P n Hn) as Hs.
  pose proof (str_join_split dot P) as Hj.
  unfold dot in *. rewrite Hs, drop_last_snoc, Hj. reflexivity.
Qed.

(** C6, as the code has it.  In a module with id [module:<P>.<n>] (package
    path [P], as [module:pkg.mod.mod] for [pkg/mod.py]) the statement
    [from .utils import helper] imports [module:<P>.utils.helper]: the one
    segment stripped is the last one of the id's dotted path, the module's
    simple name, so the package path [P] is kept whole. *)
Theorem relative_import_keeps_package_path :
  forall (pf : Platform) (self : CodeVisitor) (P n : string) (module_node : GraphNode),
    module_id self = ("module:" ++ P ++ "." ++ n)%string ->
    str_partition dot n = None ->
    dict_get (module_id self) (graph_nodes self) = Some module_node ->
    dict_get (P ++ ".utils.helper")%string (imported_module_cache self) = None ->
    dict_mem ("module:" ++ P ++ ".utils.helper")%string (graph_nodes self) = false ->
    package_of_id (module_id self) = P
    /\ visitor.base_module_of (Some "utils") 1 self = (P ++ ".utils")%string
    /\ exists self',
         visitor.visit_ImportFrom pf (Some "utils") ["helper"] 1 self = Ok self'
         /\ dict_mem ("module:" ++ P ++ ".utils.helper")%string (graph_nodes self') = true
         /\ dict_get (module_id self) (graph_nodes self')
            = Some (append_relationship module_node
                      (imports_edge self ("module:" ++ P ++ ".utils.helper")%string)).
Proof.
  intros pf self P n module_node Hid Hn Hmod Hcache Hfresh.
  assert (Hbase : visitor.base_module_of (Some "utils") 1 self = (P ++ ".utils")%string)
    by (apply (@base_module_one_level self P n "utils" Hid Hn); reflexivity).
  split; [| split; [exact Hbase |]].
  - rewrite Hid. unfold package_of_id. cbn.
    pose proof (str_rpartition_snoc dot P n Hn) as Hr.
    unfold str_rsplit1, dot in *. rewrite Hr. reflexivity.
  - unfold visitor.visit_ImportFrom. rewrite Hbase. cbn [for_each].
    change (P ++ ".utils")%string with (P ++ String "." "utils")%string.
    rewrite truthy_append_nonempty.
    replace ((P ++ String "." "utils") ++ "." ++ "helper")%string
      with (P ++ ".utils.helper")%string by (rewrite append_assoc; reflexivity).
    destruct (import_module_fresh pf self (P ++ ".utils.helper")%string
                module_node Hmod Hcache Hfresh) as (self' & Hrun & _ & Hnode & Hedge).
    exists self'. rewrite Hrun. cbn [bind]. repeat split.
    + unfold dict_mem.
      change ("module:" ++ P ++ ".utils.helper")%string
        with ("module:" ++ (P ++ ".utils.helper"))%string.
      rewrite Hnode. reflexivity.
    + exact Hedge.
Qed.

(** [from .utils import helper] in [/proj/pkg/mod.py]. *)
Lemma relative_import_keeps_package_path_witness :
  exists self self',
    visitor.init demo_platform "/proj/pkg/mod.py" "from .utils import helper" "/proj"
    = Ok self
    /\ visitor.visit_ImportFrom demo_platform (Some "utils") ["helper"] 1 self = Ok self'
    /\ dict_mem "module:pkg.mod.utils.helper" (graph_nodes self') = true.
Proof.
  eexists.
  destruct (@relative_import_keeps_package_path demo_platform
              (mkCodeVisitor "/proj/pkg/mod.py" "/proj"
                 [("module:pkg.mod.mod",
                   mkGraphNode "module:pkg.mod.mod" "mod" MODULE
                     (mkMetadata (Some "/proj/pkg/mod.py") false) [])]
                 ["module:pkg.mod.mod"]
                 [("mod", [("pkg.mod", "module:pkg.mod.mod")])] []
                 "module:pkg.mod.mod")
              "pkg.mod" "mod" _ eq_refl eq_refl eq_refl eq_refl eq_refl)
    as (_ & _ & self' & Hrun & Hmem & _).
  exists self'. split; [reflexivity |]. split; [exact Hrun | exact Hmem].
Defined.

(** C6 as stated fails: for [/proj/pkg/mod.py], whose package path is
    [pkg.mod], the imported id is [module:pkg.mod.utils.helper] and no
    node [module:pkg.utils.helper] exists; nor is that id produced for the
    package's own [__init__.py] or for a module [x.py] inside it. *)
Lemma relative_import_not_one_package_up :
  let code := "from .utils import helper" in
  let tree := Module [ImportFrom (Some "utils") ["helper"] 1] in
  (exists self self',
     visitor.init demo_platform "/proj/pkg/mod.py" code "/proj" = Ok self
     /\ package_of_id (module_id self) = "pkg.mod"
     /\ visitor.visit demo_platform tree self = Ok self'
     /\ dict_mem "module:pkg.mod.utils.helper" (graph_nodes self') = true
     /\ dict_mem "module:pkg.utils.helper" (graph_nodes self') = false)
  /\ module_edge_targets demo_platform "/proj/pkg/mod.py" code "/proj" tree
     = Ok ["module:pkg.mod.utils.helper"]
  /\ module_edge_targets demo_platform "/proj/pkg/mod/__init__.py" code "/proj" tree
     = Ok ["module:pkg.mod.utils.helper"]
  /\ module_edge_targets demo_platform "/proj/pkg/mod/x.py" code "/proj" tree
     = Ok ["module:pkg.mod.x.utils.helper"].
Proof.
  cbv zeta. split; [do 2 eexists |]; repeat split; reflexivity.
Qed.

(* ================================================================== *)
(** * Ownership of relationship edges *)

Section AstInduction.
Variable P : ast -> Prop.
Hypothesis HModule : forall body, Forall P body -> P (Module body).
Hypothesis HImport : forall names, P (Import names).
Hypothesis HImportFrom : forall module names level, P (ImportFrom module names level).
Hypothesis HClassDef :
  forall name bases keywords body decorator_list,
    Forall P bases -> Forall P keywords -> Forall P body -> Forall P decorator_list ->
    P (ClassDef name bases keywords body decorator_list).
Hypothesis HFunctionDef :
  forall name args body decorator_list returns,
    Forall P args -> Forall P body -> Forall P decorator_list -> Forall P returns ->
    P (FunctionDef name args body decorator_list returns).
Hypothesis HCall :
  forall func args keywords,
    P func -> Forall P args -> Forall P keywords -> P (Call func args keywords).
Hypothesis HName : forall i, P (Name i).
Hypothesis HAttribute : forall value attr, P value -> P (Attribute value attr).
Hypothesis HOther : forall children, Forall P children -> P (Other children).

(** Induction over syntax trees, with the hypothesis for every child. *)
Fixpoint ast_nested_ind (node : ast) : P node :=
  let all :=
    fix all (l : list ast) : Forall P l :=
      match l with
      | [] => Forall_nil P
      | x :: rest => Forall_cons x (ast_nested_ind x) (all rest)
      end in
  match node with
  | Module body => HModule body (all body)
  | Import names => HImport names
  | ImportFrom module names level => HImportFrom module names level
  | ClassDef name bases keywords body decorator_list =>
      HClassDef name bases keywords body decorator_list
        (all bases) (all keywords) (all body) (all decorator_list)
  | FunctionDef name args body decorator_list returns =>
      HFunctionDef name args body decorator_list returns
        (all args) (all body) (all decorator_list) (all returns)
  | Call func args keywords =>
      HCall func args keywords (ast_nested_ind func) (all args) (all keywords)
  | Name i => HName i
  | Attribute value attr => HAttribute value attr (ast_nested_ind value)
  | Other children => HOther children (all children)
  end.
End AstInduction.

Lemma owns_edges_same_nodes :
  forall self self' : CodeVisitor,
    graph_nodes self' = graph_nodes self -> owns_edges self -> owns_edges self'.
Proof.
  intros self self' E H k n e. rewrite E. apply H.
Qed.

(** Appending to a node an edge that starts at it keeps the ownership. *)
Lemma append_edge_owns :
  forall (nid : string) (et : EdgeType) (tid : string) (st tt : NodeType)
         (self self' : CodeVisitor),
    owns_edges self ->
    append_edge nid (new_GraphEdge et nid tid st tt) self = Ok self' ->
    owns_edges self'.
Proof.
  intros nid et tid st tt self self' Hown. unfold append_edge.
  destruct (dict_get nid (graph_nodes self)) as [node |] eqn:En; [| discriminate].
  unfold new_GraphEdge. destruct (validate_edge et st tt); cbn [bind]; [| discriminate].
  intro H. inversion H. subst self'. clear H.
  intros k n e. cbn [graph_nodes set_graph_nodes].
  destruct (String.eqb_spec k nid) as [-> | Hne].
  - rewrite dict_get_set_same. intro H. inversion H. subst n. clear H.
    cbn [relationships append_relationship]. intro Hin. apply in_app_or in Hin.
    destruct Hin as [Hin | [<- | []]]; [exact (Hown nid node e En Hin) | reflexivity].
  - rewrite dict_get_set_other by (intro E; apply Hne; symmetry; exact E).
    apply Hown.
Qed.

Lemma append_built_edge_owns :
  forall (nid : string) (et : EdgeType) (tid : string) (st tt : NodeType)
         (self self' : CodeVisitor),
    owns_edges self ->
    append_built_edge (new_GraphEdge et nid tid st tt) nid self = Ok self' ->
    owns_edges self'.
Proof.
  intros nid et tid st tt self self' Hown. unfold append_built_edge.
  destruct (new_GraphEdge et nid tid st tt) as [e |] eqn:E; cbn [bind]; [| discriminate].
  intro H. apply (append_edge_owns nid et tid st tt self self' Hown).
  unfold append_edge in *. rewrite E. exact H.
Qed.

Lemma store_fresh_node_owns :
  forall (node : GraphNode) (self : CodeVisitor),
    relationships node = [] -> owns_edges self ->
    owns_edges (set_graph_nodes (dict_set (id node) node (graph_nodes self)) self).
Proof.
  intros node self Hrel Hown k n e. cbn [graph_nodes set_graph_nodes].
  destruct (String.eqb_spec k (id node)) as [-> | Hne].
  - rewrite dict_get_set_same. intro H. inversion H. subst n. rewrite Hrel.
    contradiction.
  - rewrite dict_get_set_other by (intro E; apply Hne; symmetry; exact E).
    apply Hown.
Qed.

Lemma add_node_owns :
  forall (node : GraphNode) (self self' : CodeVisitor),
    relationships node = [] -> owns_edges self ->
    visitor.add_node node self = Ok self' -> owns_edges self'.
Proof.
  intros node self self' Hrel Hown. unfold visitor.add_node.
  set (s2 := visitor.update_reference_table node _).
  assert (H2 : owns_edges s2).
  { apply owns_edges_same_nodes with (2 := store_fresh_node_owns node self Hrel Hown).
    apply visitor_update_nodes. }
  destruct (rev (current_parent_ids s2)) as [| parent_id parents].
  - intro H. inversion H. subst self'. exact H2.
  - destruct (dict_get parent_id (graph_nodes s2)) as [parent |]; [| discriminate].
    apply append_edge_owns. exact H2.
Qed.

Lemma import_module_owns :
  forall (pf : Platform) (m : string) (self self' : CodeVisitor),
    owns_edges self -> visitor.import_module pf m self = Ok self' -> owns_edges self'.
Proof.
  intros pf m self self' Hown. unfold visitor.import_module.
  set (target := match dict_get m (imported_module_cache self) with
                 | Some cached => cached
                 | None => ("module:" ++ m)%string
                 end).
  set (s1 := set_imported_module_cache _ self).
  assert (H1 : owns_edges s1) by (apply owns_edges_same_nodes with (2 := Hown); reflexivity).
  match goal with
  | |- append_edge ?n (new_GraphEdge ?et ?src ?t ?a ?b) ?s = _ -> _ =>
      assert (Hs : owns_edges s)
  end.
  - destruct (negb (dict_mem target (graph_nodes s1))); [| exact H1].
    eapply owns_edges_same_nodes; [apply visitor_update_nodes |].
    apply (store_fresh_node_owns
             (mkGraphNode target m MODULE
                (mkMetadata (find_package_source pf m) false) []) s1);
      [reflexivity | exact H1].
  - apply append_edge_owns. exact Hs.
Qed.

Lemma handle_decorators_skips :
  forall (decorator_list : list ast) (target_id : string) (self : CodeVisitor),
    forallb (fun d => negb (is_named_decorator d)) decorator_list = true ->
    visitor.handle_decorators decorator_list target_id self = Ok self.
Proof.
  intros decorator_list target_id self H. unfold visitor.handle_decorators.
  apply for_each_noop. intros d Hd.
  rewrite forallb_forall in H. specialize (H d Hd).
  destruct d; try discriminate H; reflexivity.
Qed.

Lemma pop_parent_owns :
  forall self self' : CodeVisitor,
    owns_edges self -> visitor.pop_parent self = Ok self' -> owns_edges self'.
Proof.
  intros self self' Hown. unfold visitor.pop_parent.
  destruct (current_parent_ids self); [discriminate |].
  intro H. inversion H. subst self'.
  apply owns_edges_same_nodes with (2 := Hown). reflexivity.
Qed.

Lemma push_parent_owns :
  forall (nid : string) (self : CodeVisitor),
    owns_edges self -> owns_edges (visitor.push_parent nid self).
Proof.
  intros nid self Hown. apply owns_edges_same_nodes with (2 := Hown). reflexivity.
Qed.

Lemma visit_ClassDef_owns :
  forall (generic_visit : CodeVisitor -> result CodeVisitor) (name : string)
         (body decorator_list : list ast),
    keeps_ownership generic_visit ->
    forallb (fun d => negb (is_named_decorator d)) decorator_list = true ->
    keeps_ownership (visitor.visit_ClassDef generic_visit name body decorator_list).
Proof.
  intros generic_visit name body decorator_list Hgen Hdec self self' Hown.
  unfold visitor.visit_ClassDef.
  destruct (lookup_node name self) as [existing |]; cbn [bind]; [| discriminate].
  destruct (truthy_opt existing); [intro H; inversion H; subst self'; exact Hown |].
  match goal with
  | |- context [visitor.add_node ?n self] =>
      destruct (visitor.add_node n self) as [s1 |] eqn:E1; cbn [bind]; [| discriminate];
      pose proof (add_node_owns n self s1 eq_refl Hown E1) as H1
  end.
  rewrite handle_decorators_skips by exact Hdec. cbn [bind].
  destruct (generic_visit _) as [s2 |] eqn:E2; cbn [bind]; [| discriminate].
  apply pop_parent_owns. apply (Hgen _ _ (push_parent_owns _ _ H1) E2).
Qed.

Lemma visit_FunctionDef_owns :
  forall (generic_visit : CodeVisitor -> result CodeVisitor) (name : string)
         (decorator_list : list ast),
    keeps_ownership generic_visit ->
    forallb (fun d => negb (is_named_decorator d)) decorator_list = true ->
    keeps_ownership (visitor.visit_FunctionDef generic_visit name decorator_list).
Proof.
  intros generic_visit name decorator_list Hgen Hdec self self' Hown.
  unfold visitor.visit_FunctionDef.
  destruct (lookup_node name self) as [existing |]; cbn [bind]; [| discriminate].
  destruct (truthy_opt existing); [intro H; inversion H; subst self'; exact Hown |].
  match goal with
  | |- context [visitor.add_node ?n self] =>
      destruct (visitor.add_node n self) as [s1 |] eqn:E1; cbn [bind]; [| discriminate];
      pose proof (add_node_owns n self s1 eq_refl Hown E1) as H1
  end.
  match goal with
  | |- context [if ?b then append_built_edge ?e ?p s1 else Ok s1] =>
      destruct (if b then append_built_edge e p s1 else Ok s1) as [s2 |] eqn:E2;
      cbn [bind]; [| discriminate];
      assert (H2 : owns_edges s2)
  end.
  { destruct (startswith "class:" _).
    - exact (append_built_edge_owns _ _ _ _ _ _ _ H1 E2).
    - inversion E2. subst s2. exact H1. }
  rewrite handle_decorators_skips by exact Hdec. cbn [bind].
  destruct (generic_visit _) as [s3 |] eqn:E3; cbn [bind]; [| discriminate].
  apply pop_parent_owns. apply (Hgen _ _ (push_parent_owns _ _ H2) E3).
Qed.

Lemma visit_Call_owns :
  forall (generic_visit : CodeVisitor -> result CodeVisitor) (func : ast),
    keeps_ownership generic_visit ->
    keeps_ownership (visitor.visit_Call generic_visit func).
Proof.
  intros generic_visit func Hgen self self' Hown. unfold visitor.visit_Call.
  destruct (visitor.called_function_id_of func self) as [called |]; cbn [bind];
    [| discriminate].
  match goal with
  | |- context [if ?b then append_edge ?p ?e self else Ok self] =>
      destruct (if b then append_edge p e self else Ok self) as [s1 |] eqn:E1;
      cbn [bind]; [| discriminate];
      assert (H1 : owns_edges s1)
  end.
  { destruct (truthy_opt called).
    - exact (append_edge_owns _ _ _ _ _ _ _ Hown E1).
    - inversion E1. subst s1. exact Hown. }
  apply Hgen. exact H1.
Qed.

Lemma bind_keeps_ownership :
  forall f g : CodeVisitor -> result CodeVisitor,
    keeps_ownership f -> keeps_ownership g ->
    keeps_ownership (fun self => self <- f self ;; g self).
Proof.
  intros f g Hf Hg self self' Hown. destruct (f self) as [s1 |] eqn:E1; cbn [bind];
    [| discriminate].
  apply Hg. exact (Hf _ _ Hown E1).
Qed.

Lemma for_each_keeps_ownership :
  forall (pf : Platform) (l : list ast),
    Forall (fun node => undecorated node = true ->
                        keeps_ownership (visitor.visit pf node)) l ->
    forallb undecorated l = true ->
    keeps_ownership (for_each (visitor.visit pf) l).
Proof.
  intros pf l H Hall self self'. apply for_each_preserves.
  rewrite forallb_forall in Hall. rewrite Forall_forall in *.
  intros x Hx. apply H; [exact Hx | apply Hall; exact Hx].
Qed.

(** Apart from [handle_decorators], the visitor appends every edge to the
    node the edge starts at: visiting a tree without named decorators keeps
    the ownership of edges. *)
Lemma visit_owns_edges :
  forall (pf : Platform) (tree : ast),
    undecorated tree = true -> keeps_ownership (visitor.visit pf tree).
Proof.
  intros pf tree. induction tree using ast_nested_ind; intro Hu; cbn [undecorated] in Hu;
    cbn [visitor.visit].
  - apply for_each_keeps_ownership; assumption.
  - intros self self'. unfold visitor.visit_Import. apply for_each_preserves.
    apply Forall_forall. intros m _ s s'. apply import_module_owns.
  - intros self self'. unfold visitor.visit_ImportFrom. apply for_each_preserves.
    apply Forall_forall. intros m _ s s'. apply import_module_owns.
  - repeat (apply andb_true_iff in Hu; destruct Hu as [Hu ?]).
    apply visit_ClassDef_owns; [| assumption].
    repeat apply bind_keeps_ownership; apply for_each_keeps_ownership; assumption.
  - repeat (apply andb_true_iff in Hu; destruct Hu as [Hu ?]).
    apply visit_FunctionDef_owns; [| assumption].
    repeat apply bind_keeps_ownership; apply for_each_keeps_ownership; assumption.
  - repeat (apply andb_true_iff in Hu; destruct Hu as [Hu ?]).
    apply visit_Call_owns.
    repeat apply bind_keeps_ownership;
      [apply IHtree; assumption | apply for_each_keeps_ownership; assumption ..].
  - intros self self' Hown H. inversion H. subst self'. exact Hown.
  - apply IHtree. exact Hu.
  - apply for_each_keeps_ownership; assumption.
Qed.

(** The constructor's state owns its edges: the module node has none. *)
Lemma init_owns_edges :
  forall (pf : Platform) (source_file code project_root : string) (self : CodeVisitor),
    visitor.init pf source_file code project_root = Ok self -> owns_edges self.
Proof.
  intros pf source_file code project_root self. unfold visitor.init.
  destruct (negb (truthy project_root)); [discriminate |].
  destruct (ast_parse pf code); [| discriminate].
  intro H. inversion H. subst self. clear H.
  intros k n e. cbn [graph_nodes set_current_parent_ids].
  rewrite visitor_update_nodes. cbn [graph_nodes dict_get].
  destruct (String.eqb k _); [| discriminate].
  intro H. inversion H. subst n. contradiction.
Qed.

(** C8 fails on [handle_decorators].  For the module
    [@deco / def f(): pass] the constructor's state owns its edges, and
    after the visit it does not: the [Decorates] edge, whose source is the
    decorator [function:dummy.deco], is appended to the relationships of
    the decorated node [function:dummy.f]; [add_relationship] would have
    refused it. *)
Theorem decorates_edge_stored_on_target :
  exists self self' node e,
    visitor.init demo_platform "/proj/dummy.py" decorated_code "/proj" = Ok self
    /\ owns_edges self
    /\ visitor.visit demo_platform decorated_tree self = Ok self'
    /\ ~ owns_edges self'
    /\ dict_get "function:dummy.f" (graph_nodes self') = Some node
    /\ id node = "function:dummy.f"
    /\ In e (relationships node)
    /\ edge_type e = DECORATES
    /\ source_node_id e = "function:dummy.deco"
    /\ add_relationship node e = Raise ValueError.
Proof.
  do 4 eexists.
  split; [reflexivity |].
  split; [apply (init_owns_edges demo_platform "/proj/dummy.py" decorated_code "/proj");
          reflexivity |].
  split; [reflexivity |].
  split.
  - intro Hown.
    specialize (Hown "function:dummy.f" _
                  (mkGraphEdge DECORATES "function:dummy.deco" "function:dummy.f"
                     FUNCTION FUNCTION)
                  eq_refl (or_introl eq_refl)).
    discriminate Hown.
  - split; [reflexivity |]. split; [reflexivity |]. split; [left; reflexivity |].
    split; [reflexivity |]. split; reflexivity.
Qed.

(* ================================================================== *)
(** * Syntax errors in the project build *)

(** C7 fails on the code.  A readable file whose text does not parse
    makes [build_project_graph] raise: no graph is returned, and when the
    file is the first one found the exception is the [SyntaxError] of
    [ast.parse] itself. *)
Theorem syntax_error_aborts_build :
  forall (pf : Platform) (project_path filepath code : string),
    In filepath (rglob_py pf (Path_str pf project_path)) ->
    read_text pf filepath = Some code ->
    ast_parse pf code = None ->
    (exists e, build_project_graph pf project_path = Raise e)
    /\ (forall rest,
          rglob_py pf (Path_str pf project_path) = filepath :: rest ->
          build_project_graph pf project_path = Raise SyntaxError).
Proof.
  intros pf project_path filepath code Hin Hread Hparse.
  assert (Hfile : forall master,
             process_file pf (Path_str pf project_path) filepath master
             = Raise SyntaxError).
  { intro master. unfold process_file, read_python_file, build_from_code.
    rewrite Hread, Hparse. reflexivity. }
  split.
  - unfold build_project_graph.
    destruct (@for_each_raises _ _ (process_file pf (Path_str pf project_path))
                _ _ Hin (fun s => ex_intro _ SyntaxError (Hfile s)) [])
      as [e He].
    rewrite He. exists e. reflexivity.
  - intros rest Hrest. unfold build_project_graph. rewrite Hrest.
    cbn [for_each]. rewrite Hfile. reflexivity.
Qed.

(** The project [/proj] with the unparsable [bad.py]. *)
Lemma syntax_error_aborts_build_witness :
  build_project_graph demo_platform "/proj" = Raise SyntaxError
  /\ exists e, build_project_graph demo_platform "/proj" = Raise e.
Proof.
  split; [reflexivity |].
  assert (Hin : In "/proj/bad.py" (rglob_py demo_platform (Path_str demo_platform "/proj")))
    by (cbn; auto).
  exact (proj1 (@syntax_error_aborts_build demo_platform "/proj" "/proj/bad.py" "def ("
                  Hin eq_refl eq_refl)).
Defined.

(* ================================================================== *)
(** * More dictionary facts *)

Lemma eqb_neq_false : forall a b : string, a <> b -> String.eqb a b = false.
Proof. intros a b H. apply String.eqb_neq. exact H. Qed.

Lemma dict_get_In :
  forall (V : Type) (k : string) (v : V) (d : dict V),
    dict_get k d = Some v -> In (k, v) d.
Proof.
  intros V k v d. induction d as [| [k' v'] rest IH]; simpl; [discriminate |].
  destruct (String.eqb_spec k k') as [-> | Hne]; intro H.
  - inversion H. left. reflexivity.
  - right. apply IH. exact H.
Qed.

Lemma dict_get_None_keys :
  forall (V : Type) (k : string) (d : dict V),
    dict_get k d = None <-> ~ In k (dict_keys d).
Proof.
  intros V k d. induction d as [| [k' v'] rest IH]; simpl.
  - split; auto.
  - destruct (String.eqb_spec k k') as [-> | Hne].
    + split; [discriminate | intro H; exfalso; apply H; left; reflexivity].
    + rewrite IH. split.
      * intros H [E | E]; [apply Hne; symmetry; exact E | exact (H E)].
      * intros H E. apply H. right. exact E.
Qed.

Lemma dict_In_get :
  forall (V : Type) (k : string) (v : V) (d : dict V),
    NoDup (dict_keys d) -> In (k, v) d -> dict_get k d = Some v.
Proof.
  intros V k v d. induction d as [| [k' v'] rest IH]; simpl; [contradiction |].
  intros Hnd [E | Hin].
  - inversion E. subst. rewrite String.eqb_refl. reflexivity.
  - inversion Hnd as [| ? ? Hnotin Hnd']. subst.
    destruct (String.eqb_spec k k') as [-> | Hne].
    + exfalso. apply Hnotin. change (In k' (dict_keys rest)).
      unfold dict_keys. apply (in_map fst) in Hin. exact Hin.
    + apply IH; assumption.
Qed.

Lemma dict_set_keys :
  forall (V : Type) (k : string) (v v0 : V) (d : dict V),
    dict_get k d = Some v0 -> dict_keys (dict_set k v d) = dict_keys d.
Proof.
  intros V k v v0 d. induction d as [| [k' v'] rest IH]; simpl; [discriminate |].
  destruct (String.eqb_spec k k') as [-> | Hne]; intro H; simpl.
  - reflexivity.
  - f_equal. apply IH. exact H.
Qed.

Lemma dict_mem_set :
  forall (V : Type) (k k' : string) (v : V) (d : dict V),
    dict_mem k' (dict_set k v d) = String.eqb k' k || dict_mem k' d.
Proof.
  intros V k k' v d. unfold dict_mem.
  destruct (String.eqb_spec k' k) as [-> | Hne]; cbn [orb].
  - rewrite dict_get_set_same. reflexivity.
  - rewrite dict_get_set_other by (intro E; apply Hne; symmetry; exact E).
    reflexivity.
Qed.

Lemma dict_get_del :
  forall (V : Type) (k k' : string) (d : dict V),
    dict_get k' (dict_del k d) = if String.eqb k' k then None else dict_get k' d.
Proof.
  intros V k k' d. unfold dict_del.
  induction d as [| [k0 v0] rest IH]; simpl.
  - destruct (String.eqb k' k); reflexivity.
  - destruct (String.eqb_spec k k0) as [-> | Hne]; simpl.
    + rewrite IH. destruct (String.eqb_spec k' k0); reflexivity.
    + rewrite IH. destruct (String.eqb_spec k' k0) as [-> | Hne'].
      * rewrite eqb_neq_false by (intro E; apply Hne; symmetry; exact E).
        reflexivity.
      * reflexivity.
Qed.

Lemma dict_mem_del :
  forall (V : Type) (k k' : string) (d : dict V),
    dict_mem k' (dict_del k d) = negb (String.eqb k' k) && dict_mem k' d.
Proof.
  intros V k k' d. unfold dict_mem. rewrite dict_get_del.
  destruct (String.eqb k' k); reflexivity.
Qed.

Lemma NoDup_keys_filter :
  forall (V : Type) (p : string * V -> bool) (d : dict V),
    NoDup (dict_keys d) -> NoDup (dict_keys (filter p d)).
Proof.
  intros V p d. unfold dict_keys.
  induction d as [| kv rest IH]; simpl; intro H; [constructor |].
  inversion H as [| ? ? Hnotin Hnd]. subst.
  destruct (p kv); simpl; [constructor |]; auto.
  intro Hin. apply Hnotin. apply in_map_iff in Hin.
  destruct Hin as (kv' & E & Hin). apply filter_In in Hin.
  apply in_map_iff. exists kv'. tauto.
Qed.

Lemma NoDup_keys_snoc :
  forall (V : Type) (k : string) (v : V) (d : dict V),
    NoDup (dict_keys d) -> dict_get k d = None -> NoDup (dict_keys (d ++ [(k, v)])).
Proof.
  intros V k v d Hnd Hnone. unfold dict_keys. rewrite map_app. simpl.
  apply NoDup_app; [exact Hnd | repeat constructor; simpl; tauto |].
  intros x Hx [E | []]. subst x. apply dict_get_None_keys in Hnone. exact (Hnone Hx).
Qed.

(* ================================================================== *)
(** * Graph operations: nodes, data and edges *)

Lemma nx_touch_get :
  forall (g : DiGraph) (n x : string),
    dict_get x (nx_touch g n) =
    match dict_get x g with
    | Some e => Some e
    | None => if String.eqb x n then Some (mkEntry None []) else None
    end.
Proof.
  intros g n x. unfold nx_touch, dict_mem.
  destruct (dict_get n g) as [e |] eqn:En.
  - destruct (dict_get x g) eqn:Ex; auto.
    destruct (String.eqb_spec x n) as [-> | _]; [congruence | reflexivity].
  - rewrite dict_get_app. destruct (dict_get x g); auto.
Qed.

Lemma nx_touch_NoDup :
  forall (g : DiGraph) (n : string),
    NoDup (dict_keys g) -> NoDup (dict_keys (nx_touch g n)).
Proof.
  intros g n H. unfold nx_touch, dict_mem.
  destruct (dict_get n g) eqn:E; [exact H |].
  apply NoDup_keys_snoc; assumption.
Qed.

(** The entry of [x] after [add_edge(u, v, relationship=rel)]. *)
Lemma nx_add_edge_get :
  forall (g : DiGraph) (u v rel x : string),
    dict_get x (nx_add_edge g u v rel) =
    let e := match dict_get x g with
             | Some e => Some e
             | None => if String.eqb x u || String.eqb x v
                       then Some (mkEntry None []) else None
             end in
    if String.eqb x u
    then option_map (fun e => mkEntry (n_data e) (dict_set v rel (n_succ e))) e
    else e.
Proof.
  intros g u v rel x. unfold nx_add_edge. cbv zeta.
  assert (Ht : forall y, dict_get y (nx_touch (nx_touch g u) v) =
                         match dict_get y g with
                         | Some e => Some e
                         | None => if String.eqb y u || String.eqb y v
                                   then Some (mkEntry None []) else None
                         end).
  { intro y. rewrite !nx_touch_get. destruct (dict_get y g); auto.
    destruct (String.eqb y u); reflexivity. }
  rewrite <- (Ht x).
  destruct (dict_get u (nx_touch (nx_touch g u) v)) as [eu |] eqn:Eu.
  - destruct (String.eqb_spec x u) as [-> | Hne].
    + rewrite dict_get_set_same, Eu. reflexivity.
    + apply dict_get_set_other. intro E. apply Hne. symmetry. exact E.
  - rewrite Ht in Eu. rewrite String.eqb_refl in Eu.
    destruct (dict_get u g); discriminate.
Qed.

Lemma node_data_add_edge :
  forall (g : DiGraph) (u v rel x : string),
    node_data (nx_add_edge g u v rel) x = node_data g x.
Proof.
  intros g u v rel x. unfold node_data. rewrite nx_add_edge_get. cbv zeta.
  destruct (dict_get x g) as [e |]; destruct (String.eqb x u); cbn;
    try reflexivity; destruct (String.eqb x v); reflexivity.
Qed.

Lemma has_node_add_edge :
  forall (g : DiGraph) (u v rel x : string),
    nx_has_node (nx_add_edge g u v rel) x
    = nx_has_node g x || String.eqb x u || String.eqb x v.
Proof.
  intros g u v rel x. unfold nx_has_node, dict_mem. rewrite nx_add_edge_get. cbv zeta.
  destruct (dict_get x g) as [e |]; destruct (String.eqb x u); cbn;
    try reflexivity; destruct (String.eqb x v); reflexivity.
Qed.

Lemma has_edge_add_edge :
  forall (g : DiGraph) (u v rel x y : string),
    nx_has_edge (nx_add_edge g u v rel) x y
    = nx_has_edge g x y || (String.eqb x u && String.eqb y v).
Proof.
  intros g u v rel x y. unfold nx_has_edge. rewrite nx_add_edge_get. cbv zeta.
  destruct (dict_get x g) as [e |]; destruct (String.eqb x u);
    cbn [orb andb option_map n_succ].
  - rewrite dict_mem_set. apply orb_comm.
  - symmetry. apply orb_false_r.
  - rewrite dict_mem_set. apply orb_false_r.
  - destruct (String.eqb x v); reflexivity.
Qed.

Lemma nx_add_edge_NoDup :
  forall (g : DiGraph) (u v rel : string),
    NoDup (dict_keys g) -> NoDup (dict_keys (nx_add_edge g u v rel)).
Proof.
  intros g u v rel H. unfold nx_add_edge. cbv zeta.
  pose proof (nx_touch_NoDup _ v (nx_touch_NoDup g u H)) as Ht.
  destruct (dict_get u (nx_touch (nx_touch g u) v)) as [e |] eqn:E; [| exact Ht].
  rewrite dict_set_keys with (1 := E). exact Ht.
Qed.

(** The entry of [x] after [remove_edge(u, v)]. *)
Lemma nx_remove_edge_get :
  forall (g : DiGraph) (u v x : string),
    dict_get x (nx_remove_edge g u v) =
    if String.eqb x u
    then option_map (fun e => mkEntry (n_data e) (dict_del v (n_succ e))) (dict_get x g)
    else dict_get x g.
Proof.
  intros g u v x. unfold nx_remove_edge.
  destruct (dict_get u g) as [eu |] eqn:Eu.
  - destruct (String.eqb_spec x u) as [-> | Hne].
    + rewrite dict_get_set_same, Eu. reflexivity.
    + apply dict_get_set_other. intro E. apply Hne. symmetry. exact E.
  - destruct (String.eqb_spec x u) as [-> | Hne]; [rewrite Eu |]; reflexivity.
Qed.

Lemma node_data_remove_edge :
  forall (g : DiGraph) (u v x : string),
    node_data (nx_remove_edge g u v) x = node_data g x.
Proof.
  intros g u v x. unfold node_data. rewrite nx_remove_edge_get.
  destruct (String.eqb x u), (dict_get x g); reflexivity.
Qed.

Lemma has_node_remove_edge :
  forall (g : DiGraph) (u v x : string),
    nx_has_node (nx_remove_edge g u v) x = nx_has_node g x.
Proof.
  intros g u v x. unfold nx_has_node, dict_mem. rewrite nx_remove_edge_get.
  destruct (String.eqb x u), (dict_get x g); reflexivity.
Qed.

Lemma has_edge_remove_edge :
  forall (g : DiGraph) (u v x y : string),
    nx_has_edge (nx_remove_edge g u v) x y
    = nx_has_edge g x y && negb (String.eqb x u && String.eqb y v).
Proof.
  intros g u v x y. unfold nx_has_edge. rewrite nx_remove_edge_get.
  destruct (String.eqb x u), (dict_get x g) as [e |]; cbn;
    rewrite ?dict_mem_del; try reflexivity.
  - destruct (String.eqb y v), (dict_mem y (n_succ e)); reflexivity.
  - rewrite andb_true_r. reflexivity.
Qed.

Lemma nx_remove_edge_NoDup :
  forall (g : DiGraph) (u v : string),
    NoDup (dict_keys g) -> NoDup (dict_keys (nx_remove_edge g u v)).
Proof.
  intros g u v H. unfold nx_remove_edge.
  destruct (dict_get u g) as [e |] eqn:E; [| exact H].
  rewrite dict_set_keys with (1 := E). exact H.
Qed.

(** The entry of [x] after [remove_node(n)]. *)
Lemma nx_remove_node_get :
  forall (g : DiGraph) (n x : string),
    dict_get x (nx_remove_node g n) =
    if String.eqb x n then None
    else option_map (fun e => mkEntry (n_data e) (dict_del n (n_succ e))) (dict_get x g).
Proof.
  intros g n x. unfold nx_remove_node, dict_del.
  induction g as [| [k e] rest IH]; simpl.
  - destruct (String.eqb x n); reflexivity.
  - destruct (String.eqb_spec n k) as [-> | Hne]; simpl.
    + rewrite IH. destruct (String.eqb_spec x k); reflexivity.
    + destruct (String.eqb_spec x k) as [-> | Hne'].
      * rewrite eqb_neq_false by (intro E; apply Hne; symmetry; exact E).
        reflexivity.
      * exact IH.
Qed.

Lemma node_data_remove_node :
  forall (g : DiGraph) (n x : string),
    node_data (nx_remove_node g n) x = if String.eqb x n then None else node_data g x.
Proof.
  intros g n x. unfold node_data. rewrite nx_remove_node_get.
  destruct (String.eqb x n), (dict_get x g); reflexivity.
Qed.

Lemma has_node_remove_node :
  forall (g : DiGraph) (n x : string),
    nx_has_node (nx_remove_node g n) x = negb (String.eqb x n) && nx_has_node g x.
Proof.
  intros g n x. unfold nx_has_node, dict_mem. rewrite nx_remove_node_get.
  destruct (String.eqb x n), (dict_get x g); reflexivity.
Qed.

Lemma has_edge_remove_node :
  forall (g : DiGraph) (n x y : string),
    nx_has_edge (nx_remove_node g n) x y
    = negb (String.eqb x n) && negb (String.eqb y n) && nx_has_edge g x y.
Proof.
  intros g n x y. unfold nx_has_edge. rewrite nx_remove_node_get.
  destruct (String.eqb x n), (dict_get x g) as [e |]; cbn;
    rewrite ?dict_mem_del; try reflexivity.
  destruct (String.eqb y n); reflexivity.
Qed.

Lemma nx_remove_node_NoDup :
  forall (g : DiGraph) (n : string),
    NoDup (dict_keys g) -> NoDup (dict_keys (nx_remove_node g n)).
Proof.
  intros g n H. unfold nx_remove_node, dict_keys. rewrite map_map. cbn [fst].
  apply (@NoDup_keys_filter _ (fun kv => negb (String.eqb n (fst kv))) g H).
Qed.

(** An edge that [has_edge] reports is listed by [edges]. *)
Lemma has_edge_listed :
  forall (g : DiGraph) (u v : string),
    nx_has_edge g u v = true -> exists rel, In (u, v, rel) (nx_edges g).
Proof.
  intros g u v. unfold nx_has_edge, nx_edges.
  destruct (dict_get u g) as [e |] eqn:Eu; [| discriminate].
  intro Hm. apply dict_mem_true in Hm. destruct Hm as [rel Hrel].
  exists rel. apply in_flat_map. exists (u, e). split.
  - apply dict_get_In. exact Eu.
  - apply in_map_iff. exists (v, rel). split; [reflexivity |].
    apply dict_get_In. exact Hrel.
Qed.

(* ================================================================== *)
(** * Redirecting the edges of one node *)

Lemma add_edges_node_data :
  forall (l : list (string * string * string)) (g : DiGraph) (x : string),
    node_data (add_edges l g) x = node_data g x.
Proof.
  unfold add_edges. induction l as [| uvd l IH]; intros g x; cbn [fold_left].
  - reflexivity.
  - rewrite IH. apply node_data_add_edge.
Qed.

Lemma add_edges_has_node :
  forall (l : list (string * string * string)) (g : DiGraph) (x : string),
    nx_has_node g x = true -> nx_has_node (add_edges l g) x = true.
Proof.
  unfold add_edges. induction l as [| uvd l IH]; intros g x H; cbn [fold_left].
  - exact H.
  - apply IH. rewrite has_node_add_edge, H. reflexivity.
Qed.

Lemma add_edges_has_edge :
  forall (l : list (string * string * string)) (g : DiGraph) (x y : string),
    nx_has_edge g x y = true -> nx_has_edge (add_edges l g) x y = true.
Proof.
  unfold add_edges. induction l as [| uvd l IH]; intros g x y H; cbn [fold_left].
  - exact H.
  - apply IH. rewrite has_edge_add_edge, H. reflexivity.
Qed.

Lemma add_edges_adds :
  forall (l : list (string * string * string)) (g : DiGraph) (u v rel : string),
    In (u, v, rel) l -> nx_has_edge (add_edges l g) u v = true.
Proof.
  induction l as [| uvd l IH]; intros g u v rel Hin; [contradiction |].
  destruct Hin as [-> | Hin].
  - change (add_edges ((u, v, rel) :: l) g) with (add_edges l (nx_add_edge g u v rel)).
    apply add_edges_has_edge. rewrite has_edge_add_edge, !String.eqb_refl.
    apply orb_true_r.
  - exact (IH _ u v rel Hin).
Qed.

Lemma add_edges_NoDup :
  forall (l : list (string * string * string)) (g : DiGraph),
    NoDup (dict_keys g) -> NoDup (dict_keys (add_edges l g)).
Proof.
  unfold add_edges. induction l as [| uvd l IH]; intros g H; cbn [fold_left].
  - exact H.
  - apply IH. apply nx_add_edge_NoDup. exact H.
Qed.

Lemma remove_edges_node_data :
  forall (l : list (string * string)) (g : DiGraph) (x : string),
    node_data (remove_edges l g) x = node_data g x.
Proof.
  unfold remove_edges. induction l as [| uv l IH]; intros g x; cbn [fold_left].
  - reflexivity.
  - rewrite IH. destruct (nx_has_edge g (fst uv) (snd uv)); [| reflexivity].
    apply node_data_remove_edge.
Qed.

Lemma remove_edges_has_node :
  forall (l : list (string * string)) (g : DiGraph) (x : string),
    nx_has_node (remove_edges l g) x = nx_has_node g x.
Proof.
  unfold remove_edges. induction l as [| uv l IH]; intros g x; cbn [fold_left].
  - reflexivity.
  - rewrite IH. destruct (nx_has_edge g (fst uv) (snd uv)); [| reflexivity].
    apply has_node_remove_edge.
Qed.

(** An edge that is not listed for removal stays. *)
Lemma remove_edges_keeps :
  forall (l : list (string * string)) (g : DiGraph) (x y : string),
    ~ In (x, y) l -> nx_has_edge (remove_edges l g) x y = nx_has_edge g x y.
Proof.
  unfold remove_edges. induction l as [| [u v] l IH]; intros g x y Hnot;
    cbn [fold_left fst snd].
  - reflexivity.
  - rewrite IH by (intro H; apply Hnot; right; exact H).
    destruct (nx_has_edge g u v); [| reflexivity].
    rewrite has_edge_remove_edge.
    destruct (String.eqb_spec x u) as [-> | _]; cbn [andb negb];
      [| apply andb_true_r].
    destruct (String.eqb_spec y v) as [-> | _]; cbn [negb];
      [| apply andb_true_r].
    exfalso. apply Hnot. left. reflexivity.
Qed.

Lemma remove_edges_NoDup :
  forall (l : list (string * string)) (g : DiGraph),
    NoDup (dict_keys g) -> NoDup (dict_keys (remove_edges l g)).
Proof.
  unfold remove_edges. induction l as [| uv l IH]; intros g H; cbn [fold_left].
  - exact H.
  - apply IH. destruct (nx_has_edge g (fst uv) (snd uv)); [| exact H].
    apply nx_remove_edge_NoDup. exact H.
Qed.

(** Merging [nid] into the canonical node takes the data of [nid] away
    and leaves the data of every other node as it is. *)
Lemma merge_into_node_data :
  forall (canonical : string) (g : DiGraph) (nid x : string),
    node_data (merge_into canonical g nid) x =
    if String.eqb x nid && negb (String.eqb nid canonical) then None
    else node_data g x.
Proof.
  intros canonical g nid x. unfold merge_into.
  destruct (String.eqb nid canonical); cbn [negb].
  - rewrite andb_false_r. reflexivity.
  - rewrite andb_true_r.
    destruct (nx_has_node g nid) eqn:Hn; cbn [negb].
    + set (g2 := remove_edges _ (add_edges _ g)).
      assert (Hd : forall y, node_data g2 y = node_data g y).
      { intro y. unfold g2. rewrite remove_edges_node_data. apply add_edges_node_data. }
      destruct (nx_has_node g2 nid) eqn:Hn2.
      * rewrite node_data_remove_node, Hd. reflexivity.
      * rewrite Hd. destruct (String.eqb_spec x nid) as [-> | _]; [| reflexivity].
        rewrite <- Hd. unfold node_data. unfold nx_has_node, dict_mem in Hn2.
        destruct (dict_get nid g2); [discriminate | reflexivity].
    + destruct (String.eqb_spec x nid) as [-> | _]; [| reflexivity].
      unfold node_data. unfold nx_has_node, dict_mem in Hn.
      destruct (dict_get nid g); [discriminate | reflexivity].
Qed.

Lemma merge_into_NoDup :
  forall (canonical : string) (g : DiGraph) (nid : string),
    NoDup (dict_keys g) -> NoDup (dict_keys (merge_into canonical g nid)).
Proof.
  intros canonical g nid H. unfold merge_into.
  destruct (String.eqb nid canonical); [exact H |].
  destruct (negb (nx_has_node g nid)); [exact H |].
  set (g2 := remove_edges _ (add_edges _ g)).
  assert (H2 : NoDup (dict_keys g2))
    by (apply remove_edges_NoDup, add_edges_NoDup; exact H).
  destruct (nx_has_node g2 nid); [apply nx_remove_node_NoDup |]; exact H2.
Qed.

(** The data of the nodes after the loop over the ids of one group. *)
Lemma merge_all_node_data :
  forall (canonical : string) (ids : list string) (g : DiGraph) (x : string),
    node_data (fold_left (merge_into canonical) ids g) x =
    if existsb (String.eqb x) ids && negb (String.eqb x canonical) then None
    else node_data g x.
Proof.
  intros canonical. induction ids as [| nid ids IH]; intros g x; cbn [fold_left existsb].
  - reflexivity.
  - rewrite IH, merge_into_node_data.
    destruct (String.eqb_spec x nid) as [-> | _]; cbn [orb andb].
    + destruct (String.eqb nid canonical); cbn [negb]; rewrite ?andb_false_r;
        cbn [andb]; try reflexivity.
      destruct (existsb (String.eqb nid) ids); reflexivity.
    + reflexivity.
Qed.

Lemma merge_all_NoDup :
  forall (canonical : string) (ids : list string) (g : DiGraph),
    NoDup (dict_keys g) -> NoDup (dict_keys (fold_left (merge_into canonical) ids g)).
Proof.
  intros canonical. induction ids as [| nid ids IH]; intros g H; cbn [fold_left].
  - exact H.
  - apply IH, merge_into_NoDup, H.
Qed.

(* ================================================================== *)
(** * Grouping the nodes by simple name *)

Lemma group_append_get :
  forall (nm' k : string) (groups : dict (list string)) (nm : string),
    dict_get nm (group_append nm' k groups) =
    if String.eqb nm nm'
    then Some (match dict_get nm' groups with
               | Some ids => ids ++ [k]
               | None => [k]
               end)
    else dict_get nm groups.
Proof.
  intros nm' k groups nm. unfold group_append.
  destruct (dict_get nm' groups) as [ids |] eqn:E.
  - destruct (String.eqb_spec nm nm') as [-> | Hne].
    + apply dict_get_set_same.
    + apply dict_get_set_other. intro H. apply Hne. symmetry. exact H.
  - rewrite dict_get_app.
    destruct (String.eqb_spec nm nm') as [-> | Hne].
    + rewrite E. cbn. rewrite String.eqb_refl. reflexivity.
    + destruct (dict_get nm groups); [reflexivity |]. cbn.
      rewrite eqb_neq_false by exact Hne. reflexivity.
Qed.

Lemma group_append_NoDup :
  forall (nm k : string) (groups : dict (list string)),
    NoDup (dict_keys groups) -> NoDup (dict_keys (group_append nm k groups)).
Proof.
  intros nm k groups H. unfold group_append.
  destruct (dict_get nm groups) as [ids |] eqn:E.
  - rewrite dict_set_keys with (1 := E). exact H.
  - apply NoDup_keys_snoc; assumption.
Qed.

Lemma simple_to_ids_snoc :
  forall (g : DiGraph) (ue : string * nx_entry),
    simple_to_ids (g ++ [ue]) =
    match attr_name (snd ue) with
    | Some nm =>
        if truthy nm then group_append nm (fst ue) (simple_to_ids g)
        else simple_to_ids g
    | None => simple_to_ids g
    end.
Proof.
  intros g ue. unfold simple_to_ids. rewrite fold_left_app. reflexivity.
Qed.

Lemma named_snoc :
  forall (nm : string) (g : DiGraph) (ue : string * nx_entry),
    named nm (g ++ [ue]) = named nm g ++ (if is_named nm ue then [fst ue] else []).
Proof.
  intros nm g ue. unfold named, dict_keys. rewrite filter_app, map_app. cbn.
  destruct (is_named nm ue); reflexivity.
Qed.

(** The groups are the lists of equally named ids, one per name. *)
Lemma simple_to_ids_spec :
  forall g : DiGraph,
    NoDup (dict_keys (simple_to_ids g))
    /\ forall nm, dict_get nm (simple_to_ids g) =
                  match named nm g with
                  | [] => None
                  | ids => Some ids
                  end.
Proof.
  induction g as [| ue g [IHnd IHget]] using rev_ind.
  - split; [constructor | reflexivity].
  - rewrite simple_to_ids_snoc. split.
    + destruct (attr_name (snd ue)) as [x |]; [| exact IHnd].
      destruct (truthy x); [| exact IHnd].
      apply group_append_NoDup. exact IHnd.
    + intro nm. rewrite named_snoc. unfold is_named.
      destruct (attr_name (snd ue)) as [x |];
        [| rewrite app_nil_r; apply IHget].
      destruct (truthy x); cbn [andb];
        [| rewrite app_nil_r; apply IHget].
      rewrite group_append_get.
      destruct (String.eqb_spec nm x) as [-> | Hne].
      * rewrite String.eqb_refl, IHget.
        destruct (named x g); reflexivity.
      * rewrite eqb_neq_false by (intro E; apply Hne; symmetry; exact E).
        rewrite app_nil_r. apply IHget.
Qed.

Lemma group_is_named :
  forall (g : DiGraph) (nm : string) (ids : list string),
    In (nm, ids) (simple_to_ids g) -> ids = named nm g.
Proof.
  intros g nm ids Hin. destruct (simple_to_ids_spec g) as [Hnd Hget].
  apply dict_In_get in Hin; [| exact Hnd]. rewrite Hget in Hin.
  destruct (named nm g); [discriminate | congruence].
Qed.

Lemma named_In :
  forall (g : DiGraph) (nm a : string),
    In a (named nm g) <-> exists e, In (a, e) g /\ is_named nm (a, e) = true.
Proof.
  intros g nm a. unfold named, dict_keys. rewrite in_map_iff. split.
  - intros ([a' e] & E & Hin). cbn in E. subst a'. apply filter_In in Hin.
    exists e. exact Hin.
  - intros (e & Hin & Hn). exists (a, e). split; [reflexivity |].
    apply filter_In. split; assumption.
Qed.

(** A node with data and a truthy name is in the group of its name. *)
Lemma node_in_group :
  forall (g : DiGraph) (a : string) (d : GraphNode),
    node_data g a = Some d -> truthy (name d) = true ->
    exists ids, In (name d, ids) (simple_to_ids g) /\ In a ids.
Proof.
  intros g a d Hd Ht. unfold node_data in Hd.
  destruct (dict_get a g) as [e |] eqn:E; [| discriminate].
  assert (Hin : In a (named (name d) g)).
  { apply named_In. exists e. split; [apply dict_get_In; exact E |].
    unfold is_named, attr_name. cbn [snd]. rewrite Hd, Ht, String.eqb_refl.
    reflexivity. }
  destruct (simple_to_ids_spec g) as [_ Hget]. specialize (Hget (name d)).
  destruct (named (name d) g) as [| i ids] eqn:En; [contradiction |].
  exists (i :: ids). split; [apply dict_get_In; exact Hget | exact Hin].
Qed.

(** With unique node ids, the members of a group carry its name. *)
Lemma group_member_data :
  forall (g : DiGraph) (nm a : string),
    NoDup (dict_keys g) -> In a (named nm g) ->
    exists d, node_data g a = Some d /\ name d = nm /\ truthy nm = true.
Proof.
  intros g nm a Hnd Hin. apply named_In in Hin. destruct Hin as (e & Hin & Hn).
  apply dict_In_get in Hin; [| exact Hnd]. unfold is_named, attr_name in Hn. cbn [snd] in Hn.
  destruct (n_data e) as [d |] eqn:Ed; [| discriminate].
  apply andb_true_iff in Hn. destruct Hn as [Ht He].
  apply String.eqb_eq in He. exists d. unfold node_data. rewrite Hin.
  subst nm. auto.
Qed.

Lemma named_NoDup :
  forall (g : DiGraph) (nm : string), NoDup (dict_keys g) -> NoDup (named nm g).
Proof.
  intros g nm H. unfold named. apply NoDup_keys_filter. exact H.
Qed.

(* ================================================================== *)
(** * Canonicalization *)

Lemma merge_group_cases :
  forall (nm : string) (ids : list string) (g g' : DiGraph),
    merge_group (nm, ids) g = Ok g' ->
    (List.length ids <= 1 /\ g' = g)
    \/ (2 <= List.length ids
        /\ exists c, min_by (score g) ids = Ok c
                     /\ g' = fold_left (merge_into c) ids g).
Proof.
  intros nm ids g g'. unfold merge_group. cbn [snd].
  destruct (Nat.leb_spec (List.length ids) 1) as [Hle | Hgt].
  - intro H. inversion H. left. split; [exact Hle | reflexivity].
  - destruct (min_by (score g) ids) as [c |] eqn:Ec; cbn [bind]; [| discriminate].
    intro H. inversion H. right. split; [lia |]. exists c. split; reflexivity.
Qed.

Lemma existsb_eqb_In :
  forall (x : string) (l : list string), In x l -> existsb (String.eqb x) l = true.
Proof.
  intros x l H. apply existsb_exists. exists x. split; [exact H |].
  apply String.eqb_refl.
Qed.

Lemma existsb_eqb_not_In :
  forall (x : string) (l : list string), ~ In x l -> existsb (String.eqb x) l = false.
Proof.
  intros x l H. destruct (existsb (String.eqb x) l) eqn:E; [| reflexivity].
  apply existsb_exists in E. destruct E as (y & Hy & Exy).
  apply String.eqb_eq in Exy. subst y. contradiction.
Qed.

Lemma merge_group_mono :
  forall (grp : string * list string) (g g' : DiGraph) (x : string) (d : GraphNode),
    merge_group grp g = Ok g' -> node_data g' x = Some d -> node_data g x = Some d.
Proof.
  intros [nm ids] g g' x d Hrun Hd.
  destruct (merge_group_cases _ _ _ _ Hrun) as [[_ ->] | [_ (c & _ & ->)]];
    [exact Hd |].
  rewrite merge_all_node_data in Hd.
  destruct (existsb (String.eqb x) ids && negb (String.eqb x c));
    [discriminate | exact Hd].
Qed.

Lemma merge_groups_mono :
  forall (groups : dict (list string)) (g g1 : DiGraph) (x : string) (d : GraphNode),
    for_each merge_group groups g = Ok g1 ->
    node_data g1 x = Some d -> node_data g x = Some d.
Proof.
  induction groups as [| grp groups IH]; intros g g1 x d Hrun Hd; cbn [for_each] in Hrun.
  - inversion Hrun. subst g1. exact Hd.
  - destruct (merge_group grp g) as [g' |] eqn:Eg; cbn [bind] in Hrun; [| discriminate].
    apply (merge_group_mono _ _ _ _ _ Eg). exact (IH _ _ _ _ Hrun Hd).
Qed.

Lemma merge_group_NoDup :
  forall (grp : string * list string) (g g' : DiGraph),
    merge_group grp g = Ok g' -> NoDup (dict_keys g) -> NoDup (dict_keys g').
Proof.
  intros [nm ids] g g' Hrun Hnd.
  destruct (merge_group_cases _ _ _ _ Hrun) as [[_ ->] | [_ (c & _ & ->)]];
    [exact Hnd |].
  apply merge_all_NoDup. exact Hnd.
Qed.

Lemma merge_groups_NoDup :
  forall (groups : dict (list string)) (g g1 : DiGraph),
    for_each merge_group groups g = Ok g1 ->
    NoDup (dict_keys g) -> NoDup (dict_keys g1).
Proof.
  induction groups as [| grp groups IH]; intros g g1 Hrun Hnd; cbn [for_each] in Hrun.
  - inversion Hrun. subst g1. exact Hnd.
  - destruct (merge_group grp g) as [g' |] eqn:Eg; cbn [bind] in Hrun; [| discriminate].
    apply (IH _ _ Hrun). exact (merge_group_NoDup _ _ _ Eg Hnd).
Qed.

(** After the run, of two ids of one group at most one still has data. *)
Lemma merge_groups_dedup :
  forall (groups : dict (list string)) (g g1 : DiGraph)
         (nm : string) (ids : list string) (a b : string),
    for_each merge_group groups g = Ok g1 ->
    In (nm, ids) groups -> In a ids -> In b ids -> a <> b ->
    node_data g1 a = None \/ node_data g1 b = None.
Proof.
  induction groups as [| grp groups IH]; intros g g1 nm ids a b Hrun Hin Ha Hb Hab;
    [contradiction |].
  cbn [for_each] in Hrun.
  destruct (merge_group grp g) as [g' |] eqn:Eg; cbn [bind] in Hrun; [| discriminate].
  destruct Hin as [-> | Hin]; [| exact (IH _ _ _ _ _ _ Hrun Hin Ha Hb Hab)].
  assert (Hgone : forall x, node_data g' x = None -> node_data g1 x = None).
  { intros x Hx. destruct (node_data g1 x) as [d |] eqn:E; [| reflexivity].
    rewrite (merge_groups_mono _ _ _ _ _ Hrun E) in Hx. discriminate. }
  destruct (merge_group_cases _ _ _ _ Eg) as [[Hle _] | [_ (c & _ & ->)]].
  - exfalso. destruct ids as [| i [| j ids]]; cbn in Hle; try lia.
    + contradiction.
    + destruct Ha as [<- | []], Hb as [<- | []]. apply Hab. reflexivity.
  - destruct (String.eqb_spec a c) as [-> | Hac].
    + right. apply Hgone. rewrite merge_all_node_data, (existsb_eqb_In _ _ Hb).
      rewrite eqb_neq_false by (intro E; apply Hab; symmetry; exact E).
      reflexivity.
    + left. apply Hgone. rewrite merge_all_node_data, (existsb_eqb_In _ _ Ha).
      rewrite eqb_neq_false by exact Hac. reflexivity.
Qed.

(** After one run no two nodes share a simple name. *)
Lemma merge_names_unique :
  forall g g1 : DiGraph, merge_nodes_by_reference g = Ok g1 -> names_unique g1.
Proof.
  intros g g1 Hrun a b da db Ha Hb Ht Hn.
  destruct (string_dec a b) as [E | Hab]; [exact E | exfalso].
  unfold merge_nodes_by_reference in Hrun.
  pose proof (merge_groups_mono _ _ _ _ _ Hrun Ha) as Ha0.
  pose proof (merge_groups_mono _ _ _ _ _ Hrun Hb) as Hb0.
  destruct (node_in_group _ _ _ Ha0 Ht) as (ids & Hgrp & Hina).
  rewrite Hn in Ht.
  destruct (node_in_group _ _ _ Hb0 Ht) as (ids' & Hgrp' & Hinb).
  rewrite (group_is_named _ _ _ Hgrp') in Hinb. rewrite <- Hn in Hinb.
  rewrite <- (group_is_named _ _ _ Hgrp) in Hinb.
  destruct (merge_groups_dedup _ _ _ _ _ _ _ Hrun Hgrp Hina Hinb Hab); congruence.
Qed.

(** On a graph without shared names the run changes nothing. *)
Lemma merge_noop :
  forall g : DiGraph,
    NoDup (dict_keys g) -> names_unique g -> merge_nodes_by_reference g = Ok g.
Proof.
  intros g Hnd Huniq. unfold merge_nodes_by_reference.
  apply for_each_noop. intros [nm ids] Hin.
  pose proof (group_is_named _ _ _ Hin) as Hids.
  unfold merge_group. cbn [snd].
  destruct (Nat.leb_spec (List.length ids) 1) as [_ | Hgt]; [reflexivity | exfalso].
  pose proof (named_NoDup g nm Hnd) as Hnodup. rewrite <- Hids in Hnodup.
  destruct ids as [| a [| b ids]]; cbn in Hgt; try lia.
  assert (Ha : In a (named nm g)) by (rewrite <- Hids; left; reflexivity).
  assert (Hb : In b (named nm g)) by (rewrite <- Hids; right; left; reflexivity).
  destruct (group_member_data _ _ _ Hnd Ha) as (da & Hda & Hna & Ht).
  destruct (group_member_data _ _ _ Hnd Hb) as (db & Hdb & Hnb & _).
  assert (E : a = b).
  { apply (Huniq a b da db Hda Hdb); [rewrite Hna; exact Ht | congruence]. }
  inversion Hnodup as [| ? ? Hnotin _]. subst. apply Hnotin. left. reflexivity.
Qed.

Lemma score_ok :
  forall (g : DiGraph) (x : string) (d : GraphNode),
    node_data g x = Some d -> str_partition colon x <> None ->
    exists pkg, score g x = Ok ((- (if has_source_file d then 1 else 0))%Z, pkg).
Proof.
  intros g x d Hd Hc. unfold score, node_data in *.
  destruct (dict_get x g) as [e |]; [| discriminate].
  rewrite Hd. unfold str_split1.
  destruct (str_partition colon x) as [[h t] |]; [| contradiction].
  exists t. reflexivity.
Qed.

Lemma min_from_ok :
  forall (key : string -> result (Z * string)) (rest : list string)
         (best : string) (best_key : Z * string),
    (forall x, In x rest -> exists k, key x = Ok k) ->
    exists c, min_from key best best_key rest = Ok c /\ (c = best \/ In c rest).
Proof.
  intros key. induction rest as [| x rest IH]; intros best best_key H; cbn [min_from].
  - exists best. auto.
  - destruct (H x (or_introl eq_refl)) as [k Hk]. rewrite Hk. cbn [bind].
    assert (H' : forall y, In y rest -> exists k, key y = Ok k)
      by (intros y Hy; apply H; right; exact Hy).
    destruct (key_lt k best_key).
    + destruct (IH x k H') as (c & Hc & Hin). exists c. split; [exact Hc |].
      right. destruct Hin as [-> | Hin]; [left; reflexivity | right; exact Hin].
    + destruct (IH best best_key H') as (c & Hc & Hin). exists c. split; [exact Hc |].
      destruct Hin as [-> | Hin]; [left; reflexivity | right; right; exact Hin].
Qed.

Lemma min_by_ok :
  forall (key : string -> result (Z * string)) (ids : list string),
    ids <> [] ->
    (forall x, In x ids -> exists k, key x = Ok k) ->
    exists c, min_by key ids = Ok c /\ In c ids.
Proof.
  intros key [| x rest] Hne H; [contradiction |]. cbn [min_by].
  destruct (H x (or_introl eq_refl)) as [k Hk]. rewrite Hk. cbn [bind].
  destruct (min_from_ok key rest x k) as (c & Hc & Hin).
  - intros y Hy. apply H. right. exact Hy.
  - exists c. split; [exact Hc |]. destruct Hin as [-> | Hin]; [left | right]; auto.
Qed.

Lemma merge_groups_total :
  forall (groups : dict (list string)) (g : DiGraph),
    NoDup (dict_keys groups) ->
    (forall nm ids x,
        In (nm, ids) groups -> In x ids ->
        exists d, node_data g x = Some d /\ name d = nm
                  /\ str_partition colon x <> None) ->
    exists g1, for_each merge_group groups g = Ok g1.
Proof.
  induction groups as [| [nm ids] groups IH]; intros g Hnd Hmem; cbn [for_each].
  - exists g. reflexivity.
  - inversion Hnd as [| ? ? Hnotin Hnd']. subst.
    assert (Hrest : forall g',
               (forall x, ~ In x ids -> node_data g' x = node_data g x) ->
               exists g1, for_each merge_group groups g' = Ok g1).
    { intros g' Hframe. apply IH; [exact Hnd' |].
      intros nm' ids' x Hin Hx.
      destruct (Hmem nm' ids' x (or_intror Hin) Hx) as (d & Hd & Hn & Hc).
      exists d. split; [| split; assumption].
      rewrite Hframe; [exact Hd |].
      intro Hxin.
      destruct (Hmem nm ids x (or_introl eq_refl) Hxin) as (d0 & Hd0 & Hn0 & _).
      apply Hnotin. apply (in_map fst) in Hin. cbn [fst] in Hin.
      replace nm with nm' by congruence. exact Hin. }
    unfold merge_group at 1. cbn [snd].
    destruct (Nat.leb_spec (List.length ids) 1) as [_ | Hgt]; cbn [bind].
    + apply Hrest. reflexivity.
    + destruct (min_by_ok (score g) ids) as (c & Hc & _).
      * destruct ids; [cbn in Hgt; lia | discriminate].
      * intros x Hx.
        destruct (Hmem nm ids x (or_introl eq_refl) Hx) as (d & Hd & _ & Hcolon).
        destruct (score_ok g x d Hd Hcolon) as [pkg Hs]. eexists. exact Hs.
      * rewrite Hc. cbn [bind]. apply Hrest. intros x Hx.
        rewrite merge_all_node_data, (existsb_eqb_not_In _ _ Hx). reflexivity.
Qed.

(** With unique node ids and composite ids the run returns a graph. *)
Lemma merge_total :
  forall g : DiGraph,
    NoDup (dict_keys g) -> ids_well_formed g ->
    exists g1, merge_nodes_by_reference g = Ok g1.
Proof.
  intros g Hnd Hwf. unfold merge_nodes_by_reference.
  apply merge_groups_total; [apply simple_to_ids_spec |].
  intros nm ids x Hin Hx. rewrite (group_is_named _ _ _ Hin) in Hx.
  destruct (group_member_data _ _ _ Hnd Hx) as (d & Hd & Hn & Ht).
  exists d. split; [exact Hd |]. split; [exact Hn |].
  apply (Hwf x d Hd). rewrite Hn. exact Ht.
Qed.

(** C3. [merge_nodes_by_reference] is idempotent: running it twice is
    running it once.  A run that returns leaves no two nodes with the same
    simple name, and a second run returns the very same graph, nodes and
    edges; on a graph whose named nodes have composite ids the run does
    return. *)
Theorem merge_nodes_by_reference_idempotent :
  forall g : DiGraph,
    NoDup (dict_keys g) ->
    (g1 <- merge_nodes_by_reference g ;; merge_nodes_by_reference g1)
    = merge_nodes_by_reference g
    /\ (forall g1, merge_nodes_by_reference g = Ok g1 ->
                   names_unique g1 /\ merge_nodes_by_reference g1 = Ok g1)
    /\ (ids_well_formed g -> exists g1, merge_nodes_by_reference g = Ok g1).
Proof.
  intros g Hnd.
  assert (Hsecond : forall g1, merge_nodes_by_reference g = Ok g1 ->
                               names_unique g1 /\ merge_nodes_by_reference g1 = Ok g1).
  { intros g1 Hrun. pose proof (merge_names_unique _ _ Hrun) as Hu.
    split; [exact Hu |]. apply merge_noop; [| exact Hu].
    exact (merge_groups_NoDup _ _ _ Hrun Hnd). }
  split; [| split; [exact Hsecond | apply merge_total; exact Hnd]].
  destruct (merge_nodes_by_reference g) as [g1 | e] eqn:E; cbn [bind]; [| reflexivity].
  apply Hsecond. reflexivity.
Qed.

(* ================================================================== *)
(** * Merging a placeholder into its definition *)

Lemma two_element_list :
  forall (l : list string) (A B : string),
    NoDup l -> In A l -> In B l -> A <> B ->
    (forall x, In x l -> x = A \/ x = B) ->
    l = [A; B] \/ l = [B; A].
Proof.
  intros l A B Hnd HA HB Hne Hall.
  destruct l as [| x [| y [| z r]]].
  - contradiction.
  - destruct HA as [<- | []], HB as [<- | []]. exfalso. apply Hne. reflexivity.
  - apply NoDup_cons_iff in Hnd. destruct Hnd as [Hxy _].
    assert (x <> y) by (intro E; apply Hxy; left; symmetry; exact E).
    destruct (Hall x (or_introl eq_refl)) as [-> | ->],
             (Hall y (or_intror (or_introl eq_refl))) as [-> | ->];
      auto; exfalso; auto.
  - exfalso.
    apply NoDup_cons_iff in Hnd. destruct Hnd as [Hx Hnd].
    apply NoDup_cons_iff in Hnd. destruct Hnd as [Hy _].
    assert (x <> y) by (intro E; apply Hx; left; symmetry; exact E).
    assert (x <> z) by (intro E; apply Hx; right; left; symmetry; exact E).
    assert (y <> z) by (intro E; apply Hy; left; symmetry; exact E).
    destruct (Hall x (or_introl eq_refl)) as [-> | ->],
             (Hall y (or_intror (or_introl eq_refl))) as [-> | ->],
             (Hall z (or_intror (or_intror (or_introl eq_refl)))) as [-> | ->];
      auto.
Qed.

Lemma NoDup_keys_pairs :
  forall (V : Type) (d : dict V), NoDup (dict_keys d) -> NoDup d.
Proof.
  intros V d. unfold dict_keys. apply NoDup_map_inv.
Qed.

Lemma edges_to_remove_touch :
  forall (g : DiGraph) (nid u v : string),
    In (u, v) (edges_to_remove g nid) -> u = nid \/ v = nid.
Proof.
  intros g nid u v H. unfold edges_to_remove in H. apply in_flat_map in H.
  destruct H as ([[u' v'] rel] & _ & H). apply in_app_or in H.
  destruct H as [H | H].
  - destruct (String.eqb_spec v' nid) as [-> | _]; cbn [andb] in H; [| contradiction].
    destruct (nx_has_node g u'); [| contradiction].
    destruct H as [E | []]. inversion E. right. reflexivity.
  - destruct (String.eqb_spec u' nid) as [-> | _]; cbn [andb] in H; [| contradiction].
    destruct (nx_has_node g v'); [| contradiction].
    destruct H as [E | []]. inversion E. left. reflexivity.
Qed.

(** An incoming edge of [nid] is redirected to the canonical node unless
    the redirected edge is there already. *)
Lemma edges_to_add_incoming :
  forall (g : DiGraph) (canonical nid u rel : string),
    In (u, nid, rel) (nx_edges g) ->
    nx_has_node g u = true ->
    nx_has_edge g u canonical = false ->
    In (u, canonical, rel) (edges_to_add g canonical nid).
Proof.
  intros g canonical nid u rel Hin Hu Hno. unfold edges_to_add.
  apply in_flat_map. exists (u, nid, rel). split; [exact Hin |].
  apply in_or_app. left. rewrite String.eqb_refl, Hu, Hno. left. reflexivity.
Qed.

Lemma has_node_of_data :
  forall (g : DiGraph) (x : string) (d : GraphNode),
    node_data g x = Some d -> nx_has_node g x = true.
Proof.
  intros g x d. unfold node_data, nx_has_node, dict_mem.
  destruct (dict_get x g); [reflexivity | discriminate].
Qed.

(** What merging the placeholder [B] into [A] does to an edge [C -> B]. *)
Lemma merge_into_redirects :
  forall (g : DiGraph) (A B C : string),
    A <> B -> C <> A -> C <> B ->
    nx_has_node g A = true -> nx_has_node g B = true -> nx_has_node g C = true ->
    nx_has_edge g C B = true ->
    let g1 := merge_into A g B in
    nx_has_node g1 A = true /\ nx_has_node g1 B = false /\ nx_has_node g1 C = true
    /\ nx_has_edge g1 C A = true /\ nx_has_edge g1 C B = false.
Proof.
  intros g A B C HAB HCA HCB HA HB HC Hedge. cbv zeta. unfold merge_into.
  rewrite eqb_neq_false by (intro E; apply HAB; symmetry; exact E).
  rewrite HB. cbn [negb].
  set (g2 := add_edges (edges_to_add g A B) g).
  set (g3 := remove_edges (edges_to_remove g B) g2).
  assert (Hn3 : forall x, nx_has_node g x = true -> nx_has_node g3 x = true).
  { intros x Hx. unfold g3. rewrite remove_edges_has_node.
    apply add_edges_has_node. exact Hx. }
  rewrite (Hn3 B HB).
  rewrite !has_node_remove_node, !has_edge_remove_node.
  rewrite (Hn3 A HA), (Hn3 C HC), String.eqb_refl.
  rewrite (eqb_neq_false _ _ HAB), (eqb_neq_false _ _ HCB). cbn [negb andb].
  repeat split; try reflexivity.
  unfold g3. rewrite remove_edges_keeps.
  - unfold g2. destruct (nx_has_edge g C A) eqn:Eca.
    + apply add_edges_has_edge. exact Eca.
    + destruct (has_edge_listed g C B Hedge) as [rel Hrel].
      apply add_edges_adds with (rel := rel).
      apply edges_to_add_incoming; assumption.
  - intro Hin. apply edges_to_remove_touch in Hin. destruct Hin; congruence.
Qed.

Lemma merge_into_self :
  forall (canonical : string) (g : DiGraph), merge_into canonical g canonical = g.
Proof.
  intros canonical g. unfold merge_into. rewrite String.eqb_refl. reflexivity.
Qed.

Lemma min_by_prefers_source :
  forall (g : DiGraph) (A B pa pb : string),
    score g A = Ok ((-1)%Z, pa) -> score g B = Ok (0%Z, pb) ->
    min_by (score g) [A; B] = Ok A /\ min_by (score g) [B; A] = Ok A.
Proof.
  intros g A B pa pb HA HB. cbn [min_by min_from]. rewrite HA, HB.
  split; reflexivity.
Qed.

(** C2. In a graph where [A] and [B] are the only two nodes with the same
    simple name, [A] with a source file and [B] without, and a third node
    [C] has an edge to [B]: one run of [merge_nodes_by_reference] returns
    a graph, the canonical node is [A], [B] is gone, the edge [C -> A]
    exists and the edge [C -> B] does not. *)
Theorem merge_redirects_to_definition :
  forall (g : DiGraph) (A B C : string) (da db : GraphNode),
    NoDup (dict_keys g) ->
    node_data g A = Some da -> node_data g B = Some db ->
    A <> B -> truthy (name da) = true -> name db = name da ->
    only_shared_pair g A B ->
    has_source_file da = true -> has_source_file db = false ->
    str_partition colon A <> None -> str_partition colon B <> None ->
    nx_has_node g C = true -> C <> A -> C <> B ->
    nx_has_edge g C B = true ->
    exists g1,
      merge_nodes_by_reference g = Ok g1
      /\ canonical_of g (name da) = Ok A
      /\ node_data g1 A = Some da
      /\ nx_has_node g1 A = true
      /\ nx_has_node g1 B = false
      /\ nx_has_node g1 C = true
      /\ nx_has_edge g1 C A = true
      /\ nx_has_edge g1 C B = false.
Proof.
  intros g A B C da db Hnd HdA HdB HAB Ht Hname Hpair HsA HsB HcA HcB HC HCA HCB Hedge.
  set (nm := name da) in *.
  destruct (simple_to_ids_spec g) as [Hgnd Hget].
  (* the group of the shared name *)
  assert (HinA : In A (named nm g)).
  { destruct (node_in_group g A da HdA Ht) as (ids & Hg & Hi).
    rewrite (group_is_named _ _ _ Hg) in Hi. exact Hi. }
  assert (HinB : In B (named nm g)).
  { assert (Ht' : truthy (name db) = true) by (rewrite Hname; exact Ht).
    destruct (node_in_group g B db HdB Ht') as (ids & Hg & Hi).
    rewrite (group_is_named _ _ _ Hg), Hname in Hi. exact Hi. }
  assert (Hgroup : named nm g = [A; B] \/ named nm g = [B; A]).
  { apply two_element_list; auto using named_NoDup.
    intros x Hx. destruct (string_dec x A) as [E | Hne]; [left; exact E | right].
    destruct (group_member_data g nm x Hnd Hx) as (dx & Hdx & Hnx & Htx).
    destruct (Hpair x A dx da Hdx HdA) as [[E _] | [E _]]; auto.
    - rewrite Hnx. exact Htx.
    - contradiction. }
  assert (Hsome : dict_get nm (simple_to_ids g) = Some (named nm g)).
  { rewrite Hget. destruct (named nm g); [contradiction | reflexivity]. }
  (* every other group is skipped *)
  assert (Hskip : forall y, In y (simple_to_ids g) -> y <> (nm, named nm g) ->
                            forall s, merge_group y s = Ok s).
  { intros [nm' ids'] Hy Hne s. unfold merge_group. cbn [snd].
    destruct (Nat.leb_spec (List.length ids') 1) as [_ | Hgt]; [reflexivity | exfalso].
    pose proof (group_is_named _ _ _ Hy) as Hids.
    pose proof (named_NoDup g nm' Hnd) as Hnodup. rewrite <- Hids in Hnodup.
    destruct ids' as [| a [| b r]]; cbn in Hgt; try lia.
    assert (Ha : In a (named nm' g)) by (rewrite <- Hids; left; reflexivity).
    assert (Hb : In b (named nm' g)) by (rewrite <- Hids; right; left; reflexivity).
    destruct (group_member_data g nm' a Hnd Ha) as (xa & Hxa & Hna & Hta).
    destruct (group_member_data g nm' b Hnd Hb) as (xb & Hxb & Hnb & _).
    assert (Hab : a <> b).
    { intro E. subst b. apply NoDup_cons_iff in Hnodup. apply (proj1 Hnodup).
      left. reflexivity. }
    assert (Enm : nm' = nm).
    { destruct (Hpair a b xa xb Hxa Hxb) as [[E _] | [_ E]]; auto.
      - rewrite Hna. exact Hta.
      - congruence.
      - subst a. unfold nm. congruence.
      - subst b. unfold nm. congruence. }
    apply Hne. rewrite Hids, Enm. reflexivity. }
  assert (Hrun : merge_nodes_by_reference g = merge_group (nm, named nm g) g).
  { unfold merge_nodes_by_reference. apply for_each_only.
    - apply NoDup_keys_pairs. exact Hgnd.
    - apply dict_get_In. exact Hsome.
    - exact Hskip. }
  (* the canonical node *)
  destruct (score_ok g A da HdA HcA) as [pa HscA].
  destruct (score_ok g B db HdB HcB) as [pb HscB].
  rewrite HsA in HscA. rewrite HsB in HscB.
  destruct (min_by_prefers_source g A B pa pb HscA HscB) as [Hmin1 Hmin2].
  assert (Hcanon : min_by (score g) (named nm g) = Ok A)
    by (destruct Hgroup as [-> | ->]; assumption).
  assert (Hfold : fold_left (merge_into A) (named nm g) g = merge_into A g B).
  { destruct Hgroup as [-> | ->]; cbn [fold_left];
      rewrite merge_into_self; reflexivity. }
  exists (merge_into A g B). split; [| split; [| split]].
  - rewrite Hrun. unfold merge_group. cbn [snd].
    destruct (Nat.leb_spec (List.length (named nm g)) 1) as [Hle | _].
    + exfalso. destruct Hgroup as [E | E]; rewrite E in Hle; cbn in Hle; lia.
    + rewrite Hcanon. cbn [bind]. rewrite Hfold. reflexivity.
  - unfold canonical_of. rewrite Hsome. exact Hcanon.
  - rewrite merge_into_node_data, (eqb_neq_false _ _ HAB). exact HdA.
  - apply merge_into_redirects; auto.
    + exact (has_node_of_data g A da HdA).
    + exact (has_node_of_data g B db HdB).
Qed.

(* ================================================================== *)
(** * The graph of the merge test *)

Lemma test_merge_graph_NoDup : NoDup (dict_keys test_merge_graph).
Proof.
  cbn. repeat constructor; cbn; intuition discriminate.
Qed.

Lemma test_merge_graph_data :
  forall (x : string) (d : GraphNode),
    node_data test_merge_graph x = Some d ->
    (x = "function:dummy.Test" /\ name d = "Test")
    \/ (x = "function:dummy_alt.Test" /\ name d = "Test")
    \/ (x = "function:dummy.func" /\ name d = "func").
Proof.
  intros x d. unfold node_data. cbn.
  destruct (String.eqb_spec x "function:dummy.Test") as [-> | _];
    [intro H; inversion H; auto |].
  destruct (String.eqb_spec x "function:dummy_alt.Test") as [-> | _];
    [intro H; inversion H; auto |].
  destruct (String.eqb_spec x "function:dummy.func") as [-> | _];
    [intro H; inversion H; auto | discriminate].
Qed.

Lemma test_merge_graph_pair :
  only_shared_pair test_merge_graph "function:dummy.Test" "function:dummy_alt.Test".
Proof.
  intros x y dx dy Hx Hy _ Hn Hxy.
  destruct (test_merge_graph_data x dx Hx) as [[-> Nx] | [[-> Nx] | [-> Nx]]];
    destruct (test_merge_graph_data y dy Hy) as [[-> Ny] | [[-> Ny] | [-> Ny]]];
    auto; try congruence.
Qed.

(** The test of the repository: [function:dummy.Test] is canonical, the
    placeholder is gone and the caller's edge points to the definition. *)
Lemma merge_redirects_to_definition_witness :
  exists g1,
    merge_nodes_by_reference test_merge_graph = Ok g1
    /\ nx_has_node g1 "function:dummy.Test" = true
    /\ nx_has_node g1 "function:dummy_alt.Test" = false
    /\ nx_has_edge g1 "function:dummy.func" "function:dummy.Test" = true
    /\ nx_has_edge g1 "function:dummy.func" "function:dummy_alt.Test" = false.
Proof.
  assert (HAB : "function:dummy.Test" <> "function:dummy_alt.Test") by discriminate.
  assert (HCA : "function:dummy.func" <> "function:dummy.Test") by discriminate.
  assert (HCB : "function:dummy.func" <> "function:dummy_alt.Test") by discriminate.
  assert (HcA : str_partition colon "function:dummy.Test" <> None) by discriminate.
  assert (HcB : str_partition colon "function:dummy_alt.Test" <> None) by discriminate.
  destruct (merge_redirects_to_definition test_merge_graph
              "function:dummy.Test" "function:dummy_alt.Test" "function:dummy.func"
              (create_test_node "function:dummy.Test" "Test" (Some "dummy.py"))
              (create_test_node "function:dummy_alt.Test" "Test" None)
              test_merge_graph_NoDup eq_refl eq_refl HAB eq_refl eq_refl
              test_merge_graph_pair eq_refl eq_refl HcA HcB eq_refl HCA HCB eq_refl)
    as (g1 & Hrun & _ & _ & HA & HB & _ & HCA' & HCB').
  exists g1. repeat split; assumption.
Defined.

(** On the test graph a second run returns what the first run returned. *)
Lemma merge_nodes_by_reference_idempotent_witness :
  (g1 <- merge_nodes_by_reference test_merge_graph ;; merge_nodes_by_reference g1)
  = merge_nodes_by_reference test_merge_graph
  /\ exists g1, merge_nodes_by_reference test_merge_graph = Ok g1.
Proof.
  destruct (merge_nodes_by_reference_idempotent test_merge_graph
              test_merge_graph_NoDup) as (Htwice & _ & _).
  split; [exact Htwice |]. eexists. reflexivity.
Defined.
(* ================================================================== *)
(** * Adding nodes to the graph *)

Lemma nx_add_node_get :
  forall (g : DiGraph) (n : string) (data : option GraphNode) (x : string),
    dict_get x (nx_add_node g n data) =
    if String.eqb x n
    then Some (mkEntry data (match dict_get n g with
                             | Some e => n_succ e
                             | None => []
                             end))
    else dict_get x g.
Proof.
  intros g n data x. unfold nx_add_node.
  destruct (String.eqb_spec x n) as [-> | Hne].
  - destruct (dict_get n g) as [e |] eqn:E.
    + apply dict_get_set_same.
    + rewrite dict_get_app, E. cbn. rewrite String.eqb_refl. reflexivity.
  - destruct (dict_get n g) as [e |] eqn:E.
    + apply dict_get_set_other. congruence.
    + rewrite dict_get_app. destruct (dict_get x g); [reflexivity |].
      cbn. rewrite (eqb_neq_false _ _ Hne). reflexivity.
Qed.

Lemma node_data_add_node :
  forall (g : DiGraph) (n : string) (data : option GraphNode) (x : string),
    node_data (nx_add_node g n data) x = if String.eqb x n then data else node_data g x.
Proof.
  intros. unfold node_data. rewrite nx_add_node_get.
  destruct (String.eqb x n); reflexivity.
Qed.

Lemma has_node_add_node :
  forall (g : DiGraph) (n : string) (data : option GraphNode) (x : string),
    nx_has_node (nx_add_node g n data) x = String.eqb x n || nx_has_node g x.
Proof.
  intros. unfold nx_has_node, dict_mem. rewrite nx_add_node_get.
  destruct (String.eqb x n); reflexivity.
Qed.

Lemma has_edge_add_node :
  forall (g : DiGraph) (n : string) (data : option GraphNode) (x y : string),
    nx_has_edge (nx_add_node g n data) x y = nx_has_edge g x y.
Proof.
  intros. unfold nx_has_edge. rewrite nx_add_node_get.
  destruct (String.eqb_spec x n) as [-> | Hne]; [| reflexivity].
  destruct (dict_get n g); reflexivity.
Qed.

Lemma nx_add_node_NoDup :
  forall (g : DiGraph) (n : string) (data : option GraphNode),
    NoDup (dict_keys g) -> NoDup (dict_keys (nx_add_node g n data)).
Proof.
  intros g n data H. unfold nx_add_node.
  destruct (dict_get n g) as [e |] eqn:E.
  - rewrite (dict_set_keys _ _ _ _ _ E). exact H.
  - apply NoDup_keys_snoc; assumption.
Qed.

(* ================================================================== *)
(** * Building a graph from nodes *)

Lemma find_snoc :
  forall (A : Type) (p : A -> bool) (l : list A) (x : A),
    find p (l ++ [x]) =
    match find p l with
    | Some y => Some y
    | None => if p x then Some x else None
    end.
Proof.
  intros A p l x. induction l as [| a l IH]; cbn.
  - reflexivity.
  - destruct (p a); [reflexivity | exact IH].
Qed.

Lemma add_nodes_node_data :
  forall (nodes : list GraphNode) (g : DiGraph) (x : string),
    node_data (fold_left CodeGraph_add_node nodes g) x =
    match find (fun node => String.eqb x (id node)) (rev nodes) with
    | Some node => Some node
    | None => node_data g x
    end.
Proof.
  induction nodes as [| n nodes IH]; intros g x; cbn [fold_left rev].
  - reflexivity.
  - rewrite IH, find_snoc. unfold CodeGraph_add_node. rewrite node_data_add_node.
    destruct (find _ (rev nodes)); [reflexivity |].
    destruct (String.eqb x (id n)); reflexivity.
Qed.

Lemma add_nodes_has_edge :
  forall (nodes : list GraphNode) (g : DiGraph) (u v : string),
    nx_has_edge (fold_left CodeGraph_add_node nodes g) u v = nx_has_edge g u v.
Proof.
  induction nodes as [| n nodes IH]; intros g u v; cbn [fold_left].
  - reflexivity.
  - rewrite IH. apply has_edge_add_node.
Qed.

Lemma add_nodes_has_node :
  forall (nodes : list GraphNode) (g : DiGraph) (x : string),
    nx_has_node (fold_left CodeGraph_add_node nodes g) x
    = nx_has_node g x || existsb (fun node => String.eqb x (id node)) nodes.
Proof.
  induction nodes as [| n nodes IH]; intros g x; cbn [fold_left existsb].
  - rewrite orb_false_r. reflexivity.
  - rewrite IH. unfold CodeGraph_add_node. rewrite has_node_add_node.
    destruct (String.eqb x (id n)), (nx_has_node g x); reflexivity.
Qed.

(** The edges of one node, added from [source_id]. *)
Lemma add_node_edges_has_edge :
  forall (edges : list GraphEdge) (source_id : string) (g : DiGraph) (u v : string),
    nx_has_edge (fold_left (fun g edge => CodeGraph_add_edge g source_id edge) edges g) u v
    = nx_has_edge g u v
      || (String.eqb u source_id
          && existsb (fun edge => String.eqb v (target_node_id edge)) edges).
Proof.
  induction edges as [| e edges IH]; intros s g u v; cbn [fold_left existsb].
  - rewrite andb_false_r, orb_false_r. reflexivity.
  - rewrite IH. unfold CodeGraph_add_edge. rewrite has_edge_add_edge.
    destruct (nx_has_edge g u v), (String.eqb u s), (String.eqb v (target_node_id e));
      reflexivity.
Qed.

Lemma add_node_edges_has_node :
  forall (edges : list GraphEdge) (source_id : string) (g : DiGraph) (x : string),
    nx_has_node (fold_left (fun g edge => CodeGraph_add_edge g source_id edge) edges g) x
    = nx_has_node g x
      || (match edges with [] => false | _ => String.eqb x source_id end)
      || existsb (fun edge => String.eqb x (target_node_id edge)) edges.
Proof.
  induction edges as [| e edges IH]; intros s g x; cbn [fold_left existsb].
  - rewrite !orb_false_r. reflexivity.
  - rewrite IH. unfold CodeGraph_add_edge. rewrite has_node_add_edge.
    destruct (nx_has_node g x), (String.eqb x s), (String.eqb x (target_node_id e)),
      edges; reflexivity.
Qed.

Lemma add_node_edges_node_data :
  forall (edges : list GraphEdge) (source_id : string) (g : DiGraph) (x : string),
    node_data (fold_left (fun g edge => CodeGraph_add_edge g source_id edge) edges g) x
    = node_data g x.
Proof.
  induction edges as [| e edges IH]; intros s g x; cbn [fold_left].
  - reflexivity.
  - rewrite IH. apply node_data_add_edge.
Qed.

Lemma add_all_edges_has_edge :
  forall (nodes : list GraphNode) (g : DiGraph) (u v : string),
    nx_has_edge
      (fold_left (fun g node =>
                    fold_left (fun g edge => CodeGraph_add_edge g (id node) edge)
                      (relationships node) g)
         nodes g) u v
    = nx_has_edge g u v
      || existsb (fun node =>
                    String.eqb u (id node)
                    && existsb (fun edge => String.eqb v (target_node_id edge))
                         (relationships node))
           nodes.
Proof.
  induction nodes as [| n nodes IH]; intros g u v; cbn [fold_left existsb].
  - rewrite orb_false_r. reflexivity.
  - rewrite IH, add_node_edges_has_edge. rewrite orb_assoc. reflexivity.
Qed.

Lemma add_all_edges_node_data :
  forall (nodes : list GraphNode) (g : DiGraph) (x : string),
    node_data
      (fold_left (fun g node =>
                    fold_left (fun g edge => CodeGraph_add_edge g (id node) edge)
                      (relationships node) g)
         nodes g) x
    = node_data g x.
Proof.
  induction nodes as [| n nodes IH]; intros g x; cbn [fold_left].
  - reflexivity.
  - rewrite IH. apply add_node_edges_node_data.
Qed.

Lemma add_all_edges_has_node :
  forall (nodes : list GraphNode) (g : DiGraph) (x : string),
    nx_has_node
      (fold_left (fun g node =>
                    fold_left (fun g edge => CodeGraph_add_edge g (id node) edge)
                      (relationships node) g)
         nodes g) x
    = nx_has_node g x
      || existsb (fun node =>
                    (match relationships node with
                     | [] => false
                     | _ => String.eqb x (id node)
                     end)
                    || existsb (fun edge => String.eqb x (target_node_id edge))
                         (relationships node))
           nodes.
Proof.
  induction nodes as [| n nodes IH]; intros g x; cbn [fold_left existsb].
  - rewrite orb_false_r. reflexivity.
  - rewrite IH, add_node_edges_has_node. rewrite !orb_assoc. reflexivity.
Qed.

(** X2. In the graph that [build_from_nodes] makes of a list of nodes there
    is an edge from [u] to [v] exactly when some node of the list has the
    id [u] and holds a relationship whose target is [v]: the edge starts
    at the node that holds the relationship, whatever the relationship
    records as its source. *)
Theorem build_from_nodes_edges :
  forall (nodes : list GraphNode) (u v : string),
    nx_has_edge (build_from_nodes [] nodes) u v = true
    <-> exists node edge,
          In node nodes /\ id node = u
          /\ In edge (relationships node) /\ target_node_id edge = v.
Proof.
  intros nodes u v. unfold build_from_nodes.
  rewrite add_all_edges_has_edge, add_nodes_has_edge. cbn [nx_has_edge dict_get orb].
  rewrite existsb_exists. split.
  - intros [node [Hin H]]. apply andb_true_iff in H. destruct H as [Hu H].
    apply existsb_exists in H. destruct H as [edge [He Hv]].
    apply String.eqb_eq in Hu. apply String.eqb_eq in Hv.
    exists node, edge. repeat split; auto.
  - intros [node [edge [Hin [Hu [He Hv]]]]]. exists node. split; [exact Hin |].
    apply andb_true_iff. split; [apply String.eqb_eq; auto |].
    apply existsb_exists. exists edge. split; [exact He | apply String.eqb_eq; auto].
Qed.

(** X3. The attribute of a node of the graph that [build_from_nodes] makes
    is the last node of the list with that id, so an id that occurs only
    as the target of a relationship is a node without attribute; the nodes
    of the graph are the ids of the list and the targets of their
    relationships. *)
Theorem build_from_nodes_data :
  forall (nodes : list GraphNode) (x : string),
    node_data (build_from_nodes [] nodes) x
    = find (fun node => String.eqb x (id node)) (rev nodes)
    /\ (nx_has_node (build_from_nodes [] nodes) x = true
        <-> (exists node, In node nodes /\ id node = x)
            \/ (exists node edge,
                  In node nodes /\ In edge (relationships node)
                  /\ target_node_id edge = x)).
Proof.
  intros nodes x. split.
  - unfold build_from_nodes. rewrite add_all_edges_node_data, add_nodes_node_data.
    destruct (find _ (rev nodes)); reflexivity.
  - unfold build_from_nodes. rewrite add_all_edges_has_node, add_nodes_has_node.
    cbn [nx_has_node dict_mem dict_get orb]. rewrite orb_true_iff, !existsb_exists.
    split.
    + intros [[node [Hin Hx]] | [node [Hin H]]].
      * left. exists node. apply String.eqb_eq in Hx. auto.
      * apply orb_true_iff in H. destruct H as [H | H].
        -- left. exists node. destruct (relationships node); [discriminate |].
           apply String.eqb_eq in H. auto.
        -- right. apply existsb_exists in H. destruct H as [edge [He Hx]].
           apply String.eqb_eq in Hx. exists node, edge. auto.
    + intros [[node [Hin Hx]] | [node [edge [Hin [He Hx]]]]].
      * left. exists node. split; [exact Hin | apply String.eqb_eq; auto].
      * right. exists node. split; [exact Hin |]. apply orb_true_iff. right.
        apply existsb_exists. exists edge. split; [exact He | apply String.eqb_eq; auto].
Qed.

(* ================================================================== *)
(** * Merging a module graph into the project graph *)

Lemma find_rev_get :
  forall (V : Type) (d : dict V) (x : string),
    NoDup (dict_keys d) ->
    option_map snd (find (fun kv => String.eqb x (fst kv)) (rev d)) = dict_get x d.
Proof.
  intros V d x. induction d as [| [k v] d IH]; intros Hnd; cbn [rev dict_get].
  - reflexivity.
  - cbn [dict_keys map fst] in Hnd. inversion Hnd as [| ? ? Hnotin Hnd']; subst.
    specialize (IH Hnd'). rewrite find_snoc.
    destruct (find _ (rev d)) as [y |] eqn:F; cbn [option_map fst] in *.
    + destruct (String.eqb_spec x k) as [-> | Hne]; [| exact IH].
      exfalso. apply Hnotin. symmetry in IH. apply dict_get_In in IH.
      apply (in_map fst) in IH. exact IH.
    + destruct (String.eqb x k); [reflexivity | exact IH].
Qed.

Lemma merge_nodes_node_data :
  forall (mg master : DiGraph) (x : string),
    node_data
      (fold_left (fun master ue => nx_add_node master (fst ue) (n_data (snd ue)))
         mg master) x
    = match find (fun ue => String.eqb x (fst ue)) (rev mg) with
      | Some ue => n_data (snd ue)
      | None => node_data master x
      end.
Proof.
  induction mg as [| ue mg IH]; intros master x; cbn [fold_left rev].
  - reflexivity.
  - rewrite IH, find_snoc, node_data_add_node.
    destruct (find _ (rev mg)); [reflexivity |].
    destruct (String.eqb x (fst ue)); reflexivity.
Qed.

Lemma merge_nodes_has_edge :
  forall (mg master : DiGraph) (u v : string),
    nx_has_edge
      (fold_left (fun master ue => nx_add_node master (fst ue) (n_data (snd ue)))
         mg master) u v
    = nx_has_edge master u v.
Proof.
  induction mg as [| ue mg IH]; intros master u v; cbn [fold_left].
  - reflexivity.
  - rewrite IH. apply has_edge_add_node.
Qed.

Lemma merge_nodes_has_node :
  forall (mg master : DiGraph) (x : string),
    nx_has_node
      (fold_left (fun master ue => nx_add_node master (fst ue) (n_data (snd ue)))
         mg master) x
    = nx_has_node master x || existsb (String.eqb x) (dict_keys mg).
Proof.
  induction mg as [| ue mg IH]; intros master x; cbn [fold_left existsb dict_keys map].
  - rewrite orb_false_r. reflexivity.
  - rewrite IH, has_node_add_node. unfold dict_keys.
    destruct (String.eqb x (fst ue)), (nx_has_node master x); reflexivity.
Qed.

Lemma merge_nodes_NoDup :
  forall (mg master : DiGraph),
    NoDup (dict_keys master) ->
    NoDup (dict_keys
             (fold_left (fun master ue => nx_add_node master (fst ue) (n_data (snd ue)))
                mg master)).
Proof.
  induction mg as [| ue mg IH]; intros master H; cbn [fold_left].
  - exact H.
  - apply IH, nx_add_node_NoDup, H.
Qed.

Lemma merge_edges_has_edge :
  forall (edges : list (string * string * string)) (g : DiGraph) (u v : string),
    nx_has_edge
      (fold_left (fun master uvd => let '(u, v, rel) := uvd in nx_add_edge master u v rel)
         edges g) u v
    = nx_has_edge g u v
      || existsb (fun uvd => String.eqb u (fst (fst uvd)) && String.eqb v (snd (fst uvd)))
           edges.
Proof.
  induction edges as [| [[a b] rel] edges IH]; intros g u v; cbn [fold_left existsb fst snd].
  - rewrite orb_false_r. reflexivity.
  - rewrite IH, has_edge_add_edge, orb_assoc. reflexivity.
Qed.

Lemma merge_edges_has_node :
  forall (edges : list (string * string * string)) (g : DiGraph) (x : string),
    nx_has_node
      (fold_left (fun master uvd => let '(u, v, rel) := uvd in nx_add_edge master u v rel)
         edges g) x
    = nx_has_node g x
      || existsb (fun uvd => String.eqb x (fst (fst uvd)) || String.eqb x (snd (fst uvd)))
           edges.
Proof.
  induction edges as [| [[a b] rel] edges IH]; intros g x; cbn [fold_left existsb fst snd].
  - rewrite orb_false_r. reflexivity.
  - rewrite IH, has_node_add_edge, !orb_assoc. reflexivity.
Qed.

Lemma merge_edges_node_data :
  forall (edges : list (string * string * string)) (g : DiGraph) (x : string),
    node_data
      (fold_left (fun master uvd => let '(u, v, rel) := uvd in nx_add_edge master u v rel)
         edges g) x
    = node_data g x.
Proof.
  induction edges as [| [[a b] rel] edges IH]; intros g x; cbn [fold_left].
  - reflexivity.
  - rewrite IH. apply node_data_add_edge.
Qed.

Lemma merge_edges_NoDup :
  forall (edges : list (string * string * string)) (g : DiGraph),
    NoDup (dict_keys g) ->
    NoDup (dict_keys
             (fold_left (fun master uvd =>
                           let '(u, v, rel) := uvd in nx_add_edge master u v rel)
                edges g)).
Proof.
  induction edges as [| [[a b] rel] edges IH]; intros g H; cbn [fold_left].
  - exact H.
  - apply IH, nx_add_edge_NoDup, H.
Qed.

Lemma nx_edges_In :
  forall (g : DiGraph) (u v rel : string),
    In (u, v, rel) (nx_edges g) <-> exists e, In (u, e) g /\ In (v, rel) (n_succ e).
Proof.
  intros g u v rel. unfold nx_edges. rewrite in_flat_map. split.
  - intros [[k e] [Hin H]]. cbn [fst snd] in H. apply in_map_iff in H.
    destruct H as [[v' d] [Heq Hs]]. cbn [fst snd] in Heq. inversion Heq; subst.
    exists e. auto.
  - intros [e [Hin Hs]]. exists (u, e). split; [exact Hin |].
    cbn [fst snd]. apply in_map_iff. exists (v, rel). auto.
Qed.

Lemma listed_has_edge :
  forall (g : DiGraph) (u v rel : string),
    NoDup (dict_keys g) -> In (u, v, rel) (nx_edges g) -> nx_has_edge g u v = true.
Proof.
  intros g u v rel Hnd Hin. apply nx_edges_In in Hin. destruct Hin as [e [Hu Hv]].
  unfold nx_has_edge. rewrite (dict_In_get _ _ _ _ Hnd Hu).
  unfold dict_mem. destruct (dict_get v (n_succ e)) eqn:E; [reflexivity |].
  apply dict_get_None_keys in E. exfalso. apply E.
  apply (in_map fst) in Hv. exact Hv.
Qed.

Lemma listed_source_is_node :
  forall (g : DiGraph) (u v rel : string),
    In (u, v, rel) (nx_edges g) -> nx_has_node g u = true.
Proof.
  intros g u v rel Hin. apply nx_edges_In in Hin. destruct Hin as [e [Hu _]].
  unfold nx_has_node, dict_mem. destruct (dict_get u g) eqn:E; [reflexivity |].
  apply dict_get_None_keys in E. exfalso. apply E.
  apply (in_map fst) in Hu. exact Hu.
Qed.

Lemma existsb_edges_has_edge :
  forall (g : DiGraph) (u v : string),
    NoDup (dict_keys g) ->
    existsb (fun uvd => String.eqb u (fst (fst uvd)) && String.eqb v (snd (fst uvd)))
      (nx_edges g)
    = nx_has_edge g u v.
Proof.
  intros g u v Hnd. apply eq_true_iff_eq. rewrite existsb_exists. split.
  - intros [[[a b] rel] [Hin H]]. cbn [fst snd] in H. apply andb_true_iff in H.
    destruct H as [Ha Hb]. apply String.eqb_eq in Ha. apply String.eqb_eq in Hb. subst.
    exact (listed_has_edge _ _ _ _ Hnd Hin).
  - intros H. apply has_edge_listed in H. destruct H as [rel Hin].
    exists (u, v, rel). split; [exact Hin |]. cbn [fst snd].
    rewrite !String.eqb_refl. reflexivity.
Qed.

(** X4. After [merge_graphs] the attribute of every node of the module
    graph is the one the module graph has for it, also when the module
    graph has none and the project graph had one; the other nodes keep
    theirs. *)
Theorem merge_graphs_node_data :
  forall (master module_graph : DiGraph) (x : string),
    NoDup (dict_keys module_graph) ->
    node_data (merge_graphs master module_graph) x
    = if nx_has_node module_graph x then node_data module_graph x
      else node_data master x.
Proof.
  intros master mg x Hnd. unfold merge_graphs.
  rewrite merge_edges_node_data, merge_nodes_node_data.
  pose proof (find_rev_get _ mg x Hnd) as F.
  unfold nx_has_node, dict_mem, node_data.
  destruct (find _ (rev mg)) as [ue |]; cbn [option_map] in F; rewrite <- F; reflexivity.
Qed.

Lemma merge_graphs_node_data_witness :
  let definition := create_test_node "function:a.f" "f" (Some "a.py") in
  let master := CodeGraph_add_node [] definition in
  let module_graph := nx_add_edge [] "function:b.g" "function:a.f" "calls" in
  node_data master "function:a.f" = Some definition
  /\ node_data (merge_graphs master module_graph) "function:a.f" = None.
Proof.
  intros definition master module_graph. split; [reflexivity |].
  rewrite (merge_graphs_node_data master module_graph "function:a.f").
  - reflexivity.
  - repeat constructor; cbn; intuition discriminate.
Defined.

(** X5. The edges of the graph after [merge_graphs] are the edges of the
    project graph and the edges of the module graph, and every node of
    either graph is a node of the result. *)
Theorem merge_graphs_edges :
  forall (master module_graph : DiGraph) (u v x : string),
    NoDup (dict_keys module_graph) ->
    nx_has_edge (merge_graphs master module_graph) u v
    = nx_has_edge master u v || nx_has_edge module_graph u v
    /\ (nx_has_node master x || nx_has_node module_graph x = true ->
        nx_has_node (merge_graphs master module_graph) x = true).
Proof.
  intros master mg u v x Hnd. unfold merge_graphs. split.
  - rewrite merge_edges_has_edge, merge_nodes_has_edge.
    rewrite (existsb_edges_has_edge _ _ _ Hnd). reflexivity.
  - intros H. rewrite merge_edges_has_node, merge_nodes_has_node.
    apply orb_true_iff. left. apply orb_true_iff in H. apply orb_true_iff.
    destruct H as [H | H]; [left; exact H | right].
    apply existsb_eqb_In. unfold nx_has_node in H. apply dict_mem_true in H.
    destruct H as [e He]. apply dict_get_In in He. apply (in_map fst) in He. exact He.
Qed.

Lemma merge_graphs_edges_witness :
  let master := nx_add_edge [] "function:a.f" "function:a.g" "calls" in
  let module_graph := nx_add_edge [] "function:b.h" "function:a.f" "calls" in
  nx_has_edge (merge_graphs master module_graph) "function:b.h" "function:a.f" = true
  /\ nx_has_edge (merge_graphs master module_graph) "function:a.f" "function:a.g" = true
  /\ nx_has_node (merge_graphs master module_graph) "function:a.g" = true.
Proof.
  intros master module_graph.
  assert (Hnd : NoDup (dict_keys module_graph)).
  { repeat constructor; cbn; intuition discriminate. }
  split; [| split].
  - rewrite (proj1 (merge_graphs_edges master module_graph
                      "function:b.h" "function:a.f" "" Hnd)). reflexivity.
  - rewrite (proj1 (merge_graphs_edges master module_graph
                      "function:a.f" "function:a.g" "" Hnd)). reflexivity.
  - apply (proj2 (merge_graphs_edges master module_graph "" "" "function:a.g" Hnd)).
    reflexivity.
Defined.

(* ================================================================== *)
(** * Edges end at nodes *)

Lemma edges_closed_add_node :
  forall (g : DiGraph) (n : string) (data : option GraphNode),
    edges_closed g -> edges_closed (nx_add_node g n data).
Proof.
  intros g n data H u v. rewrite has_edge_add_node, has_node_add_node.
  intro E. rewrite (H u v E). apply orb_true_r.
Qed.

Lemma edges_closed_add_edge :
  forall (g : DiGraph) (u v rel : string),
    edges_closed g -> edges_closed (nx_add_edge g u v rel).
Proof.
  intros g u v rel H x y. rewrite has_edge_add_edge, has_node_add_edge.
  intro E. apply orb_true_iff in E. destruct E as [E | E].
  - rewrite (H x y E). reflexivity.
  - apply andb_true_iff in E. destruct E as [_ E]. rewrite E. apply orb_true_r.
Qed.

Lemma edges_closed_remove_edge :
  forall (g : DiGraph) (u v : string),
    edges_closed g -> edges_closed (nx_remove_edge g u v).
Proof.
  intros g u v H x y. rewrite has_edge_remove_edge, has_node_remove_edge.
  intro E. apply andb_true_iff in E. destruct E as [E _]. exact (H x y E).
Qed.

Lemma edges_closed_remove_node :
  forall (g : DiGraph) (n : string),
    edges_closed g -> edges_closed (nx_remove_node g n).
Proof.
  intros g n H x y. rewrite has_edge_remove_node, has_node_remove_node.
  intro E. apply andb_true_iff in E. destruct E as [E E3].
  apply andb_true_iff in E. destruct E as [_ E2].
  rewrite E2, (H x y E3). reflexivity.
Qed.

Lemma edges_closed_add_edges :
  forall (l : list (string * string * string)) (g : DiGraph),
    edges_closed g -> edges_closed (add_edges l g).
Proof.
  unfold add_edges. induction l as [| uvd l IH]; intros g H; cbn [fold_left].
  - exact H.
  - apply IH, edges_closed_add_edge, H.
Qed.

Lemma edges_closed_remove_edges :
  forall (l : list (string * string)) (g : DiGraph),
    edges_closed g -> edges_closed (remove_edges l g).
Proof.
  unfold remove_edges. induction l as [| uv l IH]; intros g H; cbn [fold_left].
  - exact H.
  - apply IH. destruct (nx_has_edge g (fst uv) (snd uv)); [| exact H].
    apply edges_closed_remove_edge, H.
Qed.

Lemma edges_closed_merge_into :
  forall (canonical : string) (g : DiGraph) (nid : string),
    edges_closed g -> edges_closed (merge_into canonical g nid).
Proof.
  intros c g nid H. unfold merge_into.
  destruct (String.eqb nid c); [exact H |].
  destruct (negb (nx_has_node g nid)); [exact H |].
  assert (H' : edges_closed (remove_edges (edges_to_remove g nid)
                               (add_edges (edges_to_add g c nid) g))).
  { apply edges_closed_remove_edges, edges_closed_add_edges, H. }
  destruct (nx_has_node _ nid); [| exact H'].
  apply edges_closed_remove_node, H'.
Qed.

Lemma edges_closed_merge_all :
  forall (canonical : string) (ids : list string) (g : DiGraph),
    edges_closed g -> edges_closed (fold_left (merge_into canonical) ids g).
Proof.
  intros c. induction ids as [| nid ids IH]; intros g H; cbn [fold_left].
  - exact H.
  - apply IH, edges_closed_merge_into, H.
Qed.

Lemma edges_closed_merge_group :
  forall (grp : string * list string) (g g' : DiGraph),
    merge_group grp g = Ok g' -> edges_closed g -> edges_closed g'.
Proof.
  intros [nm ids] g g' Hrun H.
  destruct (merge_group_cases _ _ _ _ Hrun) as [[_ ->] | [_ (c & _ & ->)]];
    [exact H |].
  apply edges_closed_merge_all, H.
Qed.

Lemma edges_closed_merge_graphs :
  forall master module_graph : DiGraph,
    edges_closed master -> edges_closed (merge_graphs master module_graph).
Proof.
  intros master mg H. unfold merge_graphs.
  assert (Hn : edges_closed
                 (fold_left (fun master ue => nx_add_node master (fst ue) (n_data (snd ue)))
                    mg master)).
  { revert master H. induction mg as [| ue mg IH]; intros master H; cbn [fold_left].
    - exact H.
    - apply IH, edges_closed_add_node, H. }
  revert Hn. generalize (fold_left (fun master ue =>
                                      nx_add_node master (fst ue) (n_data (snd ue)))
                           mg master).
  generalize (nx_edges mg). induction l as [| [[a b] rel] l IH]; intros g Hg;
    cbn [fold_left].
  - exact Hg.
  - apply IH, edges_closed_add_edge, Hg.
Qed.

Lemma merge_graphs_NoDup :
  forall master module_graph : DiGraph,
    NoDup (dict_keys master) -> NoDup (dict_keys (merge_graphs master module_graph)).
Proof.
  intros master mg H. unfold merge_graphs.
  apply merge_edges_NoDup, merge_nodes_NoDup, H.
Qed.

(* ================================================================== *)
(** * What a canonicalization run keeps *)

Lemma for_each_app :
  forall (A S : Type) (body : A -> S -> result S) (l1 l2 : list A) (s : S),
    for_each body (l1 ++ l2) s = (s' <- for_each body l1 s ;; for_each body l2 s').
Proof.
  intros A S body l1 l2. induction l1 as [| x l1 IH]; intros s; cbn [for_each app bind].
  - reflexivity.
  - destruct (body x s) as [s' | e]; cbn [bind]; [apply IH | reflexivity].
Qed.

Lemma min_from_In :
  forall (key : string -> result (Z * string)) (rest : list string)
         (best : string) (best_key : Z * string) (c : string),
    min_from key best best_key rest = Ok c -> c = best \/ In c rest.
Proof.
  intros key. induction rest as [| x rest IH]; intros best bk c H; cbn [min_from] in H.
  - inversion H. left. reflexivity.
  - destruct (key x) as [k |]; cbn [bind] in H; [| discriminate].
    destruct (key_lt k bk).
    + destruct (IH _ _ _ H) as [-> | Hin]; right; [left | right]; auto.
    + destruct (IH _ _ _ H) as [-> | Hin]; [left | right; right]; auto.
Qed.

Lemma min_by_In :
  forall (key : string -> result (Z * string)) (ids : list string) (c : string),
    min_by key ids = Ok c -> In c ids.
Proof.
  intros key [| x rest] c H; cbn [min_by] in H; [discriminate |].
  destruct (key x) as [k |]; cbn [bind] in H; [| discriminate].
  destruct (min_from_In _ _ _ _ _ H) as [-> | Hin]; [left | right]; auto.
Qed.

(** A run over some groups leaves the ids outside these groups alone. *)
Lemma merge_groups_frame :
  forall (groups : dict (list string)) (g g1 : DiGraph) (x : string),
    for_each merge_group groups g = Ok g1 ->
    (forall nm ids, In (nm, ids) groups -> ~ In x ids) ->
    node_data g1 x = node_data g x.
Proof.
  induction groups as [| [nm ids] groups IH]; intros g g1 x Hrun Hout;
    cbn [for_each] in Hrun.
  - inversion Hrun. reflexivity.
  - destruct (merge_group (nm, ids) g) as [g' |] eqn:Eg; cbn [bind] in Hrun;
      [| discriminate].
    rewrite (IH _ _ _ Hrun) by (intros nm' ids' Hin; apply (Hout nm' ids'); right; exact Hin).
    destruct (merge_group_cases _ _ _ _ Eg) as [[_ ->] | [_ (c & _ & ->)]];
      [reflexivity |].
    rewrite merge_all_node_data.
    rewrite (existsb_eqb_not_In _ _ (Hout nm ids (or_introl eq_refl))). reflexivity.
Qed.

(** One id of a group that is not empty keeps its data. *)
Lemma merge_group_survivor :
  forall (nm : string) (ids : list string) (g g' : DiGraph),
    merge_group (nm, ids) g = Ok g' -> ids <> [] ->
    exists c, In c ids /\ node_data g' c = node_data g c.
Proof.
  intros nm ids g g' Hrun Hne.
  destruct (merge_group_cases _ _ _ _ Hrun) as [[_ ->] | [_ (c & Hc & ->)]].
  - destruct ids as [| c ids]; [contradiction |]. exists c. split; [left |]; reflexivity.
  - exists c. split; [exact (min_by_In _ _ _ Hc) |].
    rewrite merge_all_node_data, String.eqb_refl, andb_false_r. reflexivity.
Qed.

(** An id belongs to the group of one name only. *)
Lemma groups_disjoint :
  forall (g : DiGraph) (nm nm' : string) (ids ids' : list string) (c : string),
    NoDup (dict_keys g) ->
    In (nm, ids) (simple_to_ids g) -> In (nm', ids') (simple_to_ids g) ->
    In c ids -> In c ids' -> nm = nm'.
Proof.
  intros g nm nm' ids ids' c Hnd Hg Hg' Hc Hc'.
  rewrite (group_is_named _ _ _ Hg) in Hc. rewrite (group_is_named _ _ _ Hg') in Hc'.
  destruct (group_member_data _ _ _ Hnd Hc) as (d & Hd & Hn & _).
  destruct (group_member_data _ _ _ Hnd Hc') as (d' & Hd' & Hn' & _).
  congruence.
Qed.

(** The run split at the group of one name. *)
Lemma merge_split_at_group :
  forall (g g1 : DiGraph) (nm : string) (ids : list string),
    NoDup (dict_keys g) ->
    merge_nodes_by_reference g = Ok g1 ->
    In (nm, ids) (simple_to_ids g) ->
    exists ga gb,
      merge_group (nm, ids) ga = Ok gb
      /\ (forall c, In c ids -> node_data ga c = node_data g c)
      /\ (forall c, In c ids -> node_data g1 c = node_data gb c).
Proof.
  intros g g1 nm ids Hnd Hrun Hin. unfold merge_nodes_by_reference in Hrun.
  destruct (in_split _ _ Hin) as (l1 & l2 & Hsplit).
  pose proof (proj1 (simple_to_ids_spec g)) as Hkeys.
  assert (Hother : forall nm' ids' c,
             In (nm', ids') (l1 ++ l2) -> In c ids -> ~ In c ids').
  { intros nm' ids' c Hin' Hc Hc'.
    assert (Hg' : In (nm', ids') (simple_to_ids g)).
    { rewrite Hsplit. apply in_app_iff. apply in_app_iff in Hin'.
      destruct Hin' as [H | H]; [left | right; right]; exact H. }
    pose proof (groups_disjoint _ _ _ _ _ _ Hnd Hin Hg' Hc Hc') as E. subst nm'.
    rewrite Hsplit in Hkeys. unfold dict_keys in Hkeys.
    rewrite map_app in Hkeys. cbn [map fst] in Hkeys.
    apply NoDup_remove_2 in Hkeys. apply Hkeys. rewrite <- map_app.
    apply (in_map fst) in Hin'. exact Hin'. }
  rewrite Hsplit, for_each_app in Hrun.
  destruct (for_each merge_group l1 g) as [ga |] eqn:E1; cbn [bind] in Hrun;
    [| discriminate].
  cbn [for_each] in Hrun.
  destruct (merge_group (nm, ids) ga) as [gb |] eqn:E2; cbn [bind] in Hrun;
    [| discriminate].
  exists ga, gb. split; [exact E2 |]. split.
  - intros c Hc. apply (merge_groups_frame _ _ _ _ E1).
    intros nm' ids' Hin'. apply (Hother nm' ids' c); [| exact Hc].
    apply in_app_iff. left. exact Hin'.
  - intros c Hc. apply (merge_groups_frame _ _ _ _ Hrun).
    intros nm' ids' Hin'. apply (Hother nm' ids' c); [| exact Hc].
    apply in_app_iff. right. exact Hin'.
Qed.

Lemma NoDup_all_equal :
  forall (l : list string) (x : string),
    NoDup l -> (forall y, In y l -> y = x) -> List.length l <= 1.
Proof.
  intros [| a [| b l]] x Hnd Hall; cbn; try lia.
  exfalso. inversion Hnd as [| ? ? Hnotin _]. subst. apply Hnotin. left.
  rewrite (Hall a), (Hall b); [reflexivity | right; left | left]; reflexivity.
Qed.

(** X7. A run of [merge_nodes_by_reference] only removes nodes: a node
    that has data after the run had the same data before it.  It removes
    no name: for every node with data before the run, a node with the same
    simple name has data after it.  And a node whose simple name is empty,
    or is the simple name of no other node, keeps its data. *)
Theorem merge_keeps_one_node_per_name :
  forall g g1 : DiGraph,
    NoDup (dict_keys g) ->
    merge_nodes_by_reference g = Ok g1 ->
    (forall x d, node_data g1 x = Some d -> node_data g x = Some d)
    /\ (forall x d, node_data g x = Some d ->
          exists y d', node_data g1 y = Some d' /\ name d' = name d)
    /\ (forall x d, node_data g x = Some d ->
          truthy (name d) = false
          \/ (forall y dy, node_data g y = Some dy -> name dy = name d -> y = x) ->
          node_data g1 x = Some d).
Proof.
  intros g g1 Hnd Hrun.
  assert (Hfalsy : forall x d, node_data g x = Some d -> truthy (name d) = false ->
                               node_data g1 x = Some d).
  { intros x d Hd Ht. rewrite <- Hd. apply (merge_groups_frame _ _ _ _ Hrun).
    intros nm ids Hin Hx. rewrite (group_is_named _ _ _ Hin) in Hx.
    destruct (group_member_data _ _ _ Hnd Hx) as (d' & Hd' & Hn & Ht').
    rewrite Hd in Hd'. inversion Hd'. subst d'. rewrite Hn, Ht' in Ht. discriminate. }
  split; [| split].
  - intros x d Hd. exact (merge_groups_mono _ _ _ _ _ Hrun Hd).
  - intros x d Hd. destruct (truthy (name d)) eqn:Ht.
    + destruct (node_in_group _ _ _ Hd Ht) as (ids & Hin & Hx).
      destruct (merge_split_at_group _ _ _ _ Hnd Hrun Hin) as (ga & gb & Hg & Hpre & Hpost).
      destruct (merge_group_survivor _ _ _ _ Hg) as (c & Hc & Hkeep).
      { intro E. rewrite E in Hx. contradiction. }
      pose proof Hc as Hc'. rewrite (group_is_named _ _ _ Hin) in Hc'.
      destruct (group_member_data _ _ _ Hnd Hc') as (dc & Hdc & Hn & _).
      exists c, dc. split; [| exact Hn].
      rewrite (Hpost c Hc), Hkeep, (Hpre c Hc). exact Hdc.
    + exists x, d. split; [exact (Hfalsy x d Hd Ht) | reflexivity].
  - intros x d Hd [Ht | Honly]; [exact (Hfalsy x d Hd Ht) |].
    destruct (truthy (name d)) eqn:Ht; [| exact (Hfalsy x d Hd Ht)].
    destruct (node_in_group _ _ _ Hd Ht) as (ids & Hin & Hx).
    destruct (merge_split_at_group _ _ _ _ Hnd Hrun Hin) as (ga & gb & Hg & Hpre & Hpost).
    assert (Hlen : List.length ids <= 1).
    { apply (NoDup_all_equal ids x).
      - rewrite (group_is_named _ _ _ Hin). apply named_NoDup. exact Hnd.
      - intros y Hy. rewrite (group_is_named _ _ _ Hin) in Hy.
        destruct (group_member_data _ _ _ Hnd Hy) as (dy & Hdy & Hn & _).
        exact (Honly y dy Hdy Hn). }
    destruct (merge_group_cases _ _ _ _ Hg) as [[_ ->] | [Hge _]]; [| lia].
    rewrite (Hpost x Hx), (Hpre x Hx). exact Hd.
Qed.

Lemma merge_keeps_one_node_per_name_witness :
  exists g1 y d',
    merge_nodes_by_reference test_merge_graph = Ok g1
    /\ node_data g1 y = Some d' /\ name d' = "Test"
    /\ node_data g1 "function:dummy.func"
       = Some (create_test_node "function:dummy.func" "func" (Some "dummy.py")).
Proof.
  pose proof (merge_keeps_one_node_per_name test_merge_graph _
                test_merge_graph_NoDup eq_refl) as (_ & Hname & Hkeep).
  destruct (Hname "function:dummy_alt.Test"
              (create_test_node "function:dummy_alt.Test" "Test" None) eq_refl)
    as (y & d' & Hy & Hn).
  eexists. exists y, d'. split; [reflexivity |].
  split; [exact Hy |]. split; [exact Hn |].
  apply Hkeep; [reflexivity |]. right. intros z dz Hz Hnz.
  destruct (test_merge_graph_data z dz Hz) as [[-> E] | [[-> E] | [-> E]]];
    [| | reflexivity]; rewrite E in Hnz; discriminate Hnz.
Defined.

(* ================================================================== *)
(** * The choice of the canonical node *)

Lemma ltb_trans :
  forall a b c : string,
    String.ltb a b = true -> String.ltb b c = true -> String.ltb a c = true.
Proof.
  intros a b c. unfold String.ltb.
  destruct (String.compare a b) eqn:Eab; try discriminate.
  destruct (String.compare b c) eqn:Ebc; try discriminate.
  intros _ _.
  apply OrderedTypeEx.String_as_OT.cmp_lt in Eab.
  apply OrderedTypeEx.String_as_OT.cmp_lt in Ebc.
  pose proof (OrderedTypeEx.String_as_OT.lt_trans _ _ _ Eab Ebc) as H.
  apply OrderedTypeEx.String_as_OT.cmp_lt in H.
  unfold OrderedTypeEx.String_as_OT.cmp in H. rewrite H. reflexivity.
Qed.

Lemma ltb_irrefl : forall a : string, String.ltb a a = false.
Proof.
  intros a. unfold String.ltb.
  assert (H : String.compare a a = Eq)
    by (apply OrderedTypeEx.String_as_OT.cmp_eq; reflexivity).
  rewrite H. reflexivity.
Qed.

Lemma ltb_false_cases :
  forall a b : string, String.ltb a b = false -> a = b \/ String.ltb b a = true.
Proof.
  intros a b. unfold String.ltb. rewrite (String.compare_antisym b a).
  destruct (String.compare a b) eqn:E; cbn; intro H.
  - left. apply String.compare_eq_iff. exact E.
  - discriminate.
  - right. reflexivity.
Qed.

Lemma str_le_trans :
  forall a b c : string,
    String.ltb b a = false -> String.ltb c b = false -> String.ltb c a = false.
Proof.
  intros a b c Hab Hbc. destruct (String.ltb c a) eqn:E; [exfalso | reflexivity].
  destruct (ltb_false_cases _ _ Hab) as [-> | Hlt].
  - rewrite E in Hbc. discriminate.
  - rewrite (ltb_trans _ _ _ E Hlt) in Hbc. discriminate.
Qed.

Lemma key_le_trans :
  forall a b c : Z * string,
    key_lt b a = false -> key_lt c b = false -> key_lt c a = false.
Proof.
  intros [za sa] [zb sb] [zc sc]. unfold key_lt. cbn [fst snd].
  intros Hab Hbc.
  apply orb_false_iff in Hab. destruct Hab as [Hab1 Hab2].
  apply orb_false_iff in Hbc. destruct Hbc as [Hbc1 Hbc2].
  apply Z.ltb_ge in Hab1. apply Z.ltb_ge in Hbc1.
  apply orb_false_iff. split; [apply Z.ltb_ge; lia |].
  destruct (Z.eqb_spec zc za) as [-> | Hne]; [| reflexivity]. cbn [andb].
  assert (zb = za) by lia. subst zb. rewrite Z.eqb_refl in Hab2, Hbc2.
  cbn [andb] in Hab2, Hbc2. exact (str_le_trans _ _ _ Hab2 Hbc2).
Qed.

Lemma key_lt_le :
  forall a b : Z * string, key_lt a b = true -> key_lt b a = false.
Proof.
  intros [za sa] [zb sb]. unfold key_lt. cbn [fst snd]. intro H.
  apply orb_true_iff in H. apply orb_false_iff.
  destruct H as [H | H].
  - apply Z.ltb_lt in H. split; [apply Z.ltb_ge; lia |].
    destruct (Z.eqb_spec zb za); [lia | reflexivity].
  - apply andb_true_iff in H. destruct H as [Hz Hs]. apply Z.eqb_eq in Hz. subst zb.
    split; [apply Z.ltb_irrefl |]. rewrite Z.eqb_refl. cbn [andb].
    destruct (String.ltb sb sa) eqn:E; [| reflexivity].
    rewrite <- (ltb_irrefl sa). symmetry. exact (ltb_trans _ _ _ Hs E).
Qed.

Lemma key_le_refl : forall a : Z * string, key_lt a a = false.
Proof.
  intros [za sa]. unfold key_lt. cbn [fst snd].
  rewrite Z.ltb_irrefl, ltb_irrefl, andb_false_r. reflexivity.
Qed.

Lemma min_from_least :
  forall (key : string -> result (Z * string)) (rest : list string)
         (best : string) (best_key : Z * string) (c : string),
    key best = Ok best_key ->
    min_from key best best_key rest = Ok c ->
    exists kc,
      key c = Ok kc /\ key_lt best_key kc = false
      /\ forall x, In x rest -> exists kx, key x = Ok kx /\ key_lt kx kc = false.
Proof.
  intros key. induction rest as [| x rest IH]; intros best bk c Hb H; cbn [min_from] in H.
  - inversion H. subst c. exists bk. split; [exact Hb |].
    split; [apply key_le_refl | intros x []].
  - destruct (key x) as [k |] eqn:Ek; cbn [bind] in H; [| discriminate].
    destruct (key_lt k bk) eqn:Elt.
    + destruct (IH _ _ _ Ek H) as (kc & Hc & Hle & Hall).
      exists kc. split; [exact Hc |]. split.
      * exact (key_le_trans _ _ _ Hle (key_lt_le _ _ Elt)).
      * intros y [<- | Hy]; [| exact (Hall y Hy)].
        exists k. split; [exact Ek | exact Hle].
    + destruct (IH _ _ _ Hb H) as (kc & Hc & Hle & Hall).
      exists kc. split; [exact Hc |]. split; [exact Hle |].
      intros y [<- | Hy]; [| exact (Hall y Hy)].
      exists k. split; [exact Ek |]. exact (key_le_trans _ _ _ Hle Elt).
Qed.

(** X8. The canonical node of a group is least for the key
    [(-has_source_file, pkg)]: [min(ids, key=score)] returns an id of the
    group whose key no other id of the group undercuts; so it is a node
    with a source file whenever some node of the group has one. *)
Theorem canonical_is_least :
  forall (g : DiGraph) (ids : list string) (c : string),
    min_by (score g) ids = Ok c ->
    In c ids
    /\ (exists kc,
          score g c = Ok kc
          /\ forall x, In x ids -> exists kx, score g x = Ok kx /\ key_lt kx kc = false)
    /\ (forall x d, In x ids -> node_data g x = Some d -> has_source_file d = true ->
          exists dc, node_data g c = Some dc /\ has_source_file dc = true).
Proof.
  intros g ids c H.
  assert (Hleast : exists kc,
             score g c = Ok kc
             /\ forall x, In x ids -> exists kx, score g x = Ok kx /\ key_lt kx kc = false).
  { destruct ids as [| x rest]; cbn [min_by] in H; [discriminate |].
    destruct (score g x) as [k |] eqn:Ek; cbn [bind] in H; [| discriminate].
    destruct (min_from_least _ _ _ _ _ Ek H) as (kc & Hc & Hle & Hall).
    exists kc. split; [exact Hc |].
    intros y [<- | Hy]; [| exact (Hall y Hy)]. exists k. split; [exact Ek | exact Hle]. }
  split; [exact (min_by_In _ _ _ H) |]. split; [exact Hleast |].
  intros x d Hx Hd Hs. destruct Hleast as (kc & Hc & Hall).
  destruct (Hall x Hx) as (kx & Hkx & Hle).
  unfold score, node_data in *.
  destruct (dict_get x g) as [ex |]; [| discriminate].
  rewrite Hd, Hs in Hkx.
  destruct (dict_get c g) as [ec |]; [| discriminate].
  destruct (n_data ec) as [dc |]; [| discriminate].
  exists dc. split; [reflexivity |].
  destruct (has_source_file dc); [reflexivity | exfalso].
  destruct (str_split1 colon x) as [| ? [| px ?]]; try discriminate.
  destruct (str_split1 colon c) as [| ? [| pc ?]]; try discriminate.
  inversion Hkx. inversion Hc. subst kx kc. discriminate Hle.
Qed.

Lemma canonical_is_least_witness :
  exists dc,
    min_by (score test_merge_graph) ["function:dummy_alt.Test"; "function:dummy.Test"]
    = Ok "function:dummy.Test"
    /\ node_data test_merge_graph "function:dummy.Test" = Some dc
    /\ has_source_file dc = true.
Proof.
  destruct (canonical_is_least test_merge_graph
              ["function:dummy_alt.Test"; "function:dummy.Test"]
              "function:dummy.Test" eq_refl) as (_ & _ & Hsrc).
  destruct (Hsrc "function:dummy.Test"
              (create_test_node "function:dummy.Test" "Test" (Some "dummy.py")))
    as (dc & Hdc & Hs); [right; left; reflexivity | reflexivity | reflexivity |].
  exists dc. split; [reflexivity |]. split; assumption.
Defined.

(* ================================================================== *)
(** * The invariant of the visitor *)

Lemma extends_refl : forall self : CodeVisitor, extends self self.
Proof. intros self. repeat split; auto. Qed.

Lemma extends_trans :
  forall a b c : CodeVisitor, extends a b -> extends b c -> extends a c.
Proof.
  intros a b c (P1 & M1 & S1 & R1 & K1) (P2 & M2 & S2 & R2 & K2).
  repeat split; try congruence. intros k H. apply K2, K1, H.
Qed.

Lemma has_colon_app :
  forall a b : string, has_colon (a ++ String colon b).
Proof.
  intros a b. unfold has_colon. induction a as [| x a IH]; cbn [append str_partition].
  - rewrite Ascii.eqb_refl. discriminate.
  - destruct (Ascii.eqb x colon); [discriminate |].
    destruct (str_partition colon (a ++ String colon b)) as [[h t] |];
      [discriminate | contradiction].
Qed.

Lemma has_colon_split1 :
  forall s : string,
    has_colon s -> exists kind full, str_split1 colon s = [kind; full].
Proof.
  intros s H. unfold has_colon in H. unfold str_split1.
  destruct (str_partition colon s) as [[h t] |]; [| contradiction].
  exists h, t. reflexivity.
Qed.

Lemma compute_node_id_colon :
  forall (t : NodeType) (nm : string) (self : CodeVisitor),
    has_colon (visitor.compute_node_id t nm self).
Proof.
  intros t nm self. unfold visitor.compute_node_id.
  destruct (rev (current_parent_ids self)); apply (has_colon_app (NodeType_value t)).
Qed.

Lemma dict_set_absent :
  forall (V : Type) (k : string) (v : V) (d : dict V),
    dict_get k d = None -> dict_set k v d = d ++ [(k, v)].
Proof.
  intros V k v d. induction d as [| [k' v'] d IH]; cbn [dict_get dict_set app].
  - reflexivity.
  - destruct (String.eqb k k'); [discriminate |]. intro H. rewrite (IH H). reflexivity.
Qed.

Lemma dict_set_NoDup :
  forall (V : Type) (k : string) (v : V) (d : dict V),
    NoDup (dict_keys d) -> NoDup (dict_keys (dict_set k v d)).
Proof.
  intros V k v d H. destruct (dict_get k d) as [v0 |] eqn:E.
  - rewrite (dict_set_keys _ _ _ _ _ E). exact H.
  - rewrite (dict_set_absent _ _ _ _ E). apply NoDup_keys_snoc; assumption.
Qed.

Lemma dict_set_In :
  forall (V : Type) (k : string) (v : V) (d : dict V) (k' : string) (v' : V),
    In (k', v') (dict_set k v d) -> v' = v \/ In (k', v') d.
Proof.
  intros V k v d k' v'. induction d as [| [k0 v0] d IH]; cbn [dict_set].
  - intros [H | []]. inversion H. left. reflexivity.
  - destruct (String.eqb k k0).
    + intros [H | H]; [inversion H; left; reflexivity | right; right; exact H].
    + intros [H | H]; [right; left; exact H |].
      destruct (IH H) as [E | Hin]; [left; exact E | right; right; exact Hin].
Qed.

Lemma dict_get_set :
  forall (V : Type) (k k' : string) (v : V) (d : dict V),
    dict_get k' (dict_set k v d) = if String.eqb k' k then Some v else dict_get k' d.
Proof.
  intros V k k' v d. destruct (String.eqb_spec k' k) as [-> | Hne].
  - apply dict_get_set_same.
  - apply dict_get_set_other. congruence.
Qed.

(** Storing a composite-id node under its id keeps the state good. *)
Lemma set_node_ok :
  forall (self : CodeVisitor) (k : string) (n : GraphNode),
    visitor_ok self -> id n = k -> has_colon k -> visited_type (node_type n) = true ->
    visitor_ok (set_graph_nodes (dict_set k n (graph_nodes self)) self)
    /\ extends self (set_graph_nodes (dict_set k n (graph_nodes self)) self)
    /\ dict_mem k (dict_set k n (graph_nodes self)) = true.
Proof.
  intros self k n (Hnd & Hnodes & Hpar & Hmod & Htab & Hcache) Hid Hc Ht.
  assert (Hmono : forall x, dict_mem x (graph_nodes self) = true ->
                            dict_mem x (dict_set k n (graph_nodes self)) = true).
  { intros x Hx. rewrite dict_mem_set, Hx. apply orb_true_r. }
  split; [| split].
  - unfold visitor_ok. cbn [graph_nodes current_parent_ids module_id reference_table
                            imported_module_cache set_graph_nodes].
    split; [apply dict_set_NoDup; exact Hnd |].
    split.
    { intros x m. rewrite dict_get_set. destruct (String.eqb_spec x k) as [-> | Hne].
      - intro H. inversion H. subst m. auto.
      - apply Hnodes. }
    split; [intros p Hp; apply Hmono, Hpar, Hp |].
    split; [apply Hmono, Hmod |]. split; assumption.
  - repeat split; try reflexivity. exact Hmono.
  - rewrite dict_mem_set, String.eqb_refl. reflexivity.
Qed.

Lemma append_edge_ok :
  forall (nid : string) (e : GraphEdge) (self : CodeVisitor),
    visitor_ok self -> dict_mem nid (graph_nodes self) = true ->
    exists self',
      append_edge nid (Ok e) self = Ok self' /\ visitor_ok self' /\ extends self self'.
Proof.
  intros nid e self Hok Hmem. unfold append_edge.
  apply dict_mem_true in Hmem. destruct Hmem as [node Hn]. rewrite Hn. cbn [bind].
  eexists. split; [reflexivity |].
  destruct Hok as (Hnd & Hnodes & Hrest).
  destruct (Hnodes nid node Hn) as (Hid & Hc & Ht).
  destruct (set_node_ok self nid (append_relationship node e)
              (conj Hnd (conj Hnodes Hrest)) Hid Hc Ht) as (H1 & H2 & _).
  split; assumption.
Qed.

Lemma visitor_update_frame :
  forall (node : GraphNode) (self : CodeVisitor),
    current_parent_ids (visitor.update_reference_table node self) = current_parent_ids self
    /\ cv_source_file (visitor.update_reference_table node self) = cv_source_file self
    /\ project_root (visitor.update_reference_table node self) = project_root self
    /\ imported_module_cache (visitor.update_reference_table node self)
       = imported_module_cache self.
Proof.
  intros node self. unfold visitor.update_reference_table.
  match goal with |- context [if ?b then _ else _] => destruct b end;
    repeat split; reflexivity.
Qed.

Lemma update_table_ok :
  forall (node : GraphNode) (self : CodeVisitor),
    visitor_ok self -> has_colon (id node) ->
    visitor_ok (visitor.update_reference_table node self)
    /\ extends self (visitor.update_reference_table node self).
Proof.
  intros node self (Hnd & Hnodes & Hpar & Hmod & Htab & Hcache) Hc.
  destruct (visitor_update_frame node self) as (Fp & Fs & Fr & Fc).
  pose proof (visitor_update_nodes node self) as Fn.
  pose proof (visitor_update_module_id node self) as Fm.
  split.
  - unfold visitor_ok. rewrite Fn, Fp, Fm, Fc.
    repeat (split; [assumption |]). split; [| assumption].
    unfold visitor.update_reference_table.
    set (table := if negb (dict_mem (name node) (reference_table self))
                  then reference_table self ++ [(name node, [])]
                  else reference_table self).
    assert (Ht : forall nm candidates package node_id,
               dict_get nm table = Some candidates ->
               In (package, node_id) candidates -> has_colon node_id).
    { intros nm c p i. unfold table.
      destruct (negb (dict_mem (name node) (reference_table self))); [| apply Htab].
      rewrite dict_get_app. destruct (dict_get nm (reference_table self)) as [c' |] eqn:E.
      - intro H. inversion H. subst c'. exact (Htab nm c p i E).
      - cbn [dict_get]. destruct (String.eqb nm (name node)); [| discriminate].
        intro H. inversion H. contradiction. }
    match goal with |- context [if ?b then _ else _] => destruct b end;
      cbn [reference_table set_reference_table]; [exact Ht |].
    intros nm c p i. rewrite dict_get_set.
    destruct (String.eqb nm (name node)); [| apply Ht].
    intro H. inversion H. subst c. clear H. intro Hin. apply dict_set_In in Hin.
    destruct Hin as [-> | Hin]; [exact Hc |].
    destruct (dict_get (name node) table) as [c |] eqn:E; [| contradiction].
    exact (Ht _ _ _ _ E Hin).
  - repeat split; try assumption. rewrite Fn. auto.
Qed.

Lemma new_GraphEdge_CONTAINS :
  forall (sid tid : string) (st tt : NodeType),
    visited_type st = true -> tt = CLASS \/ tt = FUNCTION ->
    new_GraphEdge CONTAINS sid tid st tt = Ok (mkGraphEdge CONTAINS sid tid st tt).
Proof.
  intros sid tid st tt Hs [-> | ->]; destruct st; try discriminate Hs; reflexivity.
Qed.

Lemma add_node_ok :
  forall (node : GraphNode) (self : CodeVisitor),
    visitor_ok self -> has_colon (id node) ->
    node_type node = CLASS \/ node_type node = FUNCTION ->
    exists self',
      visitor.add_node node self = Ok self' /\ visitor_ok self' /\ extends self self'
      /\ dict_mem (id node) (graph_nodes self') = true.
Proof.
  intros node self Hok Hc Hty. unfold visitor.add_node.
  assert (Hvt : visited_type (node_type node) = true)
    by (destruct Hty as [-> | ->]; reflexivity).
  destruct (set_node_ok self (id node) node Hok eq_refl Hc Hvt) as (H1 & E1 & M1).
  set (s1 := set_graph_nodes (dict_set (id node) node (graph_nodes self)) self) in *.
  destruct (update_table_ok node s1 H1 Hc) as (H2 & E2).
  set (s2 := visitor.update_reference_table node s1) in *.
  assert (M2 : dict_mem (id node) (graph_nodes s2) = true).
  { unfold s2. rewrite visitor_update_nodes. exact M1. }
  destruct (rev (current_parent_ids s2)) as [| parent_id parents] eqn:Erev.
  - exists s2. split; [reflexivity |]. split; [exact H2 |].
    split; [exact (extends_trans _ _ _ E1 E2) | exact M2].
  - assert (Hp : In parent_id (current_parent_ids s2)).
    { apply in_rev. rewrite Erev. left. reflexivity. }
    pose proof H2 as (_ & Hnodes2 & Hpar2 & _).
    pose proof (Hpar2 _ Hp) as Hmem. apply dict_mem_true in Hmem as Hget.
    destruct Hget as [parent Hparent]. rewrite Hparent.
    destruct (Hnodes2 _ _ Hparent) as (_ & _ & Hpt).
    rewrite (new_GraphEdge_CONTAINS _ _ _ _ Hpt Hty).
    destruct (append_edge_ok parent_id
                (mkGraphEdge CONTAINS parent_id (id node) (node_type parent)
                   (node_type node)) s2 H2 Hmem) as (s3 & Hs3 & H3 & E3).
    exists s3. split; [exact Hs3 |]. split; [exact H3 |].
    split; [exact (extends_trans _ _ _ (extends_trans _ _ _ E1 E2) E3) |].
    destruct E3 as (_ & _ & _ & _ & K3). apply K3. exact M2.
Qed.

Lemma lookup_step_ok :
  forall (self : CodeVisitor) (entry : string * string) (st : option string * Z),
    has_colon (snd entry) ->
    (forall b, fst st = Some b -> has_colon b) ->
    exists st', lookup_step self entry st = Ok st'
                /\ (forall b, fst st' = Some b -> has_colon b).
Proof.
  intros self [package node_id] [best_id best_score] Hc Hb. cbn [fst snd] in *.
  unfold lookup_step.
  assert (Hnew : forall b, Some node_id = Some b -> has_colon b)
    by (intros b H; inversion H; subst b; exact Hc).
  destruct (candidate_score self node_id >? best_score)%Z;
    [eexists; split; [reflexivity | exact Hnew] |].
  destruct (candidate_score self node_id =? best_score)%Z;
    [| eexists; split; [reflexivity | exact Hb]].
  destruct best_id as [b |]; [| eexists; split; [reflexivity | exact Hnew]].
  destruct (has_colon_split1 b (Hb b eq_refl)) as (kind & full & ->).
  destruct (String.ltb package _); eexists; (split; [reflexivity |]);
    [exact Hnew | exact Hb].
Qed.

Lemma lookup_node_ok :
  forall (simple_name : string) (self : CodeVisitor),
    visitor_ok self ->
    exists r, lookup_node simple_name self = Ok r
              /\ (forall b, r = Some b -> has_colon b).
Proof.
  intros nm self (_ & _ & _ & _ & Htab & _). unfold lookup_node.
  destruct (dict_get nm (reference_table self)) as [candidates |] eqn:E;
    [| exists None; split; [reflexivity | discriminate]].
  assert (Hloop : forall l st,
             (forall p i, In (p, i) l -> has_colon i) ->
             (forall b, fst st = Some b -> has_colon b) ->
             exists st', for_each (lookup_step self) l st = Ok st'
                         /\ (forall b, fst st' = Some b -> has_colon b)).
  { induction l as [| [p i] l IH]; intros st Hl Hst; cbn [for_each].
    - exists st. split; [reflexivity | exact Hst].
    - destruct (lookup_step_ok self (p, i) st (Hl p i (or_introl eq_refl)) Hst)
        as (st1 & E1 & H1).
      rewrite E1. cbn [bind]. apply IH; [| exact H1].
      intros p' i' Hin. apply (Hl p' i'). right. exact Hin. }
  destruct candidates as [| c candidates];
    [exists None; split; [reflexivity | discriminate] |].
  destruct (Hloop (c :: candidates) (None, (-1)%Z)) as (st' & Est & Hst').
  - intros p i Hin. exact (Htab nm _ p i E Hin).
  - cbn [fst]. discriminate.
  - rewrite Est. cbn [bind]. exists (fst st'). split; [reflexivity | exact Hst'].
Qed.

Lemma or_else_colon :
  forall (found : option string) (computed : string),
    (forall b, found = Some b -> has_colon b) -> has_colon computed ->
    has_colon (or_else found computed).
Proof.
  intros [b |] computed Hf Hc; cbn [or_else]; [| exact Hc].
  destruct (truthy b); [apply Hf; reflexivity | exact Hc].
Qed.

Lemma set_cache_ok :
  forall (m target : string) (self : CodeVisitor),
    visitor_ok self -> has_colon target ->
    visitor_ok (set_imported_module_cache
                  (dict_set m target (imported_module_cache self)) self)
    /\ extends self (set_imported_module_cache
                       (dict_set m target (imported_module_cache self)) self).
Proof.
  intros m target self (Hnd & Hnodes & Hpar & Hmod & Htab & Hcache) Hc. split.
  - unfold visitor_ok. cbn [graph_nodes current_parent_ids module_id reference_table
                            imported_module_cache set_imported_module_cache].
    repeat (split; [assumption |]).
    intros m' cached. rewrite dict_get_set. destruct (String.eqb m' m); [| apply Hcache].
    intro H. inversion H. subst cached. exact Hc.
  - repeat split; auto.
Qed.

Lemma import_module_ok :
  forall (pf : Platform) (m : string), runs_ok (visitor.import_module pf m).
Proof.
  intros pf m self Hok. unfold visitor.import_module.
  set (target := match dict_get m (imported_module_cache self) with
                 | Some cached => cached
                 | None => ("module:" ++ m)%string
                 end).
  assert (Hc : has_colon target).
  { unfold target. destruct (dict_get m (imported_module_cache self)) as [cached |] eqn:E.
    - destruct Hok as (_ & _ & _ & _ & _ & Hcache). exact (Hcache m cached E).
    - apply (has_colon_app "module" m). }
  destruct (set_cache_ok m target self Hok Hc) as (H1 & E1).
  set (s1 := set_imported_module_cache _ self) in *.
  match goal with
  | |- exists self', append_edge _ _ ?s = _ /\ _ => set (s2 := s)
  end.
  assert (H2 : visitor_ok s2 /\ extends s1 s2).
  { unfold s2. destruct (negb (dict_mem target (graph_nodes s1)));
      [| split; [exact H1 | apply extends_refl]].
    set (node := mkGraphNode target m MODULE (mkMetadata (find_package_source pf m) false) []).
    destruct (set_node_ok s1 target node H1 eq_refl Hc eq_refl) as (Ha & Ea & _).
    destruct (update_table_ok node _ Ha Hc) as (Hb & Eb).
    split; [exact Hb | exact (extends_trans _ _ _ Ea Eb)]. }
  destruct H2 as (H2 & E2).
  assert (Em : module_id s2 = module_id self).
  { destruct E1 as (_ & M1 & _). destruct E2 as (_ & M2 & _). congruence. }
  assert (Hmem : dict_mem (module_id s2) (graph_nodes s2) = true)
    by (destruct H2 as (_ & _ & _ & Hm & _); exact Hm).
  change (new_GraphEdge IMPORTS (module_id s2) target MODULE MODULE)
    with (Ok (mkGraphEdge IMPORTS (module_id s2) target MODULE MODULE)).
  destruct (append_edge_ok (module_id s2)
              (mkGraphEdge IMPORTS (module_id s2) target MODULE MODULE) s2 H2 Hmem)
    as (s3 & Hs3 & H3 & E3).
  exists s3. split; [exact Hs3 |]. split; [exact H3 |].
  exact (extends_trans _ _ _ (extends_trans _ _ _ E1 E2) E3).
Qed.

Lemma for_each_runs_ok :
  forall (A : Type) (body : A -> CodeVisitor -> result CodeVisitor) (l : list A),
    Forall (fun x => runs_ok (body x)) l -> runs_ok (for_each body l).
Proof.
  intros A body l H. induction H as [| x l Hx _ IH]; intros self Hok; cbn [for_each].
  - exists self. split; [reflexivity |]. split; [exact Hok | apply extends_refl].
  - destruct (Hx self Hok) as (s1 & E1 & H1 & X1). rewrite E1. cbn [bind].
    destruct (IH s1 H1) as (s2 & E2 & H2 & X2).
    exists s2. split; [exact E2 |]. split; [exact H2 | exact (extends_trans _ _ _ X1 X2)].
Qed.

Lemma bind_runs_ok :
  forall f g : CodeVisitor -> result CodeVisitor,
    runs_ok f -> runs_ok g -> runs_ok (fun self => self <- f self ;; g self).
Proof.
  intros f g Hf Hg self Hok. destruct (Hf self Hok) as (s1 & E1 & H1 & X1).
  rewrite E1. cbn [bind]. destruct (Hg s1 H1) as (s2 & E2 & H2 & X2).
  exists s2. split; [exact E2 |]. split; [exact H2 | exact (extends_trans _ _ _ X1 X2)].
Qed.

Lemma handle_decorator_ok :
  forall (target_id : string) (decorator : ast) (self : CodeVisitor),
    visitor_ok self -> dict_mem target_id (graph_nodes self) = true ->
    exists self',
      visitor.handle_decorator target_id decorator self = Ok self'
      /\ visitor_ok self' /\ extends self self'.
Proof.
  intros target_id decorator self Hok Hmem.
  assert (Hemit : forall did,
             exists self',
               append_built_edge
                 (new_GraphEdge DECORATES did target_id FUNCTION
                    (if startswith "function:" target_id then FUNCTION else CLASS))
                 target_id self = Ok self'
               /\ visitor_ok self' /\ extends self self').
  { intros did. unfold append_built_edge.
    destruct (startswith "function:" target_id); cbn [new_GraphEdge bind];
      apply append_edge_ok; assumption. }
  destruct decorator; cbn [visitor.handle_decorator];
    try (exists self; split; [reflexivity |]; split; [exact Hok | apply extends_refl]).
  - destruct (lookup_node_ok id0 self Hok) as (r & -> & _). cbn [bind]. apply Hemit.
  - match goal with
    | |- context [lookup_node ?n self] =>
        destruct (lookup_node_ok n self Hok) as (r & -> & _)
    end.
    cbn [bind]. apply Hemit.
Qed.

Lemma handle_decorators_ok :
  forall (decorator_list : list ast) (target_id : string) (self : CodeVisitor),
    visitor_ok self -> dict_mem target_id (graph_nodes self) = true ->
    exists self',
      visitor.handle_decorators decorator_list target_id self = Ok self'
      /\ visitor_ok self' /\ extends self self'.
Proof.
  unfold visitor.handle_decorators.
  induction decorator_list as [| d l IH]; intros target_id self Hok Hmem; cbn [for_each].
  - exists self. split; [reflexivity |]. split; [exact Hok | apply extends_refl].
  - destruct (handle_decorator_ok target_id d self Hok Hmem) as (s1 & E1 & H1 & X1).
    rewrite E1. cbn [bind].
    destruct (IH target_id s1 H1) as (s2 & E2 & H2 & X2).
    + destruct X1 as (_ & _ & _ & _ & K). apply K. exact Hmem.
    + exists s2. split; [exact E2 |]. split; [exact H2 |].
      exact (extends_trans _ _ _ X1 X2).
Qed.

Lemma innermost_is_parent :
  forall (prefix : string) (self : CodeVisitor) (p : string),
    innermost prefix self = Some p -> In p (current_parent_ids self).
Proof.
  intros prefix self p H. unfold innermost in H. apply find_some in H.
  apply in_rev. exact (proj1 H).
Qed.

Lemma called_function_id_of_ok :
  forall (func : ast) (self : CodeVisitor),
    visitor_ok self -> exists r, visitor.called_function_id_of func self = Ok r.
Proof.
  intros func self Hok.
  destruct func; cbn [visitor.called_function_id_of]; try (eexists; reflexivity).
  - destruct (lookup_node_ok id0 self Hok) as (r & -> & _). cbn [bind].
    destruct (dict_get _ (graph_nodes self)) as [node |]; [| eexists; reflexivity].
    destruct (is_callable (metadata node)); eexists; reflexivity.
  - destruct (_ && _).
    + destruct (innermost "class:" self) as [p |] eqn:E; [| eexists; reflexivity].
      pose proof Hok as (_ & Hnodes & Hpar & _).
      pose proof (Hpar p (innermost_is_parent _ _ _ E)) as Hmem.
      apply dict_mem_true in Hmem. destruct Hmem as [n Hn].
      destruct (Hnodes p n Hn) as (_ & Hc & _).
      destruct (has_colon_split1 p Hc) as (kind & full & ->). eexists. reflexivity.
    + assert (Hl : exists r, visitor.lookup_node_opt (visitor.name_id func) self = Ok r).
      { destruct (visitor.name_id func) as [o |]; cbn [visitor.lookup_node_opt];
          [| eexists; reflexivity].
        destruct (lookup_node_ok o self Hok) as (r & -> & _). eexists. reflexivity. }
      destruct Hl as (r & ->). cbn [bind].
      destruct (dict_get _ (graph_nodes self)) as [node |]; [| eexists; reflexivity].
      destruct (is_callable (metadata node)); eexists; reflexivity.
Qed.

Lemma visit_Call_ok :
  forall (generic_visit : CodeVisitor -> result CodeVisitor) (func : ast),
    runs_ok generic_visit -> runs_ok (visitor.visit_Call generic_visit func).
Proof.
  intros generic_visit func Hgen self Hok. unfold visitor.visit_Call.
  destruct (called_function_id_of_ok func self Hok) as (called & ->). cbn [bind].
  set (caller_id := match innermost "function:" self with
                    | Some p => p
                    | None => module_id self
                    end).
  assert (Hmem : dict_mem caller_id (graph_nodes self) = true).
  { pose proof Hok as (_ & _ & Hpar & Hmod & _). unfold caller_id.
    destruct (innermost "function:" self) as [p |] eqn:E; [| exact Hmod].
    exact (Hpar p (innermost_is_parent _ _ _ E)). }
  assert (H1 : exists s1,
             (if truthy_opt called
              then append_edge caller_id
                     (new_GraphEdge CALLS caller_id (visitor.format_opt called) FUNCTION
                        (if startswith "class:" (visitor.format_opt called)
                         then CLASS else FUNCTION))
                     self
              else Ok self) = Ok s1
             /\ visitor_ok s1 /\ extends self s1).
  { destruct (truthy_opt called);
      [| exists self; split; [reflexivity |]; split; [exact Hok | apply extends_refl]].
    destruct (startswith "class:" (visitor.format_opt called)); cbn [new_GraphEdge bind];
      apply append_edge_ok; assumption. }
  destruct H1 as (s1 & E1 & Hs1 & X1). rewrite E1. cbn [bind].
  destruct (Hgen s1 Hs1) as (s2 & E2 & Hs2 & X2).
  exists s2. split; [exact E2 |]. split; [exact Hs2 | exact (extends_trans _ _ _ X1 X2)].
Qed.

Lemma removelast_snoc :
  forall (A : Type) (l : list A) (x : A), removelast (l ++ [x]) = l.
Proof.
  intros A l x. rewrite removelast_app by discriminate. cbn. apply app_nil_r.
Qed.

Lemma pop_parent_snoc :
  forall (self : CodeVisitor) (l : list string) (x : string),
    current_parent_ids self = l ++ [x] ->
    visitor.pop_parent self = Ok (set_current_parent_ids l self).
Proof.
  intros self l x H. unfold visitor.pop_parent. rewrite H.
  destruct (l ++ [x]) eqn:E; [destruct l; discriminate |].
  rewrite <- E, removelast_snoc. reflexivity.
Qed.

(** Opening a scope for a stored node, running a step in it and closing it. *)
Lemma scoped_ok :
  forall (generic_visit : CodeVisitor -> result CodeVisitor)
         (decorator_list : list ast) (nid : string) (self : CodeVisitor),
    runs_ok generic_visit ->
    visitor_ok self -> dict_mem nid (graph_nodes self) = true ->
    exists self',
      (self <- visitor.handle_decorators decorator_list nid (visitor.push_parent nid self) ;;
       self <- generic_visit self ;;
       visitor.pop_parent self) = Ok self'
      /\ visitor_ok self' /\ extends self self'.
Proof.
  intros generic_visit decorator_list nid self Hgen Hok Hmem.
  assert (Hpush : visitor_ok (visitor.push_parent nid self)).
  { destruct Hok as (Hnd & Hnodes & Hpar & Hmod & Htab & Hcache).
    unfold visitor_ok, visitor.push_parent.
    cbn [graph_nodes current_parent_ids module_id reference_table
         imported_module_cache set_current_parent_ids].
    repeat (split; [assumption |]). split; [| repeat split; assumption].
    intros p Hp. apply in_app_or in Hp. destruct Hp as [Hp | [<- | []]];
      [apply Hpar; exact Hp | exact Hmem]. }
  destruct (handle_decorators_ok decorator_list nid _ Hpush Hmem) as (s1 & E1 & H1 & X1).
  rewrite E1. cbn [bind].
  destruct (Hgen s1 H1) as (s2 & E2 & H2 & X2). rewrite E2. cbn [bind].
  pose proof (extends_trans _ _ _ X1 X2) as (P & M & S & R & K).
  cbn [visitor.push_parent current_parent_ids module_id cv_source_file project_root
       graph_nodes set_current_parent_ids] in P, M, S, R, K.
  rewrite (pop_parent_snoc s2 _ _ P).
  eexists. split; [reflexivity |]. split.
  - destruct H2 as (Hnd & Hnodes & Hpar & Hmod & Htab & Hcache).
    unfold visitor_ok.
    cbn [graph_nodes current_parent_ids module_id reference_table
         imported_module_cache set_current_parent_ids].
    repeat (split; [assumption |]). split; [| repeat split; assumption].
    intros p Hp. apply Hpar. rewrite P. apply in_or_app. left. exact Hp.
  - repeat split; cbn [graph_nodes current_parent_ids module_id cv_source_file
                       project_root set_current_parent_ids]; auto.
Qed.

Lemma visit_ClassDef_ok :
  forall (generic_visit : CodeVisitor -> result CodeVisitor) (name : string)
         (body decorator_list : list ast),
    runs_ok generic_visit ->
    runs_ok (visitor.visit_ClassDef generic_visit name body decorator_list).
Proof.
  intros generic_visit name body decorator_list Hgen self Hok.
  unfold visitor.visit_ClassDef.
  destruct (lookup_node_ok name self Hok) as (r & -> & _). cbn [bind].
  destruct (truthy_opt r);
    [exists self; split; [reflexivity |]; split; [exact Hok | apply extends_refl] |].
  match goal with
  | |- context [visitor.add_node ?n self] =>
      destruct (add_node_ok n self Hok (compute_node_id_colon _ _ _) (or_introl eq_refl))
        as (s1 & E1 & H1 & X1 & M1)
  end.
  rewrite E1. cbn [bind id] in *.
  destruct (scoped_ok generic_visit decorator_list
              (visitor.compute_node_id CLASS name self) s1 Hgen H1 M1)
    as (s2 & E2 & H2 & X2).
  exists s2. split; [exact E2 |]. split; [exact H2 | exact (extends_trans _ _ _ X1 X2)].
Qed.

Lemma last_is_parent :
  forall (self : CodeVisitor),
    visitor_ok self ->
    dict_mem (last (current_parent_ids self) (module_id self)) (graph_nodes self) = true.
Proof.
  intros self (_ & _ & Hpar & Hmod & _).
  destruct (current_parent_ids self) as [| p l] eqn:E; [exact Hmod |].
  apply Hpar. destruct (exists_last (l := p :: l)) as (l' & x & Hx); [discriminate |].
  rewrite Hx, last_last. apply in_or_app. right. left. reflexivity.
Qed.

Lemma visit_FunctionDef_ok :
  forall (generic_visit : CodeVisitor -> result CodeVisitor) (name : string)
         (decorator_list : list ast),
    runs_ok generic_visit ->
    runs_ok (visitor.visit_FunctionDef generic_visit name decorator_list).
Proof.
  intros generic_visit name decorator_list Hgen self Hok.
  unfold visitor.visit_FunctionDef.
  destruct (lookup_node_ok name self Hok) as (r & -> & _). cbn [bind].
  destruct (truthy_opt r);
    [exists self; split; [reflexivity |]; split; [exact Hok | apply extends_refl] |].
  match goal with
  | |- context [visitor.add_node ?n self] =>
      destruct (add_node_ok n self Hok (compute_node_id_colon _ _ _) (or_intror eq_refl))
        as (s1 & E1 & H1 & X1 & M1)
  end.
  rewrite E1. cbn [bind id] in *.
  set (parent_id := last (current_parent_ids self) (module_id self)).
  set (function_id := visitor.compute_node_id FUNCTION name self) in *.
  assert (H2 : exists s2,
             (if startswith "class:" parent_id
              then append_built_edge
                     (new_GraphEdge CONTAINS parent_id function_id CLASS FUNCTION)
                     parent_id s1
              else Ok s1) = Ok s2
             /\ visitor_ok s2 /\ extends s1 s2).
  { destruct (startswith "class:" parent_id);
      [| exists s1; split; [reflexivity |]; split; [exact H1 | apply extends_refl]].
    unfold append_built_edge. cbn [new_GraphEdge bind]. apply append_edge_ok; [exact H1 |].
    destruct X1 as (_ & _ & _ & _ & K). apply K. apply last_is_parent. exact Hok. }
  destruct H2 as (s2 & E2 & H2 & X2). rewrite E2. cbn [bind].
  destruct (scoped_ok generic_visit decorator_list function_id s2 Hgen H2)
    as (s3 & E3 & H3 & X3).
  { destruct X2 as (_ & _ & _ & _ & K). apply K. exact M1. }
  exists s3. split; [exact E3 |]. split; [exact H3 |].
  exact (extends_trans _ _ _ (extends_trans _ _ _ X1 X2) X3).
Qed.

(** From a good state the visit of any syntax tree raises none of the
    modelled exceptions and ends in a good state. *)
Lemma visit_runs_ok :
  forall (pf : Platform) (tree : ast), runs_ok (visitor.visit pf tree).
Proof.
  intros pf tree. induction tree using ast_nested_ind; cbn [visitor.visit].
  - apply for_each_runs_ok. assumption.
  - unfold visitor.visit_Import. apply for_each_runs_ok.
    apply Forall_forall. intros m _. apply import_module_ok.
  - intros self Hok. unfold visitor.visit_ImportFrom.
    apply (for_each_runs_ok _ _ names); [| exact Hok].
    apply Forall_forall. intros m _. apply import_module_ok.
  - apply visit_ClassDef_ok.
    repeat apply bind_runs_ok; apply for_each_runs_ok; assumption.
  - apply visit_FunctionDef_ok.
    repeat apply bind_runs_ok; apply for_each_runs_ok; assumption.
  - apply visit_Call_ok.
    repeat apply bind_runs_ok;
      [exact IHtree | apply for_each_runs_ok; assumption ..].
  - intros self Hok. exists self. split; [reflexivity |].
    split; [exact Hok | apply extends_refl].
  - exact IHtree.
  - apply for_each_runs_ok. assumption.
Qed.

Lemma init_ok :
  forall (pf : Platform) (source_file code project_root : string) (self : CodeVisitor),
    visitor.init pf source_file code project_root = Ok self ->
    visitor_ok self /\ current_parent_ids self = [module_id self].
Proof.
  intros pf source_file code project_root self. unfold visitor.init.
  destruct (negb (truthy project_root)); [discriminate |].
  destruct (ast_parse pf code); [| discriminate].
  intro H. injection H as <-.
  set (mid := module_id_of pf source_file project_root).
  set (module_node := mkGraphNode mid (simple_name_of source_file) MODULE
                        (mkMetadata (Some source_file) false) []).
  set (s0 := mkCodeVisitor source_file project_root [(mid, module_node)] [] [] [] mid).
  assert (Hc : has_colon mid) by (apply (has_colon_app "module")).
  assert (H0 : visitor_ok s0).
  { unfold visitor_ok, s0.
    cbn [graph_nodes current_parent_ids module_id reference_table imported_module_cache].
    split; [repeat constructor; intros [] |].
    split.
    { intros k n. cbn [dict_get]. destruct (String.eqb_spec k mid) as [-> | _];
        [| discriminate].
      intro E. inversion E. subst n. auto. }
    split; [intros p [] |].
    split; [unfold dict_mem; cbn [dict_get]; rewrite String.eqb_refl; reflexivity |].
    split; intros; discriminate. }
  destruct (update_table_ok module_node s0 H0 Hc) as (H1 & (P & M & _ & _ & K)).
  split.
  - destruct H1 as (Hnd & Hnodes & Hpar & Hmod & Htab & Hcache).
    unfold visitor_ok.
    cbn [graph_nodes current_parent_ids module_id reference_table
         imported_module_cache set_current_parent_ids].
    repeat (split; [assumption |]). split; [| repeat split; assumption].
    intros p [<- | []]. rewrite M in Hmod. exact Hmod.
  - cbn [current_parent_ids module_id set_current_parent_ids]. rewrite M. reflexivity.
Qed.

(* ================================================================== *)
(** * The graph of one file *)

Lemma build_from_nodes_NoDup :
  forall (nodes : list GraphNode) (g : DiGraph),
    NoDup (dict_keys g) -> NoDup (dict_keys (build_from_nodes g nodes)).
Proof.
  intros nodes g H. unfold build_from_nodes.
  assert (H1 : NoDup (dict_keys (fold_left CodeGraph_add_node nodes g))).
  { revert g H. induction nodes as [| n nodes IH]; intros g H; cbn [fold_left];
      [exact H | apply IH, nx_add_node_NoDup, H]. }
  revert H1. generalize (fold_left CodeGraph_add_node nodes g). clear.
  induction nodes as [| n nodes IH]; intros g H; cbn [fold_left]; [exact H |].
  apply IH. revert g H. induction (relationships n) as [| e l IHl]; intros g H;
    cbn [fold_left]; [exact H | apply IHl, nx_add_edge_NoDup, H].
Qed.

Lemma build_from_nodes_closed :
  forall (nodes : list GraphNode) (g : DiGraph),
    edges_closed g -> edges_closed (build_from_nodes g nodes).
Proof.
  intros nodes g H. unfold build_from_nodes.
  assert (H1 : edges_closed (fold_left CodeGraph_add_node nodes g)).
  { revert g H. induction nodes as [| n nodes IH]; intros g H; cbn [fold_left];
      [exact H | apply IH, edges_closed_add_node, H]. }
  revert H1. generalize (fold_left CodeGraph_add_node nodes g). clear.
  induction nodes as [| n nodes IH]; intros g H; cbn [fold_left]; [exact H |].
  apply IH. revert g H. induction (relationships n) as [| e l IHl]; intros g H;
    cbn [fold_left]; [exact H | apply IHl, edges_closed_add_edge, H].
Qed.

Lemma edges_closed_empty : edges_closed [].
Proof. intros u v H. discriminate H. Qed.

Lemma dict_values_In :
  forall (V : Type) (d : dict V) (v : V),
    In v (dict_values d) <-> exists k, In (k, v) d.
Proof.
  intros V d v. unfold dict_values. rewrite in_map_iff. split.
  - intros [[k v'] [E Hin]]. cbn [snd] in E. subst v'. exists k. exact Hin.
  - intros [k Hin]. exists (k, v). split; [reflexivity | exact Hin].
Qed.

(** The nodes that a good visitor returns make a good graph. *)
Lemma visitor_graph_ok :
  forall self : CodeVisitor,
    visitor_ok self -> graph_ok (build_from_nodes [] (visitor.get_graph_nodes self)).
Proof.
  intros self (Hnd & Hnodes & _). unfold graph_ok.
  split; [apply build_from_nodes_NoDup; constructor |].
  split; [apply build_from_nodes_closed, edges_closed_empty |].
  intros x d Hd. unfold build_from_nodes in Hd.
  rewrite add_all_edges_node_data, add_nodes_node_data in Hd.
  destruct (find _ (rev (visitor.get_graph_nodes self))) as [n |] eqn:F;
    [| discriminate Hd].
  inversion Hd. subst n. apply find_some in F. destruct F as [Hin Hx].
  apply String.eqb_eq in Hx. apply in_rev in Hin.
  unfold visitor.get_graph_nodes in Hin. apply dict_values_In in Hin.
  destruct Hin as [k Hin].
  destruct (Hnodes k d (dict_In_get _ _ _ _ Hnd Hin)) as (Hid & Hc & _).
  subst x. rewrite Hid. split; [reflexivity | exact Hc].
Qed.

(** X9. The visitor's own operations never fail.  From the state that the
    constructor makes, the visit of any syntax tree raises none of the
    exceptions of the visitor: no [KeyError] from an access to
    [graph_nodes], no [ValueError] from making an edge, no [IndexError]
    from a lookup or from closing a scope.  A visit that returns has
    closed every scope it opened, leaving the module as the only open
    scope, has dropped no node, and has every node stored under its own
    id, which has the form [<kind>:<path>]. *)
Theorem visit_own_operations_never_fail :
  forall (pf : Platform) (source_file code project_root : string) (tree : ast)
         (self : CodeVisitor),
    visitor.init pf source_file code project_root = Ok self ->
    (forall e : exn, visitor.visit pf tree self <> Raise e)
    /\ (forall self' : CodeVisitor,
          visitor.visit pf tree self = Ok self' ->
          current_parent_ids self' = [module_id self]
          /\ module_id self' = module_id self
          /\ (forall k, dict_mem k (graph_nodes self) = true ->
                        dict_mem k (graph_nodes self') = true)
          /\ (forall k n, dict_get k (graph_nodes self') = Some n ->
                          id n = k /\ has_colon k)).
Proof.
  intros pf source_file code project_root tree self Hinit.
  destruct (init_ok _ _ _ _ _ Hinit) as (Hok & Hpar).
  destruct (visit_runs_ok pf tree self Hok) as (s & E & Hok' & (P & M & _ & _ & K)).
  split.
  - intros e He. rewrite E in He. discriminate He.
  - intros self' Hrun. rewrite E in Hrun. injection Hrun as <-.
    split; [congruence |]. split; [exact M |]. split; [exact K |].
    intros k n Hn. destruct Hok' as (_ & Hnodes & _).
    destruct (Hnodes k n Hn) as (Hid & Hc & _). split; assumption.
Qed.

Lemma visit_own_operations_never_fail_witness :
  exists self self',
    visitor.init demo_platform "/proj/dummy.py" decorated_code "/proj" = Ok self
    /\ visitor.visit demo_platform decorated_tree self = Ok self'
    /\ current_parent_ids self' = ["module:dummy.dummy"]
    /\ dict_keys (graph_nodes self') = ["module:dummy.dummy"; "function:dummy.f"].
Proof.
  eexists. eexists. split; [reflexivity |].
  match goal with
  | |- visitor.visit _ _ ?s = Ok ?s' /\ _ =>
      assert (Hrun : visitor.visit demo_platform decorated_tree s = Ok s')
        by reflexivity;
      destruct (visit_own_operations_never_fail demo_platform "/proj/dummy.py"
                  decorated_code "/proj" decorated_tree s eq_refl) as (_ & Hinv);
      destruct (Hinv s' Hrun) as (P & _)
  end.
  split; [exact Hrun |]. split; [exact P | reflexivity].
Defined.

Lemma build_from_code_ok :
  forall (pf : Platform) (source_file code project_root : string) (g : DiGraph),
    build_from_code pf source_file code project_root = Ok g -> graph_ok g.
Proof.
  intros pf source_file code project_root g. unfold build_from_code.
  destruct (ast_parse pf code) as [tree |]; [| discriminate].
  destruct (visitor.init pf source_file code project_root) as [self |] eqn:Hinit;
    cbn [bind]; [| discriminate].
  destruct (init_ok _ _ _ _ _ Hinit) as (Hok & _).
  destruct (visit_runs_ok pf tree self Hok) as (self' & E & Hok' & _).
  rewrite E. cbn [bind]. intro H. injection H as <-.
  apply visitor_graph_ok. exact Hok'.
Qed.

(** X10. The outcomes of [build_from_code].  Code that does not parse
    raises [SyntaxError], whatever the project root.  Code that parses
    raises [ValueError] when the project root is empty, which is the
    default of the parameter.  A graph is returned only for code that
    parses and a project root that is not empty, and a graph that is
    returned has unique node ids, every edge ends at one of its nodes, and
    every node with data is stored under its own id [<kind>:<path>]. *)
Theorem build_from_code_outcome :
  forall (pf : Platform) (source_file code project_root : string),
    (ast_parse pf code = None ->
     build_from_code pf source_file code project_root = Raise SyntaxError)
    /\ (ast_parse pf code <> None -> project_root = "" ->
        build_from_code pf source_file code project_root = Raise ValueError)
    /\ (forall g : DiGraph,
          build_from_code pf source_file code project_root = Ok g ->
          ast_parse pf code <> None /\ project_root <> "" /\ graph_ok g).
Proof.
  intros pf source_file code project_root. split; [| split].
  - intro Hp. unfold build_from_code. rewrite Hp. reflexivity.
  - intros Hp ->. unfold build_from_code.
    destruct (ast_parse pf code); [reflexivity | contradiction].
  - intros g Hg. split; [| split].
    + intro Hp. unfold build_from_code in Hg. rewrite Hp in Hg. discriminate Hg.
    + intros ->. unfold build_from_code in Hg.
      destruct (ast_parse pf code); discriminate Hg.
    + exact (build_from_code_ok _ _ _ _ _ Hg).
Qed.

Lemma build_from_code_outcome_witness :
  exists g,
    build_from_code demo_platform "/proj/dummy.py" "import os" "/proj" = Ok g
    /\ graph_ok g
    /\ dict_keys g = ["module:dummy.dummy"; "module:os"]
    /\ nx_has_edge g "module:dummy.dummy" "module:os" = true.
Proof.
  eexists. split; [reflexivity |]. split.
  - refine (proj2 (proj2 (proj2 (proj2 (build_from_code_outcome demo_platform
                                          "/proj/dummy.py" "import os" "/proj"))
                                   _ eq_refl))).
  - split; reflexivity.
Defined.

(* ================================================================== *)
(** * The graph of a project *)

Lemma merge_graphs_data_from :
  forall (master module_graph : DiGraph) (x : string) (d : GraphNode),
    NoDup (dict_keys module_graph) ->
    node_data (merge_graphs master module_graph) x = Some d ->
    node_data master x = Some d \/ node_data module_graph x = Some d.
Proof.
  intros master mg x d Hnd. unfold merge_graphs.
  rewrite merge_edges_node_data, merge_nodes_node_data.
  pose proof (find_rev_get _ mg x Hnd) as F. unfold node_data at 3.
  destruct (find _ (rev mg)) as [ue |]; cbn [option_map] in F; rewrite <- F; auto.
Qed.

Lemma merge_graphs_ok :
  forall master module_graph : DiGraph,
    graph_ok master -> graph_ok module_graph ->
    graph_ok (merge_graphs master module_graph).
Proof.
  intros master mg (Hnd & Hcl & Hdata) (Hnd' & _ & Hdata').
  split; [apply merge_graphs_NoDup, Hnd |].
  split; [apply edges_closed_merge_graphs, Hcl |].
  intros x d Hd. destruct (merge_graphs_data_from _ _ _ _ Hnd' Hd) as [H | H];
    [exact (Hdata x d H) | exact (Hdata' x d H)].
Qed.

Lemma process_file_ok :
  forall (pf : Platform) (root filepath : string) (master master' : DiGraph),
    process_file pf root filepath master = Ok master' ->
    graph_ok master -> graph_ok master'.
Proof.
  intros pf root filepath master master'. unfold process_file.
  destruct (read_python_file pf filepath) as [code |];
    [| intro H; injection H as <-; auto].
  destruct (build_from_code pf filepath code root) as [mg |] eqn:E; cbn [bind];
    [| discriminate].
  intro H. injection H as <-. intro Hm.
  apply merge_graphs_ok; [exact Hm | exact (build_from_code_ok _ _ _ _ _ E)].
Qed.

Lemma graph_ok_empty : graph_ok [].
Proof.
  split; [constructor |]. split; [apply edges_closed_empty |].
  intros x d H. discriminate H.
Qed.

Lemma graph_ok_well_formed : forall g : DiGraph, graph_ok g -> ids_well_formed g.
Proof.
  intros g (_ & _ & Hdata) a d Hd _. exact (proj2 (Hdata a d Hd)).
Qed.

(** X11. The graph of a project.  When [build_project_graph] returns a
    graph, every file that it could read has parsed (one that does not
    parse makes it raise), and with such a file the root path is not
    empty.  The graph has unique node ids, no two nodes with data share a
    simple name, every edge ends at a node of the graph, and every node
    with data is stored under its own id [<kind>:<path>]; the second
    [merge_nodes_by_reference] that [main.py] runs on it changes
    nothing. *)
Theorem build_project_graph_result :
  forall (pf : Platform) (project_path : string) (g : DiGraph),
    build_project_graph pf project_path = Ok g ->
    (forall filepath code,
        In filepath (rglob_py pf (Path_str pf project_path)) ->
        read_text pf filepath = Some code ->
        ast_parse pf code <> None /\ Path_str pf project_path <> "")
    /\ graph_ok g /\ names_unique g /\ merge_nodes_by_reference g = Ok g.
Proof.
  intros pf project_path g. unfold build_project_graph.
  set (root := Path_str pf project_path). intro Hg. split.
  - intros f code Hin Hr.
    assert (Hraise : ast_parse pf code = None \/ root = "" ->
                     exists e, for_each (process_file pf root) (rglob_py pf root) []
                               = Raise e).
    { intro Hbad.
      apply (for_each_raises _ _ (process_file pf root) (rglob_py pf root) f Hin).
      intros s. unfold process_file, read_python_file, build_from_code.
      rewrite Hr. destruct (ast_parse pf code) as [tree |] eqn:Hp.
      - destruct Hbad as [Hbad | ->]; [discriminate Hbad |].
        exists ValueError. reflexivity.
      - exists SyntaxError. reflexivity. }
    split.
    + intro Hp. destruct (Hraise (or_introl Hp)) as (e & He).
      rewrite He in Hg. discriminate Hg.
    + intro Hroot. destruct (Hraise (or_intror Hroot)) as (e & He).
      rewrite He in Hg. discriminate Hg.
  - destruct (for_each (process_file pf root) (rglob_py pf root) []) as [master |] eqn:E;
      cbn [bind] in Hg; [| discriminate].
    assert (Hm : graph_ok master).
    { refine (for_each_preserves _ _ graph_ok (process_file pf root) (rglob_py pf root)
                _ [] master graph_ok_empty E).
      apply Forall_forall. intros f _ s s' Hs Hstep.
      exact (process_file_ok _ _ _ _ _ Hstep Hs). }
    destruct Hm as (Hnd & Hcl & Hdata).
    pose proof (merge_names_unique _ _ Hg) as Hu.
    pose proof (merge_groups_NoDup _ _ _ Hg Hnd) as Hnd1.
    split; [| split; [exact Hu | exact (merge_noop g Hnd1 Hu)]].
    split; [exact Hnd1 |].
    split.
    + refine (for_each_preserves _ _ edges_closed merge_group (simple_to_ids master)
                _ master g Hcl Hg).
      apply Forall_forall. intros grp _ s s' Hs Hstep.
      exact (edges_closed_merge_group _ _ _ Hstep Hs).
    + intros x d Hd. apply Hdata. exact (merge_groups_mono _ _ _ _ _ Hg Hd).
Qed.

Lemma build_project_graph_result_witness :
  exists g,
    build_project_graph clean_platform "/proj" = Ok g
    /\ graph_ok g /\ names_unique g
    /\ dict_keys g
       = ["module:pkg.mod.mod"; "module:pkg.mod.utils.helper"; "module:dummy.dummy";
          "module:os"].
Proof.
  eexists. split; [vm_compute; reflexivity |].
  match goal with
  | |- graph_ok ?g /\ _ =>
      destruct (build_project_graph_result clean_platform "/proj" g)
        as (_ & Hok & Hu & _); [vm_compute; reflexivity |]
  end.
  split; [exact Hok |]. split; [exact Hu | reflexivity].
Defined.

(** X12. A file that cannot be read has no effect on the project graph:
    the loop of [build_project_graph] over all files does what the loop
    over the readable files does, and a project none of whose files can be
    read has the empty graph. *)
Theorem unreadable_files_are_skipped :
  forall (pf : Platform) (root : string) (files : list string) (master : DiGraph),
    for_each (process_file pf root) files master
    = for_each (process_file pf root) (filter (readable pf) files) master
    /\ (forall project_path,
          filter (readable pf) (rglob_py pf (Path_str pf project_path)) = [] ->
          build_project_graph pf project_path = Ok []).
Proof.
  intros pf root files master. split.
  - revert master. induction files as [| f files IH]; intros master;
      cbn [filter for_each]; [reflexivity |].
    unfold readable at 1. unfold process_file at 1.
    destruct (read_python_file pf f) as [code |] eqn:Er; cbn [for_each bind].
    + unfold process_file at 2. rewrite Er.
      destruct (build_from_code pf f code root); cbn [bind]; [apply IH | reflexivity].
    + apply IH.
  - intros project_path Hnone. unfold build_project_graph.
    assert (H : forall l m, filter (readable pf) l = [] ->
                            for_each (process_file pf (Path_str pf project_path)) l m
                            = Ok m).
    { induction l as [| f l IHl]; intros m Hl; cbn [for_each]; [reflexivity |].
      cbn [filter] in Hl. unfold process_file at 1. unfold readable in Hl.
      destruct (read_python_file pf f); [discriminate Hl |]. cbn [bind].
      apply IHl. exact Hl. }
    rewrite (H _ _ Hnone). reflexivity.
Qed.

(* ================================================================== *)
(** * Component extraction *)

(** X13. The outcomes of [extract_code_components].  For code that does
    not parse it returns no component instead of raising [SyntaxError].
    For code that parses it raises [ValueError] when the project root is
    empty.  Components returned for code that parses come with a project
    root that is not empty: the module node is one of them, no two have
    the same id, each id has the form [<kind>:<path>], and a graph that
    [build_from_code] returns for the same file is the graph of these
    components. *)
Theorem extract_code_components_outcome :
  forall (pf : Platform) (source_file code project_root : string),
    (ast_parse pf code = None ->
     extract_code_components pf source_file code project_root = Ok [])
    /\ (ast_parse pf code <> None -> project_root = "" ->
        extract_code_components pf source_file code project_root = Raise ValueError)
    /\ (forall nodes : list GraphNode,
          extract_code_components pf source_file code project_root = Ok nodes ->
          ast_parse pf code <> None ->
          project_root <> ""
          /\ (exists node, In node nodes
                           /\ id node = module_id_of pf source_file project_root)
          /\ NoDup (map id nodes)
          /\ (forall node, In node nodes -> has_colon (id node))
          /\ (forall g : DiGraph,
                build_from_code pf source_file code project_root = Ok g ->
                g = build_from_nodes [] nodes)).
Proof.
  intros pf source_file code project_root.
  unfold extract_code_components, build_from_code. split; [| split].
  - intros ->. reflexivity.
  - intros Hp ->. destruct (ast_parse pf code); [reflexivity | contradiction].
  - intros nodes Hrun Hp.
    destruct (ast_parse pf code) as [tree |] eqn:Ep; [| contradiction].
    destruct (visitor.init pf source_file code project_root) as [self |] eqn:Hinit;
      cbn [bind] in Hrun |- *; [| discriminate Hrun].
    destruct (visitor.visit pf tree self) as [self' |] eqn:E;
      cbn [bind] in Hrun |- *; [| discriminate Hrun].
    injection Hrun as <-.
    split.
    { intros ->. unfold visitor.init in Hinit. discriminate Hinit. }
    destruct (init_ok _ _ _ _ _ Hinit) as (Hok & _).
    destruct (visit_runs_ok pf tree self Hok)
      as (s & Es & Hok' & (_ & M & _ & _ & K)).
    rewrite E in Es. injection Es as <-.
    destruct Hok' as (Hnd & Hnodes & _ & Hmod & _).
    assert (Hin : forall k n, In (k, n) (graph_nodes self') -> id n = k /\ has_colon k).
    { intros k n H. destruct (Hnodes k n (dict_In_get _ _ _ _ Hnd H)) as (? & ? & _).
      split; assumption. }
    split; [| split; [| split]].
    + apply dict_mem_true in Hmod. destruct Hmod as (n & Hn).
      exists n. split.
      * unfold visitor.get_graph_nodes. apply dict_values_In.
        exists (module_id self'). exact (dict_get_In _ _ _ _ Hn).
      * rewrite (proj1 (Hnodes _ _ Hn)), M. exact (init_module_id _ _ _ _ _ Hinit).
    + unfold visitor.get_graph_nodes, dict_values. rewrite map_map.
      replace (map (fun x => id (snd x)) (graph_nodes self'))
        with (dict_keys (graph_nodes self')); [exact Hnd |].
      unfold dict_keys. apply map_ext_in. intros [k n] H. cbn [fst snd].
      symmetry. exact (proj1 (Hin k n H)).
    + intros node H. unfold visitor.get_graph_nodes in H. apply dict_values_In in H.
      destruct H as (k & H). destruct (Hin k node H) as (-> & Hc). exact Hc.
    + intros g Hg. injection Hg as <-. reflexivity.
Qed.

Lemma extract_code_components_outcome_witness :
  (extract_code_components demo_platform "/proj/bad.py" "def (" "/proj" = Ok [])
  /\ exists nodes,
       extract_code_components demo_platform "/proj/dummy.py" "import os" "/proj"
       = Ok nodes
       /\ map id nodes = ["module:dummy.dummy"; "module:os"]
       /\ NoDup (map id nodes).
Proof.
  pose proof (extract_code_components_outcome demo_platform "/proj/bad.py" "def ("
                "/proj") as (Hbad & _).
  split; [exact (Hbad eq_refl) |].
  eexists. split; [reflexivity |]. split; [reflexivity |].
  refine (proj1 (proj2 (proj2 (proj2 (proj2 (extract_code_components_outcome
            demo_platform "/proj/dummy.py" "import os" "/proj")) _ eq_refl _)))).
  discriminate.
Defined.

(** X14. For code without a decorator that is a name or an attribute,
    every component that [extract_code_components] returns holds only
    relationships that start at the component itself: each of them is one
    that [GraphNode.add_relationship] accepts. *)
Theorem undecorated_components_own_their_edges :
  forall (pf : Platform) (source_file code project_root : string) (tree : ast)
         (nodes : list GraphNode),
    ast_parse pf code = Some tree -> undecorated tree = true ->
    extract_code_components pf source_file code project_root = Ok nodes ->
    forall node e,
      In node nodes -> In e (relationships node) ->
      source_node_id e = id node
      /\ add_relationship node e = Ok (append_relationship node e).
Proof.
  intros pf source_file code project_root tree nodes Hp Hu.
  unfold extract_code_components. rewrite Hp.
  destruct (visitor.init pf source_file code project_root) as [self |] eqn:Hinit;
    cbn [bind]; [| discriminate].
  destruct (visitor.visit pf tree self) as [self' |] eqn:E; cbn [bind]; [| discriminate].
  intro H. injection H as <-. intros node e Hin He.
  pose proof (visit_owns_edges pf tree Hu self self' (init_owns_edges _ _ _ _ _ Hinit) E)
    as Hown.
  destruct (init_ok _ _ _ _ _ Hinit) as (Hok & _).
  destruct (visit_runs_ok pf tree self Hok) as (s & Es & (Hnd & Hnodes & _) & _).
  rewrite E in Es. injection Es as <-.
  unfold visitor.get_graph_nodes in Hin. apply dict_values_In in Hin.
  destruct Hin as (k & Hin). pose proof (dict_In_get _ _ _ _ Hnd Hin) as Hget.
  destruct (Hnodes k node Hget) as (Hid & _).
  assert (Hs : source_node_id e = id node).
  { rewrite Hid. exact (Hown k node e Hget He). }
  split; [exact Hs |]. unfold add_relationship. rewrite Hs, String.eqb_refl. reflexivity.
Qed.

Lemma undecorated_components_own_their_edges_witness :
  exists nodes,
    extract_code_components demo_platform "/proj/dummy.py" "import os" "/proj" = Ok nodes
    /\ forall node e, In node nodes -> In e (relationships node) ->
                      source_node_id e = id node.
Proof.
  eexists. split; [reflexivity |]. intros node e Hin He.
  exact (proj1 (undecorated_components_own_their_edges demo_platform "/proj/dummy.py"
                  "import os" "/proj" (Module [Import ["os"]]) _ eq_refl eq_refl eq_refl
                  node e Hin He)).
Defined.

(* ================================================================== *)
(** * Lookup among any number of candidates *)

Lemma candidate_score_nonneg :
  forall (self : CodeVisitor) (i : string), (0 <= candidate_score self i)%Z.
Proof.
  intros self i. unfold candidate_score.
  destruct (dict_get i (graph_nodes self)) as [n |]; [| lia].
  destruct (has_source_file n); lia.
Qed.

Lemma lookup_step_best :
  forall (self : CodeVisitor) (seen : dict string) (entry : string * string)
         (st st' : option string * Z),
    best_so_far self seen st ->
    lookup_step self entry st = Ok st' ->
    best_so_far self (seen ++ [entry]) st'.
Proof.
  intros self seen [p i] [b s] st' (Hle & Hb). cbn [fst snd] in *.
  pose proof (candidate_score_nonneg self i) as Hpos.
  assert (Hnew : (s <= candidate_score self i)%Z ->
                 best_so_far self (seen ++ [(p, i)]) (Some i, candidate_score self i)).
  { intro Hs. split; cbn [fst snd].
    - intros q j Hin. apply in_app_or in Hin. destruct Hin as [Hin | [E | []]].
      + specialize (Hle q j Hin). lia.
      + inversion E. lia.
    - split; [reflexivity |]. exists p. apply in_or_app. right. left. reflexivity. }
  assert (Hkeep : (candidate_score self i <= s)%Z -> b <> None ->
                  best_so_far self (seen ++ [(p, i)]) (b, s)).
  { intros Hs Hsome. split; cbn [fst snd].
    - intros q j Hin. apply in_app_or in Hin. destruct Hin as [Hin | [E | []]].
      + exact (Hle q j Hin).
      + inversion E. subst j. exact Hs.
    - destruct b as [b0 |]; [| contradiction].
      destruct Hb as (Hs0 & p0 & Hin). split; [exact Hs0 |].
      exists p0. apply in_or_app. left. exact Hin. }
  unfold lookup_step.
  destruct (Z.gtb_spec (candidate_score self i) s) as [Hgt | Hngt].
  { intro H. injection H as <-. apply Hnew. lia. }
  destruct (Z.eqb_spec (candidate_score self i) s) as [Heq | Hne].
  - destruct b as [b0 |].
    + destruct (str_split1 colon b0) as [| ? [| full ?]]; try discriminate.
      destruct (String.ltb p _); intro H; injection H as <-.
      * apply Hnew. lia.
      * apply Hkeep; [lia | discriminate].
    + intro H. injection H as <-. apply Hnew. lia.
  - intro H. injection H as <-. apply Hkeep; [lia |].
    destruct b; [discriminate |]. destruct Hb as (_ & Hneg). lia.
Qed.

Lemma lookup_loop_best :
  forall (self : CodeVisitor) (l seen : dict string) (st st' : option string * Z),
    best_so_far self seen st ->
    for_each (lookup_step self) l st = Ok st' ->
    best_so_far self (seen ++ l) st'.
Proof.
  intros self. induction l as [| entry l IH]; intros seen st st' Hst H; cbn [for_each] in H.
  - injection H as <-. rewrite app_nil_r. exact Hst.
  - destruct (lookup_step self entry st) as [st1 |] eqn:E; cbn [bind] in H;
      [| discriminate].
    replace (seen ++ entry :: l) with ((seen ++ [entry]) ++ l)
      by (rewrite <- app_assoc; reflexivity).
    exact (IH _ _ _ (lookup_step_best _ _ _ _ _ Hst E) H).
Qed.

(** X15. [lookup_node] over any number of candidates: a name without
    candidates resolves to [None]; otherwise the id that is returned is
    one of the candidates, and no candidate has a greater score, so a
    candidate without source file is returned only if no candidate has a
    source file. *)
Theorem lookup_node_best_score :
  forall (self : CodeVisitor) (simple_name : string),
    (dict_get simple_name (reference_table self) = None ->
     lookup_node simple_name self = Ok None)
    /\ (dict_get simple_name (reference_table self) = Some [] ->
        lookup_node simple_name self = Ok None)
    /\ (forall candidates r,
          dict_get simple_name (reference_table self) = Some candidates ->
          candidates <> [] ->
          lookup_node simple_name self = Ok r ->
          exists package node_id,
            r = Some node_id /\ In (package, node_id) candidates
            /\ forall q j, In (q, j) candidates ->
                           (candidate_score self j <= candidate_score self node_id)%Z).
Proof.
  intros self nm. unfold lookup_node. split; [intros ->; reflexivity |].
  split; [intros ->; reflexivity |].
  intros candidates r -> Hne.
  destruct candidates as [| c candidates]; [contradiction |].
  destruct (for_each (lookup_step self) (c :: candidates) (None, (-1)%Z)) as [st |] eqn:E;
    cbn [bind]; [| discriminate].
  intro H. injection H as <-.
  assert (H0 : best_so_far self [] (None, (-1)%Z)).
  { split; cbn [fst snd]; [intros q j [] | split; [reflexivity | lia]]. }
  pose proof (lookup_loop_best self _ _ _ _ H0 E) as (Hle & Hb). cbn [app] in *.
  destruct (fst st) as [i |]; [| destruct Hb; discriminate].
  destruct Hb as (Hs & p & Hin). exists p, i. split; [reflexivity |].
  split; [exact Hin |]. intros q j Hj. rewrite <- Hs. exact (Hle q j Hj).
Qed.

Lemma lookup_node_best_score_witness :
  let placeholder := mkGraphNode "function:a.f" "f" FUNCTION (mkMetadata None false) [] in
  let other := mkGraphNode "function:b.f" "f" FUNCTION (mkMetadata None false) [] in
  let definition :=
    mkGraphNode "function:c.f" "f" FUNCTION (mkMetadata (Some "c.py") false) [] in
  let self :=
    mkCodeVisitor "c.py" "/proj"
      [("function:a.f", placeholder); ("function:b.f", other);
       ("function:c.f", definition)] []
      [("f", [("a", "function:a.f"); ("b", "function:b.f"); ("c", "function:c.f")])]
      [] "module:c.c" in
  exists package node_id,
    lookup_node "f" self = Ok (Some node_id)
    /\ In (package, node_id) [("a", "function:a.f"); ("b", "function:b.f");
                              ("c", "function:c.f")]
    /\ (candidate_score self "function:c.f" <= candidate_score self node_id)%Z.
Proof.
  intros placeholder other definition self.
  destruct (proj2 (proj2 (lookup_node_best_score self "f"))
              [("a", "function:a.f"); ("b", "function:b.f"); ("c", "function:c.f")]
              (Some "function:c.f") eq_refl) as (package & node_id & Hr & Hin & Hbest).
  - discriminate.
  - reflexivity.
  - exists package, node_id. injection Hr as <-. split; [reflexivity |].
    split; [exact Hin |]. apply (Hbest "c"). right. right. left. reflexivity.
Defined.

(* ================================================================== *)
(** * Definitions and the reference table *)

Lemma append_edge_table :
  forall (nid : string) (e : GraphEdge) (self self' : CodeVisitor),
    append_edge nid (Ok e) self = Ok self' ->
    reference_table self' = reference_table self.
Proof.
  intros nid e self self'. unfold append_edge.
  destruct (dict_get nid (graph_nodes self)); [| discriminate].
  cbn [bind]. intro H. injection H as <-. reflexivity.
Qed.

Lemma add_node_table :
  forall (node : GraphNode) (self self' : CodeVisitor),
    visitor.add_node node self = Ok self' ->
    reference_table self'
    = reference_table
        (visitor.update_reference_table node
           (set_graph_nodes (dict_set (id node) node (graph_nodes self)) self)).
Proof.
  intros node self self'. unfold visitor.add_node.
  set (s2 := visitor.update_reference_table node _).
  destruct (rev (current_parent_ids s2)) as [| parent_id parents];
    [intro H; injection H as <-; reflexivity |].
  destruct (dict_get parent_id (graph_nodes s2)) as [parent |]; [| discriminate].
  destruct (new_GraphEdge CONTAINS parent_id (id node) (node_type parent) (node_type node))
    as [e |] eqn:Ee.
  - apply append_edge_table.
  - unfold append_edge. destruct (dict_get parent_id (graph_nodes s2)); discriminate.
Qed.

Lemma update_fresh_name :
  forall (node : GraphNode) (self : CodeVisitor),
    dict_get (name node) (reference_table self) = None ->
    dict_get (name node) (reference_table (visitor.update_reference_table node self))
    = Some [(package_of_id (id node), id node)].
Proof.
  intros node self Hfresh. unfold visitor.update_reference_table.
  unfold dict_mem. rewrite Hfresh. cbn [negb].
  rewrite dict_get_app, Hfresh. cbn [dict_get]. rewrite String.eqb_refl.
  cbn [dict_get dict_set reference_table set_reference_table].
  apply dict_get_set_same.
Qed.

(** X16. Registering a node under a simple name that the reference table
    does not have makes the name resolve to the node, and from then on a
    class or function definition with this simple name is ignored: the
    visitor returns the state unchanged and does not visit the body. *)
Theorem definition_shadows_later_ones :
  forall (node : GraphNode) (self self' : CodeVisitor),
    dict_get (name node) (reference_table self) = None ->
    id node <> "" ->
    visitor.add_node node self = Ok self' ->
    lookup_node (name node) self' = Ok (Some (id node))
    /\ (forall generic_visit body decorator_list,
          visitor.visit_ClassDef generic_visit (name node) body decorator_list self'
          = Ok self')
    /\ (forall generic_visit decorator_list,
          visitor.visit_FunctionDef generic_visit (name node) decorator_list self'
          = Ok self').
Proof.
  intros node self self' Hfresh Hid Hadd.
  assert (Hl : lookup_node (name node) self' = Ok (Some (id node))).
  { unfold lookup_node. rewrite (add_node_table _ _ _ Hadd).
    rewrite update_fresh_name by exact Hfresh.
    cbn [for_each]. unfold lookup_step.
    pose proof (candidate_score_nonneg self' (id node)) as Hpos.
    destruct (Z.gtb_spec (candidate_score self' (id node)) (-1)) as [_ | Hle]; [| lia].
    reflexivity. }
  split; [exact Hl |]. split.
  - intros generic_visit body decorator_list. unfold visitor.visit_ClassDef.
    rewrite Hl. cbn [bind truthy_opt]. rewrite (truthy_neq _ Hid). reflexivity.
  - intros generic_visit decorator_list. unfold visitor.visit_FunctionDef.
    rewrite Hl. cbn [bind truthy_opt]. rewrite (truthy_neq _ Hid). reflexivity.
Qed.

Lemma definition_shadows_later_ones_witness :
  let node :=
    mkGraphNode "function:dummy.run" "run" FUNCTION
      (mkMetadata (Some "/proj/dummy.py") false) [] in
  exists self self',
    visitor.init demo_platform "/proj/dummy.py" "import os" "/proj" = Ok self
    /\ visitor.add_node node self = Ok self'
    /\ lookup_node "run" self' = Ok (Some "function:dummy.run")
    /\ visitor.visit demo_platform (FunctionDef "run" [] [Other []] [] []) self'
       = Ok self'.
Proof.
  intros node. eexists. eexists.
  split; [reflexivity |]. split; [reflexivity |].
  match goal with
  | |- lookup_node _ ?s' = _ /\ _ =>
      destruct (definition_shadows_later_ones node
                  {| cv_source_file := "/proj/dummy.py";
                     project_root := "/proj";
                     graph_nodes :=
                       [("module:dummy.dummy",
                         mkGraphNode "module:dummy.dummy" "dummy" MODULE
                           (mkMetadata (Some "/proj/dummy.py") false) [])];
                     current_parent_ids := ["module:dummy.dummy"];
                     reference_table := [("dummy", [("dummy", "module:dummy.dummy")])];
                     imported_module_cache := [];
                     module_id := "module:dummy.dummy" |}
                  s' eq_refl) as (Hl & _ & Hf)
  end.
  - discriminate.
  - reflexivity.
  - split; [exact Hl | exact (Hf _ [])].
Defined.

(* ================================================================== *)
(** * Methods *)

Lemma keeps_node_refl :
  forall (c : string) (self : CodeVisitor), keeps_node c self self.
Proof. intros c self. split; reflexivity. Qed.

Lemma keeps_node_trans :
  forall (c : string) (s1 s2 s3 : CodeVisitor),
    keeps_node c s1 s2 -> keeps_node c s2 s3 -> keeps_node c s1 s3.
Proof. intros c s1 s2 s3 (P1 & G1) (P2 & G2). split; congruence. Qed.

Lemma append_edge_keeps_node :
  forall (c nid : string) (edge : result GraphEdge) (self self' : CodeVisitor),
    nid <> c -> append_edge nid edge self = Ok self' -> keeps_node c self self'.
Proof.
  intros c nid edge self self' Hne. unfold append_edge.
  destruct (dict_get nid (graph_nodes self)) as [node |]; [| discriminate].
  destruct edge as [e |]; cbn [bind]; [| discriminate].
  intro H. injection H as <-. split; cbn [current_parent_ids graph_nodes set_graph_nodes].
  - reflexivity.
  - apply dict_get_set_other. exact Hne.
Qed.

Lemma for_each_keeps_node :
  forall (A : Type) (c : string) (body : A -> CodeVisitor -> result CodeVisitor)
         (l : list A),
    (forall x s s', In x l -> body x s = Ok s' -> keeps_node c s s') ->
    forall s s', for_each body l s = Ok s' -> keeps_node c s s'.
Proof.
  intros A c body l. induction l as [| x l IH]; intros Hb s s'; cbn [for_each].
  - intro H. injection H as <-. apply keeps_node_refl.
  - destruct (body x s) as [s1 |] eqn:E; cbn [bind]; [| discriminate].
    intro H. apply (keeps_node_trans c s s1 s').
    + exact (Hb x s s1 (or_introl eq_refl) E).
    + apply IH; [| exact H]. intros y t t' Hy. apply Hb. right. exact Hy.
Qed.

Lemma handle_decorators_keeps_node :
  forall (c target_id : string) (decorator_list : list ast) (self self' : CodeVisitor),
    target_id <> c ->
    visitor.handle_decorators decorator_list target_id self = Ok self' ->
    keeps_node c self self'.
Proof.
  intros c target_id decorator_list self self' Hne. unfold visitor.handle_decorators.
  apply for_each_keeps_node. intros d s s' _.
  assert (Hemit : forall edge, append_built_edge edge target_id s = Ok s' ->
                               keeps_node c s s').
  { intros edge. unfold append_built_edge. destruct edge as [e |]; cbn [bind];
      [| discriminate]. apply append_edge_keeps_node. exact Hne. }
  destruct d; cbn [visitor.handle_decorator];
    try (intro H; injection H as <-; apply keeps_node_refl).
  - match goal with
    | |- context [lookup_node ?n s] => destruct (lookup_node n s)
    end; cbn [bind]; [apply Hemit | discriminate].
  - match goal with
    | |- context [lookup_node ?n s] => destruct (lookup_node n s)
    end; cbn [bind]; [apply Hemit | discriminate].
Qed.

Lemma innermost_keeps :
  forall (prefix : string) (s s' : CodeVisitor),
    current_parent_ids s' = current_parent_ids s ->
    innermost prefix s' = innermost prefix s.
Proof. intros prefix s s' H. unfold innermost. rewrite H. reflexivity. Qed.

(** Inside a function [f], the visit of a tree without definitions and
    imports appends edges to the node of [f] only. *)
Lemma defines_nothing_keeps_node :
  forall (pf : Platform) (c f : string) (node : ast),
    defines_nothing node = true ->
    forall self self' : CodeVisitor,
      innermost "function:" self = Some f -> f <> c ->
      visitor.visit pf node self = Ok self' -> keeps_node c self self'.
Proof.
  intros pf c f node. induction node using ast_nested_ind; intro Hd;
    cbn [defines_nothing] in Hd; try discriminate Hd;
    intros self self' Hin Hfc; cbn [visitor.visit].
  - (* Call *)
    apply andb_prop in Hd. destruct Hd as [Hd Hk].
    apply andb_prop in Hd. destruct Hd as [Hf Ha].
    unfold visitor.visit_Call. rewrite Hin.
    destruct (visitor.called_function_id_of node self) as [called |]; cbn [bind];
      [| discriminate].
    match goal with
    | |- bind ?step _ = _ -> _ => destruct step as [s1 |] eqn:E1
    end; cbn [bind]; [| discriminate].
    assert (K1 : keeps_node c self s1).
    { destruct (truthy_opt called).
      - exact (append_edge_keeps_node c f _ self s1 Hfc E1).
      - injection E1 as <-. apply keeps_node_refl. }
    assert (Hlist : forall l,
               Forall (fun x => defines_nothing x = true ->
                                forall self self' : CodeVisitor,
                                  innermost "function:" self = Some f -> f <> c ->
                                  visitor.visit pf x self = Ok self' ->
                                  keeps_node c self self') l ->
               forallb defines_nothing l = true ->
               forall s s', innermost "function:" s = Some f ->
                            for_each (visitor.visit pf) l s = Ok s' ->
                            keeps_node c s s').
    { intros l HF Hl. rewrite Forall_forall in HF. rewrite forallb_forall in Hl.
      induction l as [| x l IHl]; intros s s' Hs; cbn [for_each].
      - intro E. injection E as <-. apply keeps_node_refl.
      - destruct (visitor.visit pf x s) as [t |] eqn:Ex; cbn [bind]; [| discriminate].
        intro E.
        pose proof (HF x (or_introl eq_refl) (Hl x (or_introl eq_refl)) s t Hs Hfc Ex)
          as Kx.
        apply (keeps_node_trans c s t s' Kx). apply IHl; [| | | exact E].
        + intros y Hy. apply HF. right. exact Hy.
        + intros y Hy. apply Hl. right. exact Hy.
        + rewrite (innermost_keeps _ s t (proj1 Kx)). exact Hs. }
    assert (Hin1 : innermost "function:" s1 = Some f)
      by (rewrite (innermost_keeps _ self s1 (proj1 K1)); exact Hin).
    destruct (visitor.visit pf node s1) as [s2 |] eqn:E2; cbn [bind]; [| discriminate].
    pose proof (IHnode Hf s1 s2 Hin1 Hfc E2) as K2.
    assert (Hin2 : innermost "function:" s2 = Some f)
      by (rewrite (innermost_keeps _ s1 s2 (proj1 K2)); exact Hin1).
    destruct (for_each (visitor.visit pf) args s2) as [s3 |] eqn:E3; cbn [bind];
      [| discriminate].
    pose proof (Hlist args H Ha s2 s3 Hin2 E3) as K3.
    assert (Hin3 : innermost "function:" s3 = Some f)
      by (rewrite (innermost_keeps _ s2 s3 (proj1 K3)); exact Hin2).
    intro E4. pose proof (Hlist keywords H0 Hk s3 self' Hin3 E4) as K4.
    exact (keeps_node_trans c _ _ _ K1
             (keeps_node_trans c _ _ _ K2 (keeps_node_trans c _ _ _ K3 K4))).
  - intro E. injection E as <-. apply keeps_node_refl.
  - apply IHnode; assumption.
  - rewrite Forall_forall in H. rewrite forallb_forall in Hd.
    revert self self' Hin. induction children as [| x l IHl]; intros s s' Hs;
      cbn [for_each].
    + intro E. injection E as <-. apply keeps_node_refl.
    + destruct (visitor.visit pf x s) as [t |] eqn:Ex; cbn [bind]; [| discriminate].
      intro E.
      pose proof (H x (or_introl eq_refl) (Hd x (or_introl eq_refl)) s t Hs Hfc Ex) as Kx.
      apply (keeps_node_trans c s t s' Kx). apply IHl; [| | | exact E].
      * intros y Hy. apply H. right. exact Hy.
      * intros y Hy. apply Hd. right. exact Hy.
      * rewrite (innermost_keeps _ s t (proj1 Kx)). exact Hs.
Qed.

Lemma rev_last :
  forall (l : list string) (d p : string),
    l <> [] -> last l d = p -> exists rest, rev l = p :: rest.
Proof.
  intros l d p Hne Hlast. destruct (exists_last Hne) as (l' & x & ->).
  rewrite last_last in Hlast. subst x. rewrite rev_app_distr. cbn. eexists. reflexivity.
Qed.

(** X17. A method is contained twice.  When a function definition with a
    new name is visited inside a class, [add_node] appends a [CONTAINS]
    edge from the class to the function, and [visit_FunctionDef] appends
    the same edge again.  For a method whose arguments, body, decorators
    and return annotation hold no definition and no import (calls and
    decorators go to the node of the function), a visit that returns has
    restored the open scopes and leaves the class node with these two
    equal edges appended. *)
Theorem method_contained_twice :
  forall (pf : Platform) (name : string) (args body decorator_list returns : list ast)
         (self self' : CodeVisitor) (class_id : string) (class_node : GraphNode),
    current_parent_ids self <> [] ->
    last (current_parent_ids self) (module_id self) = class_id ->
    startswith "class:" class_id = true ->
    dict_get class_id (graph_nodes self) = Some class_node ->
    node_type class_node = CLASS ->
    lookup_node name self = Ok None ->
    forallb defines_nothing args = true ->
    forallb defines_nothing body = true ->
    forallb defines_nothing decorator_list = true ->
    forallb defines_nothing returns = true ->
    visitor.visit pf (FunctionDef name args body decorator_list returns) self
    = Ok self' ->
    let function_id := visitor.compute_node_id FUNCTION name self in
    let contains := mkGraphEdge CONTAINS class_id function_id CLASS FUNCTION in
    current_parent_ids self' = current_parent_ids self
    /\ dict_get class_id (graph_nodes self')
       = Some (append_relationship (append_relationship class_node contains) contains).
Proof.
  intros pf name args body decorator_list returns self self' class_id class_node
         Hne Hlast Hclass Hnode Hty Hlook Hargs Hbody Hdeco Hret Hrun function_id contains.
  assert (Hfun : startswith "function:" function_id = true).
  { unfold function_id, visitor.compute_node_id.
    destruct (rev (current_parent_ids self)) as [| p ps]; cbn [NodeType_value].
    - destruct (module_id self); reflexivity.
    - destruct (package_of_id p); reflexivity. }
  assert (Hdiff : function_id <> class_id).
  { intro E. rewrite <- E in Hclass. unfold function_id, visitor.compute_node_id in Hclass.
    destruct (rev (current_parent_ids self)); discriminate Hclass. }
  destruct (rev_last _ _ _ Hne Hlast) as (rest & Hrev).
  cbn [visitor.visit] in Hrun. unfold visitor.visit_FunctionDef in Hrun.
  rewrite Hlook, Hlast, Hclass in Hrun. cbn [bind truthy_opt] in Hrun.
  fold function_id in Hrun.
  set (function_node := mkGraphNode function_id name FUNCTION
                          (mkMetadata (Some (cv_source_file self)) false) []) in Hrun.
  unfold visitor.add_node in Hrun. cbn [id function_node] in Hrun.
  set (s1 := set_graph_nodes (dict_set function_id function_node (graph_nodes self)) self)
    in Hrun.
  destruct (visitor_update_frame function_node s1) as (Fp & _).
  rewrite Fp in Hrun. cbn [current_parent_ids s1 set_graph_nodes] in Hrun.
  rewrite Hrev in Hrun.
  rewrite visitor_update_nodes in Hrun. cbn [graph_nodes s1 set_graph_nodes] in Hrun.
  rewrite dict_get_set_other in Hrun by exact Hdiff. rewrite Hnode, Hty in Hrun.
  cbn [node_type function_node] in Hrun.
  change (new_GraphEdge CONTAINS class_id function_id CLASS FUNCTION) with (Ok contains)
    in Hrun.
  unfold append_edge at 1 in Hrun. rewrite visitor_update_nodes in Hrun.
  cbn [graph_nodes s1 set_graph_nodes] in Hrun.
  rewrite dict_get_set_other in Hrun by exact Hdiff. rewrite Hnode in Hrun.
  cbn [bind] in Hrun.
  unfold append_built_edge in Hrun. cbn [bind] in Hrun.
  unfold append_edge at 1 in Hrun. cbn [graph_nodes set_graph_nodes] in Hrun.
  rewrite dict_get_set_same in Hrun. cbn [bind] in Hrun.
  match type of Hrun with
  | bind (visitor.handle_decorators _ _ ?s) _ = _ => set (s2 := s) in Hrun
  end.
  assert (Hp2 : current_parent_ids s2 = current_parent_ids self ++ [function_id]).
  { unfold s2.
    cbn [visitor.push_parent current_parent_ids set_current_parent_ids set_graph_nodes].
    rewrite Fp. reflexivity. }
  assert (Hg2 : dict_get class_id (graph_nodes s2)
                = Some (append_relationship (append_relationship class_node contains)
                          contains)).
  { unfold s2. cbn [visitor.push_parent graph_nodes set_current_parent_ids set_graph_nodes].
    apply dict_get_set_same. }
  assert (Hin2 : innermost "function:" s2 = Some function_id).
  { unfold innermost. rewrite Hp2, rev_app_distr. cbn [rev app find]. rewrite Hfun.
    reflexivity. }
  assert (Hlist : forall l s t,
             forallb defines_nothing l = true ->
             innermost "function:" s = Some function_id ->
             for_each (visitor.visit pf) l s = Ok t -> keeps_node class_id s t).
  { induction l as [| x l IHl]; intros s t Hl Hs; cbn [for_each].
    - intro E. injection E as <-. apply keeps_node_refl.
    - cbn [forallb] in Hl. apply andb_prop in Hl. destruct Hl as [Hx Hl].
      destruct (visitor.visit pf x s) as [u |] eqn:Ex; cbn [bind]; [| discriminate].
      intro E.
      pose proof (defines_nothing_keeps_node pf class_id function_id x Hx s u Hs Hdiff Ex)
        as Kx.
      apply (keeps_node_trans class_id s u t Kx). apply IHl; [exact Hl | | exact E].
      rewrite (innermost_keeps _ s u (proj1 Kx)). exact Hs. }
  destruct (visitor.handle_decorators decorator_list function_id s2) as [s3 |] eqn:E3;
    cbn [bind] in Hrun; [| discriminate].
  pose proof (handle_decorators_keeps_node class_id function_id _ _ _ Hdiff E3) as K3.
  assert (Hin3 : innermost "function:" s3 = Some function_id)
    by (rewrite (innermost_keeps _ s2 s3 (proj1 K3)); exact Hin2).
  destruct (for_each (visitor.visit pf) args s3) as [s4 |] eqn:E4;
    cbn [bind] in Hrun; [| discriminate].
  pose proof (Hlist args s3 s4 Hargs Hin3 E4) as K4.
  assert (Hin4 : innermost "function:" s4 = Some function_id)
    by (rewrite (innermost_keeps _ s3 s4 (proj1 K4)); exact Hin3).
  destruct (for_each (visitor.visit pf) body s4) as [s5 |] eqn:E5;
    cbn [bind] in Hrun; [| discriminate].
  pose proof (Hlist body s4 s5 Hbody Hin4 E5) as K5.
  assert (Hin5 : innermost "function:" s5 = Some function_id)
    by (rewrite (innermost_keeps _ s4 s5 (proj1 K5)); exact Hin4).
  destruct (for_each (visitor.visit pf) decorator_list s5) as [s6 |] eqn:E6;
    cbn [bind] in Hrun; [| discriminate].
  pose proof (Hlist decorator_list s5 s6 Hdeco Hin5 E6) as K6.
  assert (Hin6 : innermost "function:" s6 = Some function_id)
    by (rewrite (innermost_keeps _ s5 s6 (proj1 K6)); exact Hin5).
  destruct (for_each (visitor.visit pf) returns s6) as [s7 |] eqn:E7;
    cbn [bind] in Hrun; [| discriminate].
  pose proof (Hlist returns s6 s7 Hret Hin6 E7) as K7.
  pose proof (keeps_node_trans _ _ _ _ K3
                (keeps_node_trans _ _ _ _ K4
                   (keeps_node_trans _ _ _ _ K5 (keeps_node_trans _ _ _ _ K6 K7))))
    as (P & G).
  rewrite Hp2 in P. rewrite Hg2 in G.
  rewrite (pop_parent_snoc s7 _ _ P) in Hrun. injection Hrun as <-.
  cbn [current_parent_ids graph_nodes set_current_parent_ids].
  split; [reflexivity | exact G].
Qed.

Lemma method_contained_twice_witness :
  let module_node :=
    mkGraphNode "module:dummy.dummy" "dummy" MODULE
      (mkMetadata (Some "/proj/dummy.py") false)
      [mkGraphEdge CONTAINS "module:dummy.dummy" "class:dummy.A" MODULE CLASS] in
  let class_node :=
    mkGraphNode "class:dummy.A" "A" CLASS (mkMetadata (Some "/proj/dummy.py") false) [] in
  let self :=
    mkCodeVisitor "/proj/dummy.py" "/proj"
      [("module:dummy.dummy", module_node); ("class:dummy.A", class_node)]
      ["module:dummy.dummy"; "class:dummy.A"]
      [("dummy", [("dummy", "module:dummy.dummy")]); ("A", [("dummy", "class:dummy.A")])]
      [] "module:dummy.dummy" in
  let method :=
    FunctionDef "run" [] [Other [Call (Name "A") [] []]] [Name "deco"] [] in
  exists self' node function_node,
    visitor.visit demo_platform method self = Ok self'
    /\ dict_get "class:dummy.A" (graph_nodes self') = Some node
    /\ map target_node_id (relationships node)
       = ["function:dummy.run"; "function:dummy.run"]
    /\ dict_get "function:dummy.run" (graph_nodes self') = Some function_node
    /\ map edge_type (relationships function_node) = [DECORATES; CALLS].
Proof.
  intros module_node class_node self method.
  assert (Hrun : exists self', visitor.visit demo_platform method self = Ok self')
    by (eexists; reflexivity).
  destruct Hrun as (self' & Hrun).
  destruct (method_contained_twice demo_platform "run" [] [Other [Call (Name "A") [] []]]
              [Name "deco"] [] self self' "class:dummy.A" class_node)
    as (_ & G); try reflexivity; [discriminate | exact Hrun |].
  exists self'. do 2 eexists. split; [exact Hrun |]. split; [exact G |].
  split; [reflexivity |].
  vm_compute in Hrun. injection Hrun as <-. split; reflexivity.
Defined.

Lemma length_append :
  forall a b : string, String.length (a ++ b) = String.length a + String.length b.
Proof.
  intros a b. induction a as [| x a IH]; cbn [append String.length];
    [reflexivity | rewrite IH; reflexivity].
Qed.

Lemma package_of_class_id :
  forall P C : string,
    str_partition dot C = None ->
    str_split1 colon ("class:" ++ P ++ "." ++ C) = ["class"; (P ++ "." ++ C)%string]
    /\ package_of_id ("class:" ++ P ++ "." ++ C) = P.
Proof.
  intros P C HC.
  assert (Hs : str_split1 colon ("class:" ++ P ++ "." ++ C)
               = ["class"; (P ++ "." ++ C)%string]) by reflexivity.
  split; [exact Hs |]. unfold package_of_id. rewrite Hs.
  unfold str_rsplit1.
  change (P ++ "." ++ C)%string with (P ++ String dot C)%string.
  rewrite (str_rpartition_snoc dot P C HC). reflexivity.
Qed.

(** X18. A call [self.m()] or [cls.m()] inside a method of the class
    [class:<P>.<C>] is recorded with the target
    [function:<P>.<C>.<m>], while the node of a method [m] of that class
    has the id [function:<P>.<m>], without the class name: the target of
    the call is never the id of the method. *)
Theorem self_call_misses_method :
  forall (self : CodeVisitor) (outer : list string) (P C caller m : string),
    str_partition dot C = None ->
    current_parent_ids self = outer ++ [("class:" ++ P ++ "." ++ C)%string] ->
    let method_id := visitor.compute_node_id FUNCTION m self in
    let inside := visitor.push_parent (visitor.compute_node_id FUNCTION caller self) self in
    let target := ("function:" ++ (P ++ "." ++ C) ++ "." ++ m)%string in
    method_id = ("function:" ++ P ++ "." ++ m)%string
    /\ visitor.called_function_id_of (Attribute (Name "self") m) inside = Ok (Some target)
    /\ visitor.called_function_id_of (Attribute (Name "cls") m) inside = Ok (Some target)
    /\ target <> method_id.
Proof.
  intros self outer P C caller m HC Hpar method_id inside target.
  destruct (package_of_class_id P C HC) as (Hsplit & Hpkg).
  assert (Hid : forall nm, visitor.compute_node_id FUNCTION nm self
                           = ("function:" ++ P ++ "." ++ nm)%string).
  { intros nm. unfold visitor.compute_node_id. rewrite Hpar, rev_app_distr.
    cbn [rev app]. rewrite Hpkg. reflexivity. }
  assert (Hin : innermost "class:" inside = Some ("class:" ++ P ++ "." ++ C)%string).
  { unfold innermost, inside, visitor.push_parent.
    cbn [current_parent_ids set_current_parent_ids].
    rewrite Hpar, !rev_app_distr. cbn [rev app find]. rewrite (Hid caller).
    assert (Hf : forall x, startswith "class:" ("function:" ++ x) = false)
      by (intros x; vm_compute; reflexivity).
    assert (Hc : forall x, startswith "class:" ("class:" ++ x) = true)
      by (intros x; destruct x; reflexivity).
    rewrite Hf, Hc. reflexivity. }
  split; [exact (Hid m) |].
  split; [| split].
  - cbn [visitor.called_function_id_of visitor.name_id truthy_opt visitor.format_opt].
    change (truthy "self" && (String.eqb "self" "self" || String.eqb "self" "cls"))
      with true.
    cbv iota. rewrite Hin, Hsplit. reflexivity.
  - cbn [visitor.called_function_id_of visitor.name_id truthy_opt visitor.format_opt].
    change (truthy "cls" && (String.eqb "cls" "self" || String.eqb "cls" "cls"))
      with true.
    cbv iota. rewrite Hin, Hsplit. reflexivity.
  - unfold method_id. rewrite (Hid m). unfold target. intro E.
    apply (f_equal String.length) in E. rewrite !length_append in E.
    cbn [String.length] in E. lia.
Qed.

Lemma self_call_misses_method_witness :
  let self :=
    mkCodeVisitor "/proj/dummy.py" "/proj" [] ["module:dummy.dummy"; "class:dummy.A"]
      [] [] "module:dummy.dummy" in
  let inside := visitor.push_parent "function:dummy.run" self in
  visitor.compute_node_id FUNCTION "helper" self = "function:dummy.helper"
  /\ visitor.called_function_id_of (Attribute (Name "self") "helper") inside
     = Ok (Some "function:dummy.A.helper").
Proof.
  intros self inside.
  destruct (self_call_misses_method self ["module:dummy.dummy"] "dummy" "A" "run" "helper"
              eq_refl eq_refl) as (Hid & Hself & _ & _).
  split; [exact Hid | exact Hself].
Defined.

(* ================================================================== *)
(** * Importing a module again *)

(** X19. Importing a module that has been imported before makes no new
    node, and appends to the module node one more [IMPORTS] edge to the
    same target: the relationships of the module node then hold the edge
    twice in a row. *)
Theorem import_again_repeats_the_edge :
  forall (pf : Platform) (m : string) (self self1 : CodeVisitor),
    visitor.import_module pf m self = Ok self1 ->
    exists target module_node self2,
      dict_get m (imported_module_cache self1) = Some target
      /\ dict_get (module_id self1) (graph_nodes self1)
         = Some (append_relationship module_node (imports_edge self1 target))
      /\ visitor.import_module pf m self1 = Ok self2
      /\ dict_keys (graph_nodes self2) = dict_keys (graph_nodes self1)
      /\ dict_get (module_id self1) (graph_nodes self2)
         = Some (append_relationship
                   (append_relationship module_node (imports_edge self1 target))
                   (imports_edge self1 target)).
Proof.
  intros pf m self self1. unfold visitor.import_module at 1.
  set (target := match dict_get m (imported_module_cache self) with
                 | Some cached => cached
                 | None => ("module:" ++ m)%string
                 end).
  set (s1 := set_imported_module_cache _ self).
  match goal with
  | |- append_edge _ _ ?s = _ -> _ => set (s2 := s)
  end.
  assert (F2 : module_id s2 = module_id self
               /\ imported_module_cache s2 = dict_set m target (imported_module_cache self)
               /\ dict_mem target (graph_nodes s2) = true).
  { unfold s2. destruct (dict_mem target (graph_nodes s1)) eqn:Em; cbn [negb].
    - repeat split. exact Em.
    - rewrite visitor_update_module_id, visitor_update_nodes.
      destruct (visitor_update_frame
                  (mkGraphNode target m MODULE
                     (mkMetadata (find_package_source pf m) false) [])
                  (set_graph_nodes
                     (dict_set target
                        (mkGraphNode target m MODULE
                           (mkMetadata (find_package_source pf m) false) [])
                        (graph_nodes s1)) s1)) as (_ & _ & _ & Fc).
      rewrite Fc. repeat split.
      cbn [graph_nodes set_graph_nodes]. rewrite dict_mem_set, String.eqb_refl.
      reflexivity. }
  destruct F2 as (Fm & Fc & Ft).
  unfold append_edge.
  destruct (dict_get (module_id s2) (graph_nodes s2)) as [node0 |] eqn:En;
    [| discriminate].
  change (new_GraphEdge IMPORTS (module_id s2) target MODULE MODULE)
    with (Ok (mkGraphEdge IMPORTS (module_id s2) target MODULE MODULE)).
  cbn [bind]. intro H. injection H as <-.
  set (e := mkGraphEdge IMPORTS (module_id s2) target MODULE MODULE).
  remember (set_graph_nodes
              (dict_set (module_id s2) (append_relationship node0 e) (graph_nodes s2)) s2)
    as self1 eqn:Es1.
  assert (Hm1 : module_id self1 = module_id s2) by (rewrite Es1; reflexivity).
  assert (Hc1 : imported_module_cache self1
                = dict_set m target (imported_module_cache self))
    by (rewrite Es1; exact Fc).
  assert (Hg1 : dict_get (module_id self1) (graph_nodes self1)
                = Some (append_relationship node0 e)).
  { rewrite Es1. cbn [graph_nodes set_graph_nodes module_id]. apply dict_get_set_same. }
  assert (Ht1 : dict_mem target (graph_nodes self1) = true).
  { rewrite Es1. cbn [graph_nodes set_graph_nodes]. rewrite dict_mem_set, Ft.
    apply orb_true_r. }
  assert (He : e = imports_edge self1 target).
  { unfold e, imports_edge. rewrite Hm1. reflexivity. }
  rewrite He in Hg1. clear Es1.
  exists target, node0.
  unfold visitor.import_module. rewrite Hc1, dict_get_set_same.
  cbn [graph_nodes set_imported_module_cache]. rewrite Ht1. cbn [negb].
  unfold append_edge. cbn [graph_nodes module_id set_imported_module_cache].
  rewrite Hg1.
  change (new_GraphEdge IMPORTS (module_id self1) target MODULE MODULE)
    with (Ok (imports_edge self1 target)).
  cbn [bind]. eexists. split; [reflexivity |]. split; [reflexivity |].
  split; [reflexivity |]. cbn [graph_nodes set_graph_nodes].
  split; [exact (dict_set_keys _ _ _ _ _ Hg1) | apply dict_get_set_same].
Qed.

Lemma import_again_repeats_the_edge_witness :
  exists self self1 self2 module_node,
    visitor.init demo_platform "/proj/dummy.py" "import os" "/proj" = Ok self
    /\ visitor.import_module demo_platform "os" self = Ok self1
    /\ visitor.import_module demo_platform "os" self1 = Ok self2
    /\ dict_keys (graph_nodes self2) = ["module:dummy.dummy"; "module:os"]
    /\ dict_get "module:dummy.dummy" (graph_nodes self2)
       = Some (append_relationship
                 (append_relationship module_node (imports_edge self1 "module:os"))
                 (imports_edge self1 "module:os")).
Proof.
  eexists. eexists.
  match goal with
  | |- exists self2 module_node, ?I = Ok ?s /\ ?J = Ok ?s1 /\ _ =>
      assert (Hinit : I = Ok s) by reflexivity;
      assert (Himport : J = Ok s1) by reflexivity
  end.
  destruct (import_again_repeats_the_edge demo_platform "os" _ _ Himport)
    as (target & module_node & self2 & Hc & Hg1 & E2 & Hk & Hg2).
  injection Hc as <-.
  exists self2, module_node. split; [exact Hinit |]. split; [exact Himport |].
  split; [exact E2 |]. split; [rewrite Hk; reflexivity | exact Hg2].
Defined.

(* ================================================================== *)
(** * The source file of an imported module *)

(** X20. [find_package_source] returns the file of the first directory of
    the search path that has one for the module: the module file
    [<dir>/<a>/<b>.py] if it is a file, else the package file
    [<dir>/<a>/<b>/__init__.py] if the directory and the file exist.  What
    it returns is a file, and it returns [None] exactly when no directory
    of the search path has either. *)
Theorem find_package_source_first_hit :
  forall (pf : Platform) (module_name : string),
    (forall before dir after file,
        sys_path pf = before ++ dir :: after ->
        (forall d, In d before -> found_in pf d module_name = None) ->
        found_in pf dir module_name = Some file ->
        find_package_source pf module_name = Some file)
    /\ (forall file, find_package_source pf module_name = Some file ->
                     os_path_isfile pf file = true
                     /\ exists dir, In dir (sys_path pf)
                                    /\ found_in pf dir module_name = Some file)
    /\ (find_package_source pf module_name = None
        <-> forall dir, In dir (sys_path pf) -> found_in pf dir module_name = None).
Proof.
  intros pf module_name. unfold find_package_source.
  assert (Hstep : forall dir rest,
             find_in_paths pf (dir :: rest) module_name
             = match found_in pf dir module_name with
               | Some file => Some file
               | None => find_in_paths pf rest module_name
               end).
  { intros dir rest. cbn [find_in_paths]. unfold found_in, module_file, package_file.
    destruct (os_path_isfile pf _); [reflexivity |].
    destruct (_ && _); reflexivity. }
  assert (Hfile : forall dir file, found_in pf dir module_name = Some file ->
                                   os_path_isfile pf file = true).
  { intros dir file. unfold found_in.
    destruct (os_path_isfile pf (module_file dir module_name)) eqn:E1.
    - intro H. injection H as <-. exact E1.
    - destruct (os_path_isdir pf _); cbn [andb]; [| discriminate].
      destruct (os_path_isfile pf (package_file dir module_name)) eqn:E2;
        [| discriminate].
      intro H. injection H as <-. exact E2. }
  generalize (sys_path pf). intros paths. split; [| split].
  - intros before dir after file -> Hbefore Hdir.
    induction before as [| d before IH]; cbn [app]; rewrite Hstep.
    + rewrite Hdir. reflexivity.
    + rewrite (Hbefore d (or_introl eq_refl)). apply IH.
      intros d' Hd'. apply Hbefore. right. exact Hd'.
  - induction paths as [| d paths IH]; intros file; [discriminate |].
    rewrite Hstep. destruct (found_in pf d module_name) as [f |] eqn:E.
    + intro H. injection H as <-. split; [exact (Hfile d f E) |].
      exists d. split; [left; reflexivity | exact E].
    + intro H. destruct (IH file H) as (Hf & dir & Hin & Hd).
      split; [exact Hf |]. exists dir. split; [right; exact Hin | exact Hd].
  - induction paths as [| d paths IH]; [split; [intros _ dir [] | reflexivity] |].
    rewrite Hstep. destruct (found_in pf d module_name) as [f |] eqn:E.
    + split; [discriminate |]. intro H. rewrite (H d (or_introl eq_refl)) in E.
      discriminate E.
    + rewrite IH. split.
      * intros H dir [<- | Hin]; [exact E | exact (H dir Hin)].
      * intros H dir Hin. apply H. right. exact Hin.
Qed.

Lemma find_package_source_first_hit_witness :
  find_package_source demo_platform "os" = Some "/usr/lib/python3/os.py"
  /\ os_path_isfile demo_platform "/usr/lib/python3/os.py" = true.
Proof.
  pose proof (find_package_source_first_hit demo_platform "os") as (Hfirst & Hsound & _).
  assert (H : find_package_source demo_platform "os" = Some "/usr/lib/python3/os.py").
  { apply (Hfirst [] "/usr/lib/python3" []); [reflexivity | intros d [] | reflexivity]. }
  split; [exact H |]. exact (proj1 (Hsound _ H)).
Defined.

(* ================================================================== *)
(** * Relationships of a node *)

(** X1. Appending edges to a node through [add_relationship] succeeds
    for the whole list exactly when every edge starts at the node, and
    then the relationships are the old ones followed by the list; with an
    edge that starts elsewhere it raises [ValueError]. *)
Theorem add_relationships_own_edges_only :
  forall (edges : list GraphEdge) (self : GraphNode),
    (forallb (fun edge => String.eqb (source_node_id edge) (id self)) edges = true ->
     for_each (fun edge node => add_relationship node edge) edges self
     = Ok (mkGraphNode (id self) (name self) (node_type self) (metadata self)
             (relationships self ++ edges)))
    /\ (forallb (fun edge => String.eqb (source_node_id edge) (id self)) edges = false ->
        for_each (fun edge node => add_relationship node edge) edges self
        = Raise ValueError).
Proof.
  induction edges as [| e edges IH]; intros self; cbn [forallb for_each].
  - split; [| discriminate]. intros _. rewrite app_nil_r. destruct self. reflexivity.
  - unfold add_relationship at 1 3.
    destruct (String.eqb (source_node_id e) (id self)); cbn [negb andb bind].
    + destruct (IH (mkGraphNode (id self) (name self) (node_type self) (metadata self)
                      (relationships self ++ [e]))) as (Hok & Hbad).
      cbn [id name node_type metadata relationships] in Hok, Hbad.
      split.
      * intro H. rewrite (Hok H), <- app_assoc. reflexivity.
      * exact Hbad.
    + split; [discriminate | reflexivity].
Qed.

(* ================================================================== *)
(** * Relative imports of any level *)

Lemma str_split_cons :
  forall (c : ascii) (p s : string),
    str_partition c p = None ->
    str_split c (p ++ String c s) = p :: str_split c s.
Proof.
  intros c p s. induction p as [| a p IH]; cbn [append str_split str_partition].
  - intros _. rewrite Ascii.eqb_refl. reflexivity.
  - destruct (Ascii.eqb a c); [discriminate |].
    destruct (str_partition c p) as [[h t] |]; [discriminate |].
    intros _. rewrite (IH eq_refl). reflexivity.
Qed.

Lemma str_split_join :
  forall (c : ascii) (parts : list string),
    parts <> [] ->
    Forall (fun p => str_partition c p = None) parts ->
    str_split c (str_join (String c "") parts) = parts.
Proof.
  intros c parts Hne H. induction H as [| p parts Hp Hparts IH]; [contradiction |].
  destruct parts as [| q parts].
  - cbn [str_join]. apply str_split_single. exact Hp.
  - change (str_join (String c "") (p :: q :: parts))
      with (p ++ String c (str_join (String c "") (q :: parts)))%string.
    rewrite (str_split_cons c p _ Hp), IH by discriminate. reflexivity.
Qed.

(** X21. A relative import of level [n] in the module with the id
    [module:<p1>.<p2>. ... .<pk>] takes the first [k - n] parts of the
    dotted path as its base; when the level reaches the number of parts
    the base is empty and the imported module name starts with a dot. *)
Theorem relative_import_base :
  forall (self : CodeVisitor) (parts : list string) (m : string) (level : nat),
    module_id self = ("module:" ++ str_join "." parts)%string ->
    parts <> [] ->
    Forall (fun p => str_partition dot p = None) parts ->
    0 < level -> truthy m = true ->
    visitor.base_module_of (Some m) level self
    = (str_join "." (firstn (List.length parts - level) parts) ++ "." ++ m)%string
    /\ visitor.base_module_of None level self
       = str_join "." (firstn (List.length parts - level) parts)
    /\ (List.length parts <= level ->
        visitor.base_module_of (Some m) level self = ("." ++ m)%string).
Proof.
  intros self parts m level Hid Hne Hparts Hlevel Hm.
  assert (Hbase : forall module,
             visitor.base_module_of module level self
             = (str_join "." (firstn (List.length parts - level) parts)
                ++ match module with
                   | Some m => if truthy m then "." ++ m else ""
                   | None => ""
                   end)%string).
  { intros module. unfold visitor.base_module_of.
    destruct (Nat.ltb_spec 0 level) as [_ | Hle]; [| lia].
    rewrite Hid.
    change (str_split1 colon ("module:" ++ str_join "." parts))
      with ["module"; str_join "." parts].
    assert (Hs : str_split dot (str_join "." parts) = parts)
      by exact (str_split_join dot parts Hne Hparts).
    cbv iota. rewrite Hs. reflexivity. }
  split; [| split].
  - rewrite Hbase, Hm. reflexivity.
  - rewrite Hbase. apply append_empty_r.
  - intro Hlen. rewrite Hbase, Hm.
    replace (List.length parts - level) with 0 by lia. reflexivity.
Qed.

Lemma relative_import_base_witness :
  exists self,
    visitor.init demo_platform "/proj/pkg/mod.py" "from .utils import helper" "/proj"
    = Ok self
    /\ visitor.base_module_of (Some "utils") 2 self = "pkg.utils"
    /\ visitor.base_module_of (Some "utils") 3 self = ".utils".
Proof.
  eexists. split; [reflexivity |].
  match goal with
  | |- visitor.base_module_of _ _ ?s = _ /\ _ =>
      assert (Hid : module_id s = ("module:" ++ str_join "." ["pkg"; "mod"; "mod"])%string)
        by reflexivity;
      assert (Hparts : Forall (fun p => str_partition dot p = None) ["pkg"; "mod"; "mod"])
        by (repeat constructor);
      split;
      [ refine (proj1 (relative_import_base s ["pkg"; "mod"; "mod"] "utils" 2
                         Hid _ Hparts _ eq_refl))
      | refine (proj2 (proj2 (relative_import_base s ["pkg"; "mod"; "mod"] "utils" 3
                                Hid _ Hparts _ eq_refl)) _) ]
  end; try discriminate; cbn; lia.
Defined.

(* ================================================================== *)
(** * Calls by name *)

(** X22. A call [f(...)] makes an edge only if [f] resolves to a stored
    node.  If the reference table has no candidate for [f] and no class
    [f] of the current package is stored, [visit_Call] records nothing: a
    call to a function that is defined later in the file leaves no edge.
    If [f] resolves to the id of a stored node, one [CALLS] edge to that
    id is appended to the innermost enclosing function, or to the module
    node outside of any function, always with the source type
    [FUNCTION]. *)
Theorem call_by_name_edge :
  forall (generic_visit : CodeVisitor -> result CodeVisitor) (fid : string)
         (self : CodeVisitor),
    let caller_id := match innermost "function:" self with
                     | Some p => p
                     | None => module_id self
                     end in
    (lookup_node fid self = Ok None ->
     dict_mem (visitor.compute_node_id CLASS fid self) (graph_nodes self) = false ->
     visitor.visit_Call generic_visit (Name fid) self = generic_visit self)
    /\ (forall target node caller,
          lookup_node fid self = Ok (Some target) -> truthy target = true ->
          dict_get target (graph_nodes self) = Some node ->
          dict_get caller_id (graph_nodes self) = Some caller ->
          visitor.visit_Call generic_visit (Name fid) self
          = generic_visit
              (set_graph_nodes
                 (dict_set caller_id
                    (append_relationship caller
                       (mkGraphEdge CALLS caller_id target FUNCTION
                          (if startswith "class:" target then CLASS else FUNCTION)))
                    (graph_nodes self))
                 self)).
Proof.
  intros generic_visit fid self caller_id. split.
  - intros Hl Hmem. unfold visitor.visit_Call.
    cbn [visitor.called_function_id_of]. rewrite Hl. cbn [bind or_else].
    rewrite (dict_mem_false _ _ _ Hmem). cbn [bind truthy_opt]. reflexivity.
  - intros target node caller Hl Ht Hnode Hcaller. unfold visitor.visit_Call.
    cbn [visitor.called_function_id_of]. rewrite Hl. cbn [bind or_else].
    rewrite Ht, Hnode.
    destruct (is_callable (metadata node)); cbn [bind or_else truthy_opt visitor.format_opt];
      rewrite ?Ht; cbn [bind or_else truthy_opt visitor.format_opt]; rewrite ?Ht;
      fold caller_id; unfold append_edge; rewrite Hcaller;
      destruct (startswith "class:" target); reflexivity.
Qed.

Lemma call_by_name_edge_witness :
  exists self self',
    visitor.init demo_platform "/proj/dummy.py" "import os" "/proj" = Ok self
    /\ visitor.visit demo_platform (FunctionDef "g" [] [Call (Name "f") [] []] [] []) self
       = Ok self'
    /\ visitor.visit_Call (fun s => Ok s) (Name "f") self = Ok self
    /\ visitor.visit_Call (fun s => Ok s) (Name "g") self' <> Ok self'.
Proof.
  eexists. eexists. split; [reflexivity |]. split; [reflexivity |].
  match goal with
  | |- visitor.visit_Call ?gv (Name "f") ?s = _ /\ visitor.visit_Call _ (Name "g") ?s' <> _ =>
      split;
      [ exact (proj1 (call_by_name_edge gv "f" s) eq_refl eq_refl)
      | rewrite (proj2 (call_by_name_edge gv "g" s')
                   "function:dummy.g"
                   (mkGraphNode "function:dummy.g" "g" FUNCTION
                      (mkMetadata (Some "/proj/dummy.py") false) [])
                   (mkGraphNode "module:dummy.dummy" "dummy" MODULE
                      (mkMetadata (Some "/proj/dummy.py") false)
                      [mkGraphEdge CONTAINS "module:dummy.dummy" "function:dummy.g"
                         MODULE FUNCTION])
                   eq_refl eq_refl eq_refl eq_refl) ]
  end.
  discriminate.
Defined.

(* ================================================================== *)
(** * The module id of a package file *)

(** X23. For a package file [__init__.py] the module id given by the
    constructor is [module:<P>.<name>], where [P] is the dotted path of
    the directories of the relative path and [name] is the name of the
    file's directory; for a directory named as the last part of the
    relative path, [P] ends in [name], which so occurs twice.  The package
    file of the project root itself has the empty [P] and the id
    [module:.<name>]. *)
Theorem package_file_module_id :
  forall (pf : Platform) (source_file code project_root : string) (self : CodeVisitor),
    os_path_basename source_file = "__init__.py" ->
    last (str_split slash
            (os_path_normpath pf (os_path_relpath pf source_file project_root))) ""
    = "__init__.py" ->
    visitor.init pf source_file code project_root = Ok self ->
    let name := os_path_basename (os_path_dirname source_file) in
    let dirs :=
      removelast
        (str_split slash
           (os_path_normpath pf (os_path_relpath pf source_file project_root))) in
    compute_package_full_path pf source_file project_root = str_join "." dirs
    /\ module_id self = ("module:" ++ str_join "." dirs ++ "." ++ name)%string
    /\ (dirs = [] -> module_id self = ("module:." ++ name)%string)
    /\ (dirs <> [] -> last dirs "" = name -> endswith name (str_join "." dirs) = true)
    /\ (str_partition dot name = None ->
        package_of_id (module_id self) = str_join "." dirs).
Proof.
  intros pf source_file code project_root self Hbase Hlast Hinit name dirs.
  assert (HP : compute_package_full_path pf source_file project_root = str_join "." dirs).
  { unfold compute_package_full_path. rewrite Hlast. reflexivity. }
  assert (Hid : module_id self = ("module:" ++ str_join "." dirs ++ "." ++ name)%string).
  { rewrite (init_module_id _ _ _ _ _ Hinit). unfold module_id_of, simple_name_of.
    rewrite HP, Hbase. reflexivity. }
  split; [exact HP |]. split; [exact Hid |]. split; [| split].
  - intros E. rewrite Hid, E. reflexivity.
  - intros Hne Hl. destruct (exists_last Hne) as (ds & x & E). rewrite E in *.
    rewrite last_last in Hl. subst x. destruct ds as [| d ds].
    + apply endswith_refl.
    + rewrite str_join_snoc by discriminate. rewrite <- append_assoc.
      apply endswith_append.
  - intros Hdot. rewrite Hid. unfold package_of_id.
    change (str_split1 colon ("module:" ++ str_join "." dirs ++ "." ++ name))
      with ["module"; (str_join "." dirs ++ "." ++ name)%string].
    unfold str_rsplit1. change ("." ++ name)%string with (String dot name).
    rewrite (str_rpartition_snoc dot (str_join "." dirs) name Hdot). reflexivity.
Qed.

Lemma package_file_module_id_witness :
  (exists self,
     visitor.init demo_platform "/proj/pkg/mod/__init__.py" "import os" "/proj" = Ok self
     /\ module_id self = "module:pkg.mod.mod")
  /\ (exists self,
        visitor.init demo_platform "/proj/__init__.py" "import os" "/proj" = Ok self
        /\ module_id self = "module:.proj").
Proof.
  split; eexists; (split; [reflexivity |]).
  - exact (proj1 (proj2 (package_file_module_id demo_platform "/proj/pkg/mod/__init__.py"
                           "import os" "/proj" _ eq_refl eq_refl eq_refl))).
  - exact (proj1 (proj2 (proj2 (package_file_module_id demo_platform "/proj/__init__.py"
                                  "import os" "/proj" _ eq_refl eq_refl eq_refl)))
             eq_refl).
Defined.

(* ================================================================== *)
(** * Redirecting the edges of a group *)

Lemma edges_to_add_outgoing :
  forall (g : DiGraph) (canonical nid v rel : string),
    In (nid, v, rel) (nx_edges g) ->
    nx_has_node g v = true ->
    nx_has_edge g canonical v = false ->
    In (canonical, v, rel) (edges_to_add g canonical nid).
Proof.
  intros g canonical nid v rel Hin Hv Hno. unfold edges_to_add.
  apply in_flat_map. exists (nid, v, rel). split; [exact Hin |].
  apply in_or_app. right. rewrite String.eqb_refl, Hv, Hno. left. reflexivity.
Qed.

Lemma has_edge_source_node :
  forall (g : DiGraph) (u v : string),
    nx_has_edge g u v = true -> nx_has_node g u = true.
Proof.
  intros g u v. unfold nx_has_edge, nx_has_node, dict_mem.
  destruct (dict_get u g); [reflexivity | discriminate].
Qed.

Lemma merge_into_keeps_node :
  forall (canonical : string) (g : DiGraph) (nid x : string),
    x <> nid -> nx_has_node g x = true ->
    nx_has_node (merge_into canonical g nid) x = true.
Proof.
  intros c g nid x Hx H. unfold merge_into.
  destruct (String.eqb nid c); [exact H |].
  destruct (negb (nx_has_node g nid)); [exact H |].
  assert (H3 : nx_has_node (remove_edges (edges_to_remove g nid)
                              (add_edges (edges_to_add g c nid) g)) x = true).
  { rewrite remove_edges_has_node. apply add_edges_has_node. exact H. }
  destruct (nx_has_node (remove_edges _ _) nid); [| exact H3].
  rewrite has_node_remove_node, H3, (eqb_neq_false _ _ Hx). reflexivity.
Qed.

Lemma merge_into_keeps_edge :
  forall (canonical : string) (g : DiGraph) (nid x y : string),
    x <> nid -> y <> nid -> nx_has_edge g x y = true ->
    nx_has_edge (merge_into canonical g nid) x y = true.
Proof.
  intros c g nid x y Hx Hy H. unfold merge_into.
  destruct (String.eqb nid c); [exact H |].
  destruct (negb (nx_has_node g nid)); [exact H |].
  assert (H3 : nx_has_edge (remove_edges (edges_to_remove g nid)
                              (add_edges (edges_to_add g c nid) g)) x y = true).
  { rewrite remove_edges_keeps; [apply add_edges_has_edge; exact H |].
    intro Hin. apply edges_to_remove_touch in Hin. destruct Hin; congruence. }
  destruct (nx_has_node (remove_edges _ _) nid); [| exact H3].
  rewrite has_edge_remove_node, H3, (eqb_neq_false _ _ Hx), (eqb_neq_false _ _ Hy).
  reflexivity.
Qed.

(** What merging [B] into [A] does to an edge [B -> C]. *)
Lemma merge_into_redirects_out :
  forall (g : DiGraph) (A B C : string),
    A <> B -> C <> B ->
    nx_has_node g B = true -> nx_has_node g C = true ->
    nx_has_edge g B C = true ->
    nx_has_edge (merge_into A g B) A C = true.
Proof.
  intros g A B C HAB HCB HB HC Hedge. unfold merge_into.
  rewrite eqb_neq_false by (intro E; apply HAB; symmetry; exact E).
  rewrite HB. cbn [negb].
  assert (H3 : nx_has_edge (remove_edges (edges_to_remove g B)
                              (add_edges (edges_to_add g A B) g)) A C = true).
  { rewrite remove_edges_keeps.
    - destruct (nx_has_edge g A C) eqn:Eac.
      + apply add_edges_has_edge. exact Eac.
      + destruct (has_edge_listed g B C Hedge) as [rel Hrel].
        apply add_edges_adds with (rel := rel).
        apply edges_to_add_outgoing; assumption.
    - intro Hin. apply edges_to_remove_touch in Hin. destruct Hin; congruence. }
  destruct (nx_has_node (remove_edges _ _) B); [| exact H3].
  rewrite has_edge_remove_node, H3, (eqb_neq_false _ _ HAB), (eqb_neq_false _ _ HCB).
  reflexivity.
Qed.

Lemma merge_all_keeps_canonical :
  forall (c : string) (ids : list string) (g : DiGraph),
    nx_has_node g c = true -> nx_has_node (fold_left (merge_into c) ids g) c = true.
Proof.
  intros c. induction ids as [| n ids IH]; intros g H; cbn [fold_left]; [exact H |].
  apply IH. destruct (String.eqb_spec n c) as [-> | Hn].
  - rewrite merge_into_self. exact H.
  - apply merge_into_keeps_node; [congruence | exact H].
Qed.

Lemma merge_all_redirects_in :
  forall (c b u : string) (ids : list string) (g : DiGraph),
    b <> c -> u <> c -> ~ In u ids -> nx_has_node g c = true ->
    nx_has_edge g u c = true
    \/ (In b ids /\ nx_has_node g b = true /\ nx_has_edge g u b = true) ->
    nx_has_edge (fold_left (merge_into c) ids g) u c = true.
Proof.
  intros c b u. induction ids as [| n ids IH]; intros g Hbc Huc Hu Hc H; cbn [fold_left].
  - destruct H as [H | [[] _]]. exact H.
  - assert (Hun : u <> n) by (intro E; apply Hu; left; symmetry; exact E).
    assert (Hu' : ~ In u ids) by (intro E; apply Hu; right; exact E).
    destruct (String.eqb_spec n c) as [-> | Hnc].
    + rewrite merge_into_self. apply IH; try assumption.
      destruct H as [H | [[E | Hin] H]]; [left; exact H | congruence | right; auto].
    + assert (Hc1 : nx_has_node (merge_into c g n) c = true)
        by (apply merge_into_keeps_node; [congruence | exact Hc]).
      apply IH; try assumption.
      destruct H as [H | [Hin [Hb Hub]]].
      * left. apply merge_into_keeps_edge; [exact Hun | congruence | exact H].
      * destruct (String.eqb_spec n b) as [-> | Hnb].
        -- left. apply (merge_into_redirects g c b u); try assumption; try congruence.
           exact (has_edge_source_node _ _ _ Hub).
        -- right. destruct Hin as [E | Hin]; [congruence |].
           split; [exact Hin |]. split.
           ++ apply merge_into_keeps_node; [congruence | exact Hb].
           ++ apply merge_into_keeps_edge; [exact Hun | congruence | exact Hub].
Qed.

Lemma merge_all_redirects_out :
  forall (c b v : string) (ids : list string) (g : DiGraph),
    b <> c -> ~ In v ids -> nx_has_node g v = true ->
    nx_has_edge g c v = true
    \/ (In b ids /\ nx_has_node g b = true /\ nx_has_edge g b v = true) ->
    nx_has_edge (fold_left (merge_into c) ids g) c v = true.
Proof.
  intros c b v. induction ids as [| n ids IH]; intros g Hbc Hv Hnv H; cbn [fold_left].
  - destruct H as [H | [[] _]]. exact H.
  - assert (Hvn : v <> n) by (intro E; apply Hv; left; symmetry; exact E).
    assert (Hv' : ~ In v ids) by (intro E; apply Hv; right; exact E).
    destruct (String.eqb_spec n c) as [-> | Hnc].
    + rewrite merge_into_self. apply IH; try assumption.
      destruct H as [H | [[E | Hin] H]]; [left; exact H | congruence | right; auto].
    + assert (Hv1 : nx_has_node (merge_into c g n) v = true)
        by (apply merge_into_keeps_node; assumption).
      apply IH; try assumption.
      destruct H as [H | [Hin [Hb Hbv]]].
      * left. apply merge_into_keeps_edge; [congruence | exact Hvn | exact H].
      * destruct (String.eqb_spec n b) as [-> | Hnb].
        -- left. apply merge_into_redirects_out; try assumption; congruence.
        -- right. destruct Hin as [E | Hin]; [congruence |].
           split; [exact Hin |]. split.
           ++ apply merge_into_keeps_node; [congruence | exact Hb].
           ++ apply merge_into_keeps_edge; [congruence | exact Hvn | exact Hbv].
Qed.

(** X24. Merging a group of any size redirects the edges of its members.
    After the step of [merge_nodes_by_reference] for a group with the
    canonical node [c], a member [b] other than [c] has no data left, [c]
    is still a node, every edge [u -> b] from a node outside the group has
    become an edge [u -> c], and every edge [b -> v] to a node outside the
    group has become an edge [c -> v]. *)
Theorem merge_group_redirects :
  forall (g g' : DiGraph) (nm : string) (ids : list string) (c b : string),
    merge_group (nm, ids) g = Ok g' ->
    2 <= List.length ids ->
    min_by (score g) ids = Ok c ->
    In b ids -> b <> c -> nx_has_node g b = true ->
    node_data g' b = None
    /\ nx_has_node g' c = true
    /\ (forall u, ~ In u ids -> nx_has_edge g u b = true -> nx_has_edge g' u c = true)
    /\ (forall v, ~ In v ids -> nx_has_node g v = true -> nx_has_edge g b v = true ->
                  nx_has_edge g' c v = true).
Proof.
  intros g g' nm ids c b Hrun Hlen Hc Hb Hbc Hnb.
  destruct (merge_group_cases _ _ _ _ Hrun) as [[Hle _] | [_ (c' & Hc' & ->)]]; [lia |].
  rewrite Hc in Hc'. injection Hc' as <-.
  assert (Hnc : nx_has_node g c = true).
  { destruct ids as [| x rest]; cbn [min_by] in Hc; [discriminate |].
    destruct (score g x) as [k |] eqn:Ek; cbn [bind] in Hc; [| discriminate].
    destruct (min_from_least _ _ _ _ _ Ek Hc) as (kc & Hkc & _).
    unfold score in Hkc. unfold nx_has_node, dict_mem.
    destruct (dict_get c g); [reflexivity | discriminate]. }
  pose proof (min_by_In _ _ _ Hc) as Hcin.
  split; [| split; [| split]].
  - rewrite merge_all_node_data, (existsb_eqb_In _ _ Hb), (eqb_neq_false _ _ Hbc).
    reflexivity.
  - apply merge_all_keeps_canonical. exact Hnc.
  - intros u Hu Hub. apply (merge_all_redirects_in c b u ids g); try assumption.
    + intro E. subst u. contradiction.
    + right. auto.
  - intros v Hv Hnv Hbv. apply (merge_all_redirects_out c b v ids g); try assumption.
    right. auto.
Qed.

Lemma merge_group_redirects_witness :
  exists g',
    merge_group ("Test", ["function:dummy.Test"; "function:dummy_alt.Test"])
      test_merge_graph = Ok g'
    /\ node_data g' "function:dummy_alt.Test" = None
    /\ nx_has_edge g' "function:dummy.func" "function:dummy.Test" = true.
Proof.
  eexists. split; [reflexivity |].
  assert (Hbc : "function:dummy_alt.Test" <> "function:dummy.Test") by discriminate.
  match goal with
  | |- node_data ?g' _ = _ /\ _ =>
      destruct (merge_group_redirects test_merge_graph g' "Test"
                  ["function:dummy.Test"; "function:dummy_alt.Test"]
                  "function:dummy.Test" "function:dummy_alt.Test"
                  eq_refl (le_n 2) eq_refl (or_intror (or_introl eq_refl)) Hbc eq_refl)
        as (Hgone & _ & Hin & _)
  end.
  split; [exact Hgone |]. apply Hin; [| reflexivity].
  intros [E | [E | []]]; discriminate E.
Defined.

(* ================================================================== *)
(** * Edges inside a group *)

(** What merging [B] into [A] does to an edge [C -> B], where [C] may be
    [A] itself. *)
Lemma merge_into_redirects_in :
  forall (g : DiGraph) (A B C : string),
    A <> B -> C <> B ->
    nx_has_node g B = true -> nx_has_node g C = true ->
    nx_has_edge g C B = true ->
    nx_has_edge (merge_into A g B) C A = true.
Proof.
  intros g A B C HAB HCB HB HC Hedge. unfold merge_into.
  rewrite eqb_neq_false by (intro E; apply HAB; symmetry; exact E).
  rewrite HB. cbn [negb].
  assert (H3 : nx_has_edge (remove_edges (edges_to_remove g B)
                              (add_edges (edges_to_add g A B) g)) C A = true).
  { rewrite remove_edges_keeps.
    - destruct (nx_has_edge g C A) eqn:Eca.
      + apply add_edges_has_edge. exact Eca.
      + destruct (has_edge_listed g C B Hedge) as [rel Hrel].
        apply add_edges_adds with (rel := rel).
        apply edges_to_add_incoming; assumption.
    - intro Hin. apply edges_to_remove_touch in Hin. destruct Hin; congruence. }
  destruct (nx_has_node (remove_edges _ _) B); [| exact H3].
  rewrite has_edge_remove_node, H3, (eqb_neq_false _ _ HCB), (eqb_neq_false _ _ HAB).
  reflexivity.
Qed.

(** An edge between two ids that are the canonical id or still to be
    merged ends as a loop at the canonical node. *)
Lemma merge_all_inner_edge :
  forall (c : string) (ids : list string) (g : DiGraph),
    nx_has_node g c = true ->
    nx_has_edge g c c = true
    \/ (exists x y,
          (x = c \/ In x ids) /\ (y = c \/ In y ids) /\ x <> y
          /\ nx_has_node g x = true /\ nx_has_node g y = true
          /\ nx_has_edge g x y = true) ->
    nx_has_edge (fold_left (merge_into c) ids g) c c = true.
Proof.
  intros c. induction ids as [| n ids IH]; intros g Hc H; cbn [fold_left].
  - destruct H as [H | (x & y & [Hx | []] & [Hy | []] & Hxy & _)]; [exact H |].
    congruence.
  - destruct (String.eqb_spec n c) as [-> | Hnc].
    + rewrite merge_into_self. apply IH; [exact Hc |].
      destruct H as [H | (x & y & Hx & Hy & Hrest)]; [left; exact H |].
      right. exists x, y. split; [| split; [| exact Hrest]].
      * destruct Hx as [Hx | [Hx | Hx]]; auto.
      * destruct Hy as [Hy | [Hy | Hy]]; auto.
    + assert (Hc1 : nx_has_node (merge_into c g n) c = true)
        by (apply merge_into_keeps_node; [congruence | exact Hc]).
      apply IH; [exact Hc1 |].
      destruct H as [H | (x & y & Hx & Hy & Hxy & Hnx & Hny & Hedge)].
      { left. apply merge_into_keeps_edge; [congruence | congruence | exact H]. }
      destruct (String.eqb_spec x n) as [-> | Hxn].
      * (* the source is merged: n -> y becomes c -> y *)
        assert (Hyn : y <> n) by congruence.
        assert (Hcy : nx_has_edge (merge_into c g n) c y = true)
          by (apply merge_into_redirects_out; try assumption; congruence).
        destruct (String.eqb_spec y c) as [-> | Hyc]; [left; exact Hcy |].
        right. exists c, y. split; [left; reflexivity |]. split.
        { right. destruct Hy as [Hy | [Hy | Hy]]; [congruence | congruence | exact Hy]. }
        split; [congruence |]. split; [exact Hc1 |]. split; [| exact Hcy].
        apply merge_into_keeps_node; assumption.
      * destruct (String.eqb_spec y n) as [-> | Hyn].
        -- (* the target is merged: x -> n becomes x -> c *)
           assert (Hxc : nx_has_edge (merge_into c g n) x c = true)
             by (apply merge_into_redirects_in; try assumption; congruence).
           destruct (String.eqb_spec x c) as [-> | Hxc']; [left; exact Hxc |].
           right. exists x, c. split.
           { right. destruct Hx as [Hx | [Hx | Hx]]; [congruence | congruence | exact Hx]. }
           split; [left; reflexivity |]. split; [exact Hxc' |].
           split; [| split; [exact Hc1 | exact Hxc]].
           apply merge_into_keeps_node; assumption.
        -- right. exists x, y. split.
           { destruct Hx as [Hx | [Hx | Hx]]; [left; exact Hx | congruence | right; exact Hx]. }
           split.
           { destruct Hy as [Hy | [Hy | Hy]]; [left; exact Hy | congruence | right; exact Hy]. }
           split; [exact Hxy |].
           split; [apply merge_into_keeps_node; assumption |].
           split; [apply merge_into_keeps_node; assumption |].
           apply merge_into_keeps_edge; assumption.
Qed.

(** X6. An edge inside a group becomes a loop.  The step of
    [merge_nodes_by_reference] for a group does not drop an edge between
    two of its members: it redirects both ends.  When the graph has an
    edge [x -> y] between two different members of the group (one of them
    may be the canonical node [c]), the graph after the step has the loop
    [c -> c] at the canonical node. *)
Theorem merge_group_inner_edge_becomes_loop :
  forall (g g' : DiGraph) (nm : string) (ids : list string) (c x y : string),
    merge_group (nm, ids) g = Ok g' ->
    min_by (score g) ids = Ok c ->
    In x ids -> In y ids -> x <> y ->
    nx_has_node g y = true -> nx_has_edge g x y = true ->
    nx_has_node g' c = true /\ nx_has_edge g' c c = true.
Proof.
  intros g g' nm ids c x y Hrun Hc Hx Hy Hxy Hny Hedge.
  assert (Hlen : 2 <= List.length ids).
  { destruct ids as [| a [| b rest]]; cbn [List.length]; [contradiction | | lia].
    destruct Hx as [<- | []]. destruct Hy as [<- | []]. congruence. }
  destruct (merge_group_cases _ _ _ _ Hrun) as [[Hle _] | [_ (c' & Hc' & ->)]]; [lia |].
  rewrite Hc in Hc'. injection Hc' as <-.
  assert (Hnc : nx_has_node g c = true).
  { destruct ids as [| a rest]; cbn [min_by] in Hc; [discriminate |].
    destruct (score g a) as [k |] eqn:Ek; cbn [bind] in Hc; [| discriminate].
    destruct (min_from_least _ _ _ _ _ Ek Hc) as (kc & Hkc & _).
    unfold score in Hkc. unfold nx_has_node, dict_mem.
    destruct (dict_get c g); [reflexivity | discriminate]. }
  split; [apply merge_all_keeps_canonical; exact Hnc |].
  apply merge_all_inner_edge; [exact Hnc |].
  right. exists x, y. split; [right; exact Hx |]. split; [right; exact Hy |].
  split; [exact Hxy |].
  split; [exact (has_edge_source_node _ _ _ Hedge) |]. split; assumption.
Qed.

Lemma merge_group_inner_edge_becomes_loop_witness :
  exists g',
    merge_nodes_by_reference inner_edge_graph = Ok g'
    /\ merge_group ("Test", ["function:dummy.Test"; "function:dummy_alt.Test"])
         inner_edge_graph = Ok g'
    /\ nx_has_edge inner_edge_graph "function:dummy.Test" "function:dummy.Test" = false
    /\ nx_has_edge g' "function:dummy.Test" "function:dummy.Test" = true
    /\ nx_has_node g' "function:dummy_alt.Test" = false.
Proof.
  eexists. split; [reflexivity |]. split; [reflexivity |]. split; [reflexivity |].
  split; [| reflexivity].
  match goal with
  | |- nx_has_edge ?g' _ _ = true =>
      refine (proj2 (merge_group_inner_edge_becomes_loop inner_edge_graph g' "Test"
                       ["function:dummy.Test"; "function:dummy_alt.Test"]
                       "function:dummy.Test" "function:dummy_alt.Test"
                       "function:dummy.Test" eq_refl eq_refl
                       (or_intror (or_introl eq_refl)) (or_introl eq_refl) _
                       eq_refl eq_refl))
  end.
  discriminate.
Defined.
